(** * Calibration ladder and live feedback: a shallow embedding

    This development embeds the two stateful algorithms of the repository:

    - [calibration.js]: the auto-calibration ladder ([CalibAuto.create],
      [CalibAuto.update], [CalibAuto._hitIndex], [CalibAuto._nearestRung],
      [CalibAuto._status]), [saveCalibration] and the part of [mainLoop]
      that decides when a record is written;
    - [live-feedback.js]: [LiveFeedback.setLevel], [LiveFeedback.setPhase],
      [LiveFeedback.showFeedback] and
      [LiveFeedback.provideShoulderAbductionFeedback].

    Numbers.  JavaScript numbers are modelled as exact rationals, in lowest
    terms ([Qc]); the rounding of IEEE doubles is not modelled there.  Where
    rounding decides a result (a tie between two rungs, a threshold met to
    the last bit, an infinite level), the statements keep a margin [tol]
    from the threshold, and module [Double] gives the ladder, the two rung
    searches and the arithmetic of [setLevel] on binary64 numbers, so that
    what the code computes at such an input can be evaluated.  The two
    special values the code can produce are kept explicit: [Infinity], used as the initial
    "best so far" of the two search loops, is [None] in an [option Qc]
    accumulator, and [NaN], produced by [0 / 0] when the ladder is created
    with a single rung, is [None] in the rung list.  Square roots
    ([Math.sqrt], [Math.hypot]) are only ever compared with a rational
    bound, so they are kept symbolic ([Root]) and the comparison is decided
    exactly on the squares.  Reads of the clocks ([performance.now],
    [Date.now]) are inputs of the functions that perform them. *)

From Stdlib Require Import QArith Qcanon Qcabs List Bool Arith Lia Lqa String.
From Stdlib Require PrimFloat.
Import ListNotations.
Open Scope Q_scope.
Open Scope Qc_scope.

(** ** Numbers *)

(** A decimal literal is read as the rational it denotes. *)
#[warnings="-ambiguous-paths"] Coercion Q2Qc : Q >-> Qc.

(** [a <= b], [a < b] and [a === b] on numbers, as booleans. *)
Definition Qcle_bool (a b : Qc) : bool := Qle_bool a b.
Definition Qclt_bool (a b : Qc) : bool := negb (Qcle_bool b a).
Definition Qceq_bool (a b : Qc) : bool := Qeq_bool a b.

(** [Math.max a b] and [Math.min a b] *)
Definition Qcmax (a b : Qc) : Qc := if Qcle_bool a b then b else a.
Definition Qcmin (a b : Qc) : Qc := if Qcle_bool a b then a else b.

(** A non-negative real known by its square: the result of [Math.sqrt d] or
    of [Math.hypot dx dy] (with [d = dx*dx + dy*dy]). *)
Record Root := Math_sqrt { radicand : Qc }.

(** [Math.sqrt d <= r].  For [d < 0] the root is [NaN] and the comparison is
    false; otherwise it holds exactly when [r] is non-negative and
    [d <= r*r]. *)
Definition sqrt_le (s : Root) (r : Qc) : bool :=
  Qcle_bool 0 (radicand s) && Qcle_bool 0 r && Qcle_bool (radicand s) (r * r).

(** [d < best] where [best = None] stands for [Infinity]. *)
Definition lt_inf (d : Qc) (best : option Qc) : bool :=
  match best with
  | None => true
  | Some b => Qclt_bool d b
  end.

(** A property of a JavaScript object literal: present with a value, or
    missing from the object (reading it gives [undefined]). *)
Inductive field (A : Type) : Type :=
| missing : field A
| present : A -> field A.
Arguments missing {A}.
Arguments present {A} _.

(** ** Landmarks *)

Record Point := { x : Qc; y : Qc; visibility : option Qc }.

(** A landmark frame: an array whose entries may be undefined. *)
Definition Landmarks := list (option Point).

(** [lm[i]] *)
Definition at_ (lm : Landmarks) (i : nat) : option Point := nth i lm None.

(** [pt?.visibility ?? d] *)
Definition vis_or (d : Qc) (pt : option Point) : Qc :=
  match pt with
  | Some p => match visibility p with Some v => v | None => d end
  | None => d
  end.

(** [clamp01 v]; [None] is a value that is not a finite number (the [y] of
    an undefined landmark). *)
Definition clamp01 (v : option Qc) : Qc :=
  match v with
  | Some q => Qcmax 0 (Qcmin 1 q)
  | None => 0.5
  end.

(** [yAtIndex yList idx]; a [null] index counts as [0] in [Math.min].  The
    result is [None] when the entry is undefined or [NaN]. *)
Definition yAtIndex (yList : list (option Qc)) (idx : option nat) : option Qc :=
  let i := Nat.max 1 (Nat.min (List.length yList)
                        (match idx with Some n => n | None => 0%nat end)) in
  nth (i - 1) yList None.

Module V2.

  (** [V2.ema prev next a] *)
Definition ema (prev next : option Point) (a : Qc) : option Point :=
    match next with
    | None => prev
    | Some n =>
        match prev with
        | None => Some n
        | Some p =>
            Some {| x := x p + a * (x n - x p);
                    y := y p + a * (y n - y p);
                    visibility := Some (vis_or 1 (Some n)) |}
        end
    end.

  (** [V2.dist a b], the square root kept symbolic. *)
Definition dist (a b : Point) : Root :=
    let dx := x a - x b in
    let dy := y a - y b in
    Math_sqrt (dx * dx + dy * dy).

End V2.

(** A speed: [0], or [V2.dist prev w / dt] with [dt > 0]. *)
Inductive Speed :=
| SpeedZero : Speed
| SpeedOf (d : Root) (dt : Qc) : Speed.

(** [spd <= m]; for [dt > 0], [sqrt d / dt <= m] iff [sqrt d <= m * dt]. *)
Definition speed_le (spd : Speed) (m : Qc) : bool :=
  match spd with
  | SpeedZero => Qcle_bool 0 m
  | SpeedOf d dt => sqrt_le d (m * dt)
  end.

(** ** The calibration ladder *)

Module Step.
Inductive t := left | right | done.

Definition eqb (a b : t) : bool :=
    match a, b with
    | left, left | right, right | done, done => true
    | _, _ => false
    end.

  (** Position of a step in the order left, right, done. *)
Definition rank (s : t) : nat :=
    match s with left => 0 | right => 1 | done => 2 end.
End Step.

(** The status object returned by [CalibAuto.update]. *)
Module Status.
Record t := {
    ok : bool;
    side : Step.t;
    saved : bool;
    progress : Qc;
    countdown : Qc;
    step : Step.t;
    leftActive : field (option nat);
    rightActive : field (option nat);
    leftSaved : field (option nat);
    rightSaved : field (option nat)
  }.
End Status.

Module CalibAuto.

Record Rom := {
    neutralSamples : list Qc;
    maxReachLeft : Qc;
    maxReachRight : Qc
  }.

  (** The argument object of [create]. *)
Record Opts := {
    o_count : nat; o_yTop : Qc; o_yBottom : Qc; o_leftX : Qc; o_rightX : Qc;
    o_hitRadius : Qc; o_holdSeconds : Qc; o_kFrames : nat;
    o_maxSpeedPerSec : Qc; o_minVis : Qc; o_needsHips : bool;
    o_laneFollow : bool; o_laneAlpha : Qc; o_laneClamp : Qc * Qc
  }.

  (** The grid object: the ladder's parameters and the session state. *)
Record Grid := mkGrid {
    count : nat; yTop : Qc; yBottom : Qc; leftX : Qc; rightX : Qc;
    hitRadius : Qc; yList : list (option Qc);
    holdSeconds : Qc; kFrames : nat; maxSpeedPerSec : Qc; minVis : Qc;
    needsHips : bool;
    laneFollow : bool; laneAlpha : Qc; laneClamp : Qc * Qc;
    step : Step.t;
    leftActive : option nat; rightActive : option nat;
    leftSaved : option nat; rightSaved : option nat;
    _lastTs : option Qc; _sL : option Point; _sR : option Point;
    _kOn : nat; _hold : Qc; _candidate : option nat;
    _rom : Rom;
    _maxRungL : option nat; _maxRungR : option nat;
    _minYLeft : Qc; _minYRight : Qc
  }.

  (** Assignments [grid.f = v], one per mutated property. *)
Definition set_step v g :=
    mkGrid (count g) (yTop g) (yBottom g) (leftX g) (rightX g) (hitRadius g) (yList g)
      (holdSeconds g) (kFrames g) (maxSpeedPerSec g) (minVis g) (needsHips g)
      (laneFollow g) (laneAlpha g) (laneClamp g)
      v (leftActive g) (rightActive g) (leftSaved g) (rightSaved g)
      (_lastTs g) (_sL g) (_sR g) (_kOn g) (_hold g) (_candidate g) (_rom g)
      (_maxRungL g) (_maxRungR g) (_minYLeft g) (_minYRight g).
Definition set_leftActive v g :=
    mkGrid (count g) (yTop g) (yBottom g) (leftX g) (rightX g) (hitRadius g) (yList g)
      (holdSeconds g) (kFrames g) (maxSpeedPerSec g) (minVis g) (needsHips g)
      (laneFollow g) (laneAlpha g) (laneClamp g)
      (step g) v (rightActive g) (leftSaved g) (rightSaved g)
      (_lastTs g) (_sL g) (_sR g) (_kOn g) (_hold g) (_candidate g) (_rom g)
      (_maxRungL g) (_maxRungR g) (_minYLeft g) (_minYRight g).
Definition set_rightActive v g :=
    mkGrid (count g) (yTop g) (yBottom g) (leftX g) (rightX g) (hitRadius g) (yList g)
      (holdSeconds g) (kFrames g) (maxSpeedPerSec g) (minVis g) (needsHips g)
      (laneFollow g) (laneAlpha g) (laneClamp g)
      (step g) (leftActive g) v (leftSaved g) (rightSaved g)
      (_lastTs g) (_sL g) (_sR g) (_kOn g) (_hold g) (_candidate g) (_rom g)
      (_maxRungL g) (_maxRungR g) (_minYLeft g) (_minYRight g).
Definition set_leftSaved v g :=
    mkGrid (count g) (yTop g) (yBottom g) (leftX g) (rightX g) (hitRadius g) (yList g)
      (holdSeconds g) (kFrames g) (maxSpeedPerSec g) (minVis g) (needsHips g)
      (laneFollow g) (laneAlpha g) (laneClamp g)
      (step g) (leftActive g) (rightActive g) v (rightSaved g)
      (_lastTs g) (_sL g) (_sR g) (_kOn g) (_hold g) (_candidate g) (_rom g)
      (_maxRungL g) (_maxRungR g) (_minYLeft g) (_minYRight g).
Definition set_rightSaved v g :=
    mkGrid (count g) (yTop g) (yBottom g) (leftX g) (rightX g) (hitRadius g) (yList g)
      (holdSeconds g) (kFrames g) (maxSpeedPerSec g) (minVis g) (needsHips g)
      (laneFollow g) (laneAlpha g) (laneClamp g)
      (step g) (leftActive g) (rightActive g) (leftSaved g) v
      (_lastTs g) (_sL g) (_sR g) (_kOn g) (_hold g) (_candidate g) (_rom g)
      (_maxRungL g) (_maxRungR g) (_minYLeft g) (_minYRight g).
Definition set_lastTs v g :=
    mkGrid (count g) (yTop g) (yBottom g) (leftX g) (rightX g) (hitRadius g) (yList g)
      (holdSeconds g) (kFrames g) (maxSpeedPerSec g) (minVis g) (needsHips g)
      (laneFollow g) (laneAlpha g) (laneClamp g)
      (step g) (leftActive g) (rightActive g) (leftSaved g) (rightSaved g)
      v (_sL g) (_sR g) (_kOn g) (_hold g) (_candidate g) (_rom g)
      (_maxRungL g) (_maxRungR g) (_minYLeft g) (_minYRight g).
Definition set_sL v g :=
    mkGrid (count g) (yTop g) (yBottom g) (leftX g) (rightX g) (hitRadius g) (yList g)
      (holdSeconds g) (kFrames g) (maxSpeedPerSec g) (minVis g) (needsHips g)
      (laneFollow g) (laneAlpha g) (laneClamp g)
      (step g) (leftActive g) (rightActive g) (leftSaved g) (rightSaved g)
      (_lastTs g) v (_sR g) (_kOn g) (_hold g) (_candidate g) (_rom g)
      (_maxRungL g) (_maxRungR g) (_minYLeft g) (_minYRight g).
Definition set_sR v g :=
    mkGrid (count g) (yTop g) (yBottom g) (leftX g) (rightX g) (hitRadius g) (yList g)
      (holdSeconds g) (kFrames g) (maxSpeedPerSec g) (minVis g) (needsHips g)
      (laneFollow g) (laneAlpha g) (laneClamp g)
      (step g) (leftActive g) (rightActive g) (leftSaved g) (rightSaved g)
      (_lastTs g) (_sL g) v (_kOn g) (_hold g) (_candidate g) (_rom g)
      (_maxRungL g) (_maxRungR g) (_minYLeft g) (_minYRight g).
Definition set_kOn v g :=
    mkGrid (count g) (yTop g) (yBottom g) (leftX g) (rightX g) (hitRadius g) (yList g)
      (holdSeconds g) (kFrames g) (maxSpeedPerSec g) (minVis g) (needsHips g)
      (laneFollow g) (laneAlpha g) (laneClamp g)
      (step g) (leftActive g) (rightActive g) (leftSaved g) (rightSaved g)
      (_lastTs g) (_sL g) (_sR g) v (_hold g) (_candidate g) (_rom g)
      (_maxRungL g) (_maxRungR g) (_minYLeft g) (_minYRight g).
Definition set_hold v g :=
    mkGrid (count g) (yTop g) (yBottom g) (leftX g) (rightX g) (hitRadius g) (yList g)
      (holdSeconds g) (kFrames g) (maxSpeedPerSec g) (minVis g) (needsHips g)
      (laneFollow g) (laneAlpha g) (laneClamp g)
      (step g) (leftActive g) (rightActive g) (leftSaved g) (rightSaved g)
      (_lastTs g) (_sL g) (_sR g) (_kOn g) v (_candidate g) (_rom g)
      (_maxRungL g) (_maxRungR g) (_minYLeft g) (_minYRight g).
Definition set_candidate v g :=
    mkGrid (count g) (yTop g) (yBottom g) (leftX g) (rightX g) (hitRadius g) (yList g)
      (holdSeconds g) (kFrames g) (maxSpeedPerSec g) (minVis g) (needsHips g)
      (laneFollow g) (laneAlpha g) (laneClamp g)
      (step g) (leftActive g) (rightActive g) (leftSaved g) (rightSaved g)
      (_lastTs g) (_sL g) (_sR g) (_kOn g) (_hold g) v (_rom g)
      (_maxRungL g) (_maxRungR g) (_minYLeft g) (_minYRight g).
Definition set_rom v g :=
    mkGrid (count g) (yTop g) (yBottom g) (leftX g) (rightX g) (hitRadius g) (yList g)
      (holdSeconds g) (kFrames g) (maxSpeedPerSec g) (minVis g) (needsHips g)
      (laneFollow g) (laneAlpha g) (laneClamp g)
      (step g) (leftActive g) (rightActive g) (leftSaved g) (rightSaved g)
      (_lastTs g) (_sL g) (_sR g) (_kOn g) (_hold g) (_candidate g) v
      (_maxRungL g) (_maxRungR g) (_minYLeft g) (_minYRight g).
Definition set_maxRungL v g :=
    mkGrid (count g) (yTop g) (yBottom g) (leftX g) (rightX g) (hitRadius g) (yList g)
      (holdSeconds g) (kFrames g) (maxSpeedPerSec g) (minVis g) (needsHips g)
      (laneFollow g) (laneAlpha g) (laneClamp g)
      (step g) (leftActive g) (rightActive g) (leftSaved g) (rightSaved g)
      (_lastTs g) (_sL g) (_sR g) (_kOn g) (_hold g) (_candidate g) (_rom g)
      v (_maxRungR g) (_minYLeft g) (_minYRight g).
Definition set_maxRungR v g :=
    mkGrid (count g) (yTop g) (yBottom g) (leftX g) (rightX g) (hitRadius g) (yList g)
      (holdSeconds g) (kFrames g) (maxSpeedPerSec g) (minVis g) (needsHips g)
      (laneFollow g) (laneAlpha g) (laneClamp g)
      (step g) (leftActive g) (rightActive g) (leftSaved g) (rightSaved g)
      (_lastTs g) (_sL g) (_sR g) (_kOn g) (_hold g) (_candidate g) (_rom g)
      (_maxRungL g) v (_minYLeft g) (_minYRight g).
Definition set_minYLeft v g :=
    mkGrid (count g) (yTop g) (yBottom g) (leftX g) (rightX g) (hitRadius g) (yList g)
      (holdSeconds g) (kFrames g) (maxSpeedPerSec g) (minVis g) (needsHips g)
      (laneFollow g) (laneAlpha g) (laneClamp g)
      (step g) (leftActive g) (rightActive g) (leftSaved g) (rightSaved g)
      (_lastTs g) (_sL g) (_sR g) (_kOn g) (_hold g) (_candidate g) (_rom g)
      (_maxRungL g) (_maxRungR g) v (_minYRight g).
Definition set_minYRight v g :=
    mkGrid (count g) (yTop g) (yBottom g) (leftX g) (rightX g) (hitRadius g) (yList g)
      (holdSeconds g) (kFrames g) (maxSpeedPerSec g) (minVis g) (needsHips g)
      (laneFollow g) (laneAlpha g) (laneClamp g)
      (step g) (leftActive g) (rightActive g) (leftSaved g) (rightSaved g)
      (_lastTs g) (_sL g) (_sR g) (_kOn g) (_hold g) (_candidate g) (_rom g)
      (_maxRungL g) (_maxRungR g) (_minYLeft g) v.

  (** [grid._rom.neutralSamples.push v] *)
Definition push_neutral (v : Qc) (g : Grid) : Grid :=
    set_rom {| neutralSamples := neutralSamples (_rom g) ++ [v];
               maxReachLeft := maxReachLeft (_rom g);
               maxReachRight := maxReachRight (_rom g) |} g.

  (** The i-th rung of [create]: [yBottom - (i / (count - 1)) * (yBottom - yTop)];
      with a single rung the quotient is [0 / 0], that is [NaN].  The value
      is the exact one; [Double.rungY] is the rounded one. *)
Definition rungY (n : nat) (yT yB : Qc) (i : nat) : option Qc :=
    if (n =? 1)%nat then None
    else Some (yB - (inject_Z (Z.of_nat i) / (inject_Z (Z.of_nat n) - 1)) * (yB - yT)).

  (** [CalibAuto.create opts] *)
Definition create (o : Opts) : Grid :=
    let yList := map (rungY (o_count o) (o_yTop o) (o_yBottom o)) (seq 0 (o_count o)) in
    {| count := o_count o; yTop := o_yTop o; yBottom := o_yBottom o;
       leftX := o_leftX o; rightX := o_rightX o; hitRadius := o_hitRadius o;
       yList := yList;
       holdSeconds := o_holdSeconds o; kFrames := o_kFrames o;
       maxSpeedPerSec := o_maxSpeedPerSec o; minVis := o_minVis o;
       needsHips := o_needsHips o;
       laneFollow := o_laneFollow o; laneAlpha := o_laneAlpha o;
       laneClamp := o_laneClamp o;
       step := Step.left;
       leftActive := None; rightActive := None;
       leftSaved := None; rightSaved := None;
       _lastTs := None; _sL := None; _sR := None;
       _kOn := 0; _hold := 0; _candidate := None;
       _rom := {| neutralSamples := []; maxReachLeft := 1; maxReachRight := 1 |};
       _maxRungL := None; _maxRungR := None; _minYLeft := 1; _minYRight := 1 |}.

  (** The default parameters of [create], also the [defaults] of the page. *)
Definition defaults : Opts :=
    {| o_count := 8; o_yTop := 0.12; o_yBottom := 0.85;
       o_leftX := 0.18; o_rightX := 0.82;
       o_hitRadius := 0.12; o_holdSeconds := 5;
       o_kFrames := 6; o_maxSpeedPerSec := 0.60; o_minVis := 0.55;
       o_needsHips := true;
       o_laneFollow := false; o_laneAlpha := 0.15; o_laneClamp := (0.08 : Qc, 0.92 : Qc) |}.

  (** One iteration of the loop of [_hitIndex]; [acc] is [(best, bestD2)].
      The squared distance is the exact one; [Double.hit_body] is the
      rounded one. *)
Definition hit_body (g : Grid) (px py laneX : Qc)
      (acc : option nat * option Qc) (i : nat) : option nat * option Qc :=
    match nth i (yList g) None with
    | Some yy =>
        let dx := px - laneX in
        let dy := py - yy in
        let d2 := dx * dx + dy * dy in
        if lt_inf d2 (snd acc) then (Some i, Some d2) else acc
    | None => acc
    end.

Definition hit_loop (g : Grid) (px py laneX : Qc) : option nat * option Qc :=
    fold_left (hit_body g px py laneX) (seq 0 (count g)) (None, None).

  (** [best + 1], where [null + 1] is [1]. *)
Definition plus1 (best : option nat) : nat :=
    match best with Some i => S i | None => 1%nat end.

  (** [CalibAuto._hitIndex grid x y laneX] *)
Definition _hitIndex (g : Grid) (px py laneX : Qc) : option nat :=
    let '(best, bestD2) := hit_loop g px py laneX in
    let hit := match bestD2 with
               | Some d => sqrt_le (Math_sqrt d) (hitRadius g)
               | None => false
               end in
    if hit then Some (plus1 best) else None.

  (** One iteration of the loop of [_nearestRung]; [acc] is [(best, bestAbs)]. *)
Definition nearest_body (g : Grid) (py : Qc)
      (acc : nat * option Qc) (i : nat) : nat * option Qc :=
    match nth i (yList g) None with
    | Some yy =>
        let d := Qcabs (yy - py) in
        if lt_inf d (snd acc) then (S i, Some d) else acc
    | None => acc
    end.

  (** [CalibAuto._nearestRung grid y] *)
Definition _nearestRung (g : Grid) (py : Qc) : nat :=
    fst (fold_left (nearest_body g py) (seq 0 (count g)) (1%nat, None)).

  (** [CalibAuto._status grid side progress] *)
Definition _status (g : Grid) (side : Step.t) (progress : Qc) : Status.t :=
    let progress := Qcmax 0 (Qcmin 1 progress) in
    let countdown := Qcmax 0 (holdSeconds g * (1 - progress)) in
    {| Status.ok := true; Status.side := side; Status.saved := false;
       Status.progress := progress; Status.countdown := countdown;
       Status.step := step g;
       Status.leftActive := present (leftActive g);
       Status.rightActive := present (rightActive g);
       Status.leftSaved := present (leftSaved g);
       Status.rightSaved := present (rightSaved g) |}.

(** Control after the steadiness stage of [update]: the function has
    returned, or it goes on to the completion test with the grid as it is
    after the hold timer was advanced. *)
Inductive Flow :=
| Return (g : Grid) (s : Status.t)
| Next (g : Grid) (side : Step.t).

(** What the tracking stage of [update] hands to the steadiness stage. *)
Record Tracked := {
  t_grid : Grid;
  t_side : Step.t;
  t_active : option nat;
  t_spd : Speed;
  t_yHand : Qc;
  t_dt : Qc
}.

(** [vOK pt]: [(pt?.visibility ?? 0) >= grid.minVis] *)
Definition vOK (g : Grid) (pt : option Point) : bool :=
  Qcle_bool (minVis g) (vis_or 0 pt).

(** [hipsOK] *)
Definition hipsOK (g : Grid) (lm : Landmarks) : bool :=
  Qcle_bool (minVis g) (vis_or 0 (at_ lm 23)) &&
  Qcle_bool (minVis g) (vis_or 0 (at_ lm 24)).

(** [nrm pt] *)
Definition nrm (isMirrored : bool) (pt : Point) : Point :=
  {| x := clamp01 (Some (if isMirrored then 1 - x pt else x pt));
     y := clamp01 (Some (y pt));
     visibility := Some (vis_or 1 (Some pt)) |}.

(** Truth value of [grid._lastTs]: [null] and [0] are false. *)
Definition truthy_ts (ts : option Qc) : bool :=
  match ts with
  | Some v => negb (Qceq_bool v 0)
  | None => false
  end.

(** [(prev && dt > 0) ? V2.dist(prev, w) / dt : 0] *)
Definition speed (prev : option Point) (w : Point) (dt : Qc) : Speed :=
  match prev with
  | Some p => if Qclt_bool 0 dt then SpeedOf (V2.dist p w) dt else SpeedZero
  | None => SpeedZero
  end.

(** [!active]: [null] and [0] are false values. *)
Definition falsy_rung (active : option nat) : bool :=
  match active with
  | None => true
  | Some n => (n =? 0)%nat
  end.

(** [a !== b] on rung indices. *)
Definition rung_neq (a b : option nat) : bool :=
  match a, b with
  | None, None => false
  | Some m, Some n => negb (m =? n)%nat
  | _, _ => true
  end.

(** Line 59 (the assignment) and line 60 of [update]: the clock is stored
    and both smoothed points advance. *)
Definition smooth (g : Grid) (wL wR : Point) (now : Qc) : Grid :=
  let g := set_lastTs (Some now) g in
  let g := set_sL (V2.ema (_sL g) (Some wL) 0.35) g in
  set_sR (V2.ema (_sR g) (Some wR) 0.35) g.

(** Lines 63 and 64 of [update]: the hit test of both hands. *)
Definition hit_test (g : Grid) (sL sR : Point) : Grid :=
  let g := set_leftActive (_hitIndex g (x sL) (y sL) (leftX g)) g in
  set_rightActive (_hitIndex g (x sR) (y sR) (rightX g)) g.

(** Lines 66 and 67 of [update]: the highest point reached by each hand and
    its nearest rung. *)
Definition reach (g : Grid) (sL sR : Point) : Grid :=
  let g := if Qclt_bool (y sL) (_minYLeft g)
           then set_maxRungL (Some (_nearestRung g (y sL))) (set_minYLeft (y sL) g)
           else g in
  if Qclt_bool (y sR) (_minYRight g)
  then set_maxRungR (Some (_nearestRung g (y sR))) (set_minYRight (y sR) g)
  else g.

(** Lines 56 to 72 of [update]: normalisation, clock, smoothing, speeds,
    hit test of both hands, reach extremes, and the choice of the hand by
    [grid.step].  [p15] and [p16] are [lm[15]] and [lm[16]]. *)
Definition track (g : Grid) (p15 p16 : Point) (isMirrored : bool) (now : Qc)
    : Tracked :=
  let wL := nrm isMirrored p15 in
  let wR := nrm isMirrored p16 in
  let dt := if truthy_ts (_lastTs g)
            then (now - match _lastTs g with Some v => v | None => 0 end) / 1000
            else 0 in
  let prevL := _sL g in
  let prevR := _sR g in
  let g := smooth g wL wR now in
  let sL := match _sL g with Some p => p | None => wL end in
  let sR := match _sR g with Some p => p | None => wR end in
  let spdL := speed prevL wL dt in
  let spdR := speed prevR wR dt in
  let g := reach (hit_test g sL sR) sL sR in
  let side := step g in
  let isLeft := Step.eqb side Step.left in
  {| t_grid := g;
     t_side := side;
     t_active := if isLeft then leftActive g else rightActive g;
     t_spd := if isLeft then spdL else spdR;
     t_yHand := if isLeft then y sL else y sR;
     t_dt := dt |}.

(** Lines 74 to 77 of [update]: a miss returns; otherwise the candidate is
    tracked, a steady frame is counted and the hold timer advanced. *)
Definition steadiness (tr : Tracked) : Flow :=
  let g := t_grid tr in
  let side := t_side tr in
  let active := t_active tr in
  if falsy_rung active then
    let g := set_candidate None g in
    let g := set_kOn 0%nat g in
    let g := set_hold 0 g in
    let g := push_neutral (t_yHand tr) g in
    Return g (_status g side 0)
  else
    let g := if rung_neq (_candidate g) active
             then set_hold 0 (set_kOn 0%nat (set_candidate active g))
             else g in
    let steady := speed_le (t_spd tr) (maxSpeedPerSec g) in
    let g := if steady then set_kOn (S (_kOn g)) g else g in
    let g := if (kFrames g <=? _kOn g)%nat then set_hold (_hold g + t_dt tr) g else g in
    Next g side.

(** Lines 49 to 77 of [update]: the three early exits, the hip sample, then
    tracking and steadiness. *)
Definition upto_hold (g : Grid) (lm : option Landmarks) (isMirrored : bool)
    (now : Qc) : Flow :=
  match lm with
  | None => Return g (_status g (step g) 0)
  | Some l =>
      match at_ l 15, at_ l 16 with
      | Some p15, Some p16 =>
          if needsHips g && negb (hipsOK g l) then
            let g := set_candidate None g in
            let g := set_kOn 0%nat g in
            let g := set_hold 0 g in
            Return g (_status g (step g) 0)
          else
            let yH1 := clamp01 (option_map y (at_ l 23)) in
            let yH2 := clamp01 (option_map y (at_ l 24)) in
            let g := push_neutral (Qcmax yH1 yH2) g in
            if negb (vOK g (Some p15)) || negb (vOK g (Some p16)) then
              let g := set_kOn 0%nat g in
              let g := set_hold 0 g in
              Return g (_status g (step g) 0)
            else
              steadiness (track g p15 p16 isMirrored now)
      | _, _ => Return g (_status g (step g) 0)
      end
  end.

(** Lines 79 to 84 of [update]: the completion test. *)
Definition completion (g : Grid) (side : Step.t) : Grid * Status.t :=
  if Qcle_bool (holdSeconds g) (_hold g) then
    let isLeft := Step.eqb side Step.left in
    let g := if isLeft then set_leftSaved (_candidate g) g
             else set_rightSaved (_candidate g) g in
    let g := set_candidate None g in
    let g := set_kOn 0%nat g in
    let g := set_hold 0 g in
    let g := set_step (if isLeft then Step.right else Step.done) g in
    (g, {| Status.ok := true; Status.side := side; Status.saved := true;
           Status.progress := 1; Status.countdown := 0;
           Status.step := step g;
           Status.leftActive := missing; Status.rightActive := missing;
           Status.leftSaved := missing; Status.rightSaved := missing |})
  else
    (g, _status g side (_hold g / holdSeconds g)).

(** [CalibAuto.update grid lm {isMirrored}]; [now] is the value read from
    [performance.now].  The grid is mutated in place: the result pairs the
    grid after the call with the returned status. *)
Definition update (g : Grid) (lm : option Landmarks) (isMirrored : bool)
    (now : Qc) : Grid * Status.t :=
  match upto_hold g lm isMirrored now with
  | Return g' s => (g', s)
  | Next g' side => completion g' side
  end.

End CalibAuto.

(** ** The calibration page: [saveCalibration] and [mainLoop] *)

(** The persisted calibration record. *)
Module Payload.
Record Rom := { neutralY : Qc; maxReachLeftY : Qc; maxReachRightY : Qc }.

Record t := {
  t_ms : Qc;
  mirror : bool;
  count : nat; yTop : Qc; yBottom : Qc; leftX : Qc; rightX : Qc; hitRadius : Qc;
  leftIndex : option nat; rightIndex : option nat;
  leftY : option Qc; rightY : option Qc;
  rom : Rom;
  version : string
}.
End Payload.

Inductive Storage := sessionStorage | localStorage.

(** One successful [setItem store key value]. *)
Definition Write := (Storage * string * Payload.t)%type.

Definition CALIB_KEY : string := "calib_vertical_autohold".
Definition COMPAT_KEY : string := "calibration".

(** [samples.reduce((a, b) => a + b, 0)] *)
Definition sum (samples : list Qc) : Qc := fold_left Qcplus samples 0.

(** The [neutral] of [saveCalibration]. *)
Definition neutral_of (g : CalibAuto.Grid) : Qc :=
  let samples := CalibAuto.neutralSamples (CalibAuto._rom g) in
  match samples with
  | [] => CalibAuto.yBottom g
  | _ => sum samples / inject_Z (Z.of_nat (List.length samples))
  end.

(** The [payload] of [saveCalibration]; [dateNow] is the value of [Date.now]. *)
Definition payload_of (g : CalibAuto.Grid) (dateNow : Qc) : Payload.t :=
  {| Payload.t_ms := dateNow; Payload.mirror := true;
     Payload.count := CalibAuto.count g;
     Payload.yTop := CalibAuto.yTop g; Payload.yBottom := CalibAuto.yBottom g;
     Payload.leftX := CalibAuto.leftX g; Payload.rightX := CalibAuto.rightX g;
     Payload.hitRadius := CalibAuto.hitRadius g;
     Payload.leftIndex := CalibAuto.leftSaved g;
     Payload.rightIndex := CalibAuto.rightSaved g;
     Payload.leftY := yAtIndex (CalibAuto.yList g) (CalibAuto.leftSaved g);
     Payload.rightY := yAtIndex (CalibAuto.yList g) (CalibAuto.rightSaved g);
     Payload.rom := {| Payload.neutralY := neutral_of g;
                       Payload.maxReachLeftY := CalibAuto._minYLeft g;
                       Payload.maxReachRightY := CalibAuto._minYRight g |};
     Payload.version := "ladder-v2" |}.

(** [saveCalibration()]: the payload and the writes that reached storage.
    The three [setItem] calls run in order inside one [try]; [quota] is the
    number of them that succeed before one throws (3 or more: all). *)
Definition saveCalibration (g : CalibAuto.Grid) (dateNow : Qc) (quota : nat)
    : Payload.t * list Write :=
  let payload := payload_of g dateNow in
  (payload,
   firstn quota [ (sessionStorage, CALIB_KEY, payload);
                  (localStorage, CALIB_KEY, payload);
                  (localStorage, COMPAT_KEY, payload) ]).

(** The module-level variables of the page that the frame loop reads and
    writes, with the log of what was written to storage. *)
Record Page := {
  latestLm : option Landmarks;
  grid : option CalibAuto.Grid;
  running : bool;
  savedOnce : bool;
  stored : list Write
}.

Definition page0 : Page :=
  {| latestLm := None; grid := None; running := false; savedOnce := false;
     stored := [] |}.

(** [start()]; [ready] tells whether the camera stream and the pose
    constructor were obtained. *)
Definition start (p : Page) (ready : bool) : Page :=
  if running p then p
  else if ready then
    {| latestLm := latestLm p; grid := Some (CalibAuto.create CalibAuto.defaults);
       running := true; savedOnce := savedOnce p; stored := stored p |}
  else
    {| latestLm := latestLm p; grid := grid p;
       running := false; savedOnce := savedOnce p; stored := stored p |}.

(** [reset()] *)
Definition reset (p : Page) : Page :=
  {| latestLm := latestLm p; grid := Some (CalibAuto.create CalibAuto.defaults);
     running := running p; savedOnce := false; stored := stored p |}.

(** The [onResults] callback: [latestLm = poseLandmarks || null]. *)
Definition onResults (p : Page) (poseLandmarks : option Landmarks) : Page :=
  {| latestLm := poseLandmarks; grid := grid p;
     running := running p; savedOnce := savedOnce p; stored := stored p |}.

(** [mainLoop()], without the drawing: one update of the grid with the
    latest landmarks, then the record is saved the first time the step is
    [done]. *)
Definition mainLoop (p : Page) (now dateNow : Qc) (quota : nat) : Page :=
  if negb (running p) then p
  else
    match latestLm p, grid p with
    | Some lm, Some g =>
        let '(g, r) := CalibAuto.update g (Some lm) true now in
        if Step.eqb (CalibAuto.step g) Step.done && negb (savedOnce p) then
          let '(payload, ws) := saveCalibration g dateNow quota in
          {| latestLm := latestLm p; grid := Some g; running := running p;
             savedOnce := true; stored := stored p ++ ws |}
        else
          {| latestLm := latestLm p; grid := Some g; running := running p;
             savedOnce := savedOnce p; stored := stored p |}
    | _, _ => p
    end.

(** What can happen to the page. *)
Inductive Event :=
| EStart (ready : bool)
| EReset
| EResults (poseLandmarks : option Landmarks)
| EFrame (now dateNow : Qc) (quota : nat).

Definition handle (p : Page) (e : Event) : Page :=
  match e with
  | EStart ready => start p ready
  | EReset => reset p
  | EResults lm => onResults p lm
  | EFrame now dateNow quota => mainLoop p now dateNow quota
  end.

Definition run_page (p : Page) (es : list Event) : Page := fold_left handle es p.

(** A calibration session: the frames given to [update] one after the other
    on the same grid. *)
Record Frame := { f_lm : option Landmarks; f_mirror : bool; f_now : Qc }.

Definition step_frame (g : CalibAuto.Grid) (f : Frame) : CalibAuto.Grid :=
  fst (CalibAuto.update g (f_lm f) (f_mirror f) (f_now f)).

Definition run (g : CalibAuto.Grid) (fs : list Frame) : CalibAuto.Grid :=
  fold_left step_frame fs g.

(** ** The live feedback classifier *)

(** A calibration record as the feedback reads it back: any property may be
    missing or not a finite number ([None]). *)
Module Stored.
Record Rom := {
  neutralY : option Qc; maxReachLeftY : option Qc; maxReachRightY : option Qc
}.
Record t := { rom : option Rom }.
End Stored.

Module LiveFeedback.

(** The DOM element that displays the message. *)
Record Element := { textContent : string; className : string }.

Record t := mk {
  feedbackElement : option Element;
  currentFeedback : string;
  lastFeedbackTime : Qc;
  feedbackCooldown : Qc;
  angleTolerance : Qc;
  level : Qc;
  levels : Qc;
  calib : option Stored.t;
  targetY : Qc;
  neutralY : Qc;
  downBuffer : Qc;
  requireDownFrames : nat;
  requireUpFrames : nat;
  phase : string;
  _downCounter : nat;
  _upCounter : nat
}.

(** [new LiveFeedback()] *)
Definition constructor : t :=
  {| feedbackElement := None; currentFeedback := ""; lastFeedbackTime := 0;
     feedbackCooldown := 1500; angleTolerance := 15;
     level := 1; levels := 3; calib := None;
     targetY := 0.6; neutralY := 0.78; downBuffer := 0.02;
     requireDownFrames := 8; requireUpFrames := 5;
     phase := "up"; _downCounter := 0; _upCounter := 0 |}.

(** [init id]; [el] is what [document.getElementById] returned. *)
Definition init (fb : t) (el : option Element) : t :=
  mk el (currentFeedback fb) (lastFeedbackTime fb) (feedbackCooldown fb)
     (angleTolerance fb) (level fb) (levels fb) (calib fb) (targetY fb)
     (neutralY fb) (downBuffer fb) (requireDownFrames fb) (requireUpFrames fb)
     (phase fb) (_downCounter fb) (_upCounter fb).

Definition set_downCounter (n : nat) (fb : t) : t :=
  mk (feedbackElement fb) (currentFeedback fb) (lastFeedbackTime fb)
     (feedbackCooldown fb) (angleTolerance fb) (level fb) (levels fb) (calib fb)
     (targetY fb) (neutralY fb) (downBuffer fb) (requireDownFrames fb)
     (requireUpFrames fb) (phase fb) n (_upCounter fb).

Definition set_upCounter (n : nat) (fb : t) : t :=
  mk (feedbackElement fb) (currentFeedback fb) (lastFeedbackTime fb)
     (feedbackCooldown fb) (angleTolerance fb) (level fb) (levels fb) (calib fb)
     (targetY fb) (neutralY fb) (downBuffer fb) (requireDownFrames fb)
     (requireUpFrames fb) (phase fb) (_downCounter fb) n.

(** [_safeNum v fallback] *)
Definition _safeNum (v : option Qc) (fallback : Qc) : Qc :=
  match v with Some q => q | None => fallback end.

(** [_lerp a b t] *)
Definition _lerp (a b t : Qc) : Qc := a + (b - a) * Qcmax 0 (Qcmin 1 t).

(** [Number(v) || d]: [NaN] ([None]) and [0] give [d]. *)
Definition num_or (v : option Qc) (d : Qc) : Qc :=
  match v with
  | Some q => if Qceq_bool q 0 then d else q
  | None => d
  end.

(** [this.calib?.rom?.f] *)
Definition rom_field (c : option Stored.t) (f : Stored.Rom -> option Qc) : option Qc :=
  match c with
  | Some s => match Stored.rom s with Some r => f r | None => None end
  | None => None
  end.

(** [setLevel level levels calib]; [lvl] and [lvls] are [Number(level)] and
    [Number(levels)] when these are finite numbers, and [None] when they
    are [NaN].  An infinite level or number of levels is outside this
    definition: there the code stores [Infinity] and a [NaN] target, which
    [Double.targetY] computes. *)
Definition setLevel (fb : t) (lvl lvls : option Qc) (c : option Stored.t) : t :=
  let level' := Qcmax 1 (num_or lvl 1) in
  let levels' := Qcmax level' (num_or lvls level') in
  let calib' := match c with Some _ => c | None => calib fb end in
  let neutral := _safeNum (rom_field calib' Stored.neutralY) 0.78 in
  let maxYL := _safeNum (rom_field calib' Stored.maxReachLeftY) 0.18 in
  let maxYR := _safeNum (rom_field calib' Stored.maxReachRightY) 0.18 in
  let maxY := Qcmin maxYL maxYR in
  let t := (level' - 1) / Qcmax 1 (levels' - 1) in
  let frac := 0.15 + 0.50 * t in
  mk (feedbackElement fb) (currentFeedback fb) (lastFeedbackTime fb)
     (feedbackCooldown fb) (angleTolerance fb) level' levels' calib'
     (_lerp neutral maxY frac) neutral (downBuffer fb) (requireDownFrames fb)
     (requireUpFrames fb) (phase fb) (_downCounter fb) (_upCounter fb).

(** [setPhase phase] *)
Definition setPhase (fb : t) (ph : string) : t :=
  if String.eqb ph "up" || String.eqb ph "waitDown" then
    mk (feedbackElement fb) (currentFeedback fb) (lastFeedbackTime fb)
       (feedbackCooldown fb) (angleTolerance fb) (level fb) (levels fb) (calib fb)
       (targetY fb) (neutralY fb) (downBuffer fb) (requireDownFrames fb)
       (requireUpFrames fb) ph 0%nat 0%nat
  else fb.

(** [isVisible landmark] with the default threshold [0.5] *)
Definition isVisible (landmark : option Point) : bool :=
  match landmark with
  | Some _ => Qclt_bool 0.5 (vis_or 0 landmark)
  | None => false
  end.

(** [showFeedback message type]; [now] is the value of [Date.now].  The
    timer that clears the element after [feedbackCooldown] runs outside the
    call and is not part of it. *)
Definition showFeedback (fb : t) (message type : string) (now : Qc) : t :=
  match feedbackElement fb with
  | None => fb
  | Some _ =>
      if String.eqb message "" then fb
      else if Qclt_bool (now - lastFeedbackTime fb) 500 then fb
      else
        mk (Some {| textContent := message;
                    className := "live-feedback-container " ++ type |})
           message now
           (feedbackCooldown fb) (angleTolerance fb) (level fb) (levels fb)
           (calib fb) (targetY fb) (neutralY fb) (downBuffer fb)
           (requireDownFrames fb) (requireUpFrames fb) (phase fb)
           (_downCounter fb) (_upCounter fb)
  end.

(** A call [showFeedback message type] made by a classifier. *)
Definition Call := (string * string)%type.

(** The classifier calls [showFeedback] at most once per frame; the model
    returns, with the object after the frame, the call that was made. *)
Definition say (fb : t) (message type : string) (now : Qc) : t * option Call :=
  (showFeedback fb message type now, Some (message, type)).

Section Angles.

(** [Math.atan2] and [Math.PI], as the platform computes them. *)
Variable atan2 : Qc -> Qc -> Qc.
Variable PI : Qc.

(** [calculateAngle a b c] *)
Definition calculateAngle (a b c : option Point) : option Qc :=
  match a, b, c with
  | Some a, Some b, Some c =>
      let radians := atan2 (y c - y b) (x c - x b) - atan2 (y a - y b) (x a - x b) in
      let angle := Qcabs (radians * 180 / PI) in
      Some (if Qclt_bool 180 angle then 360 - angle else angle)
  | _, _, _ => None
  end.

(** [a && a < 160] *)
Definition bent (a : option Qc) : bool :=
  match a with
  | Some v => negb (Qceq_bool v 0) && Qclt_bool v 160
  | None => false
  end.

(** The [waitDown] branch of [provideShoulderAbductionFeedback]. *)
Definition waitDown_branch (fb : t) (Lw Rw : Point) (now : Qc) : t * option Call :=
  let downLimitY := neutralY fb + downBuffer fb in
  let leftDown := Qcle_bool downLimitY (y Lw) in
  let rightDown := Qcle_bool downLimitY (y Rw) in
  let fb := set_downCounter (if leftDown && rightDown then S (_downCounter fb) else 0%nat) fb in
  if negb leftDown && negb rightDown then
    say fb "Lower both arms to reset" "correction" now
  else if negb leftDown then
    say fb "Lower your left arm to reset" "correction" now
  else if negb rightDown then
    say fb "Lower your right arm to reset" "correction" now
  else if (requireDownFrames fb <=? _downCounter fb)%nat then
    say fb "Great reset! Ready for the next rep" "success" now
  else (fb, None).

(** The [up] branch of [provideShoulderAbductionFeedback]. *)
Definition up_branch (fb : t) (leftUpEnough rightUpEnough : bool) (now : Qc)
    : t * option Call :=
  if negb leftUpEnough && negb rightUpEnough then
    let '(fb, c) := say fb "Raise both arms higher" "correction" now in
    (set_upCounter 0%nat fb, c)
  else if negb leftUpEnough then
    let '(fb, c) := say fb "Raise your left arm higher" "correction" now in
    (set_upCounter 0%nat fb, c)
  else if negb rightUpEnough then
    let '(fb, c) := say fb "Raise your right arm higher" "correction" now in
    (set_upCounter 0%nat fb, c)
  else
    let fb := set_upCounter (S (_upCounter fb)) fb in
    if (requireUpFrames fb <=? _upCounter fb)%nat then
      say fb "Nice height! Hold…" "success" now
    else (fb, None).

(** The height checks of [provideShoulderAbductionFeedback], from the
    comparison with [targetY] on. *)
Definition height_checks (fb : t) (Lw Rw : Point) (now : Qc) : t * option Call :=
  let leftUpEnough := Qcle_bool (y Lw) (targetY fb + 0.02) in
  let rightUpEnough := Qcle_bool (y Rw) (targetY fb + 0.02) in
  if String.eqb (phase fb) "waitDown" then waitDown_branch fb Lw Rw now
  else up_branch fb leftUpEnough rightUpEnough now.

(** [provideShoulderAbductionFeedback landmarks].  A landmark that passed
    [isVisible] is defined, so the [None] cases after a visibility test are
    never taken. *)
Definition provideShoulderAbductionFeedback (fb : t) (landmarks : option Landmarks)
    (now : Qc) : t * option Call :=
  match landmarks with
  | None => (fb, None)
  | Some lms =>
      let Ls := at_ lms 11 in let Rs := at_ lms 12 in
      let Le := at_ lms 13 in let Re := at_ lms 14 in
      let Lw := at_ lms 15 in let Rw := at_ lms 16 in
      if negb (isVisible Ls) || negb (isVisible Rs) then
        say fb "Keep both shoulders visible" "warning" now
      else
        match Ls, Rs with
        | Some ls, Some rs =>
            let shoulderDiff := Qcabs (y ls - y rs) in
            if Qclt_bool 0.05 shoulderDiff then
              say fb "Keep your shoulders level" "correction" now
            else if isVisible Le && isVisible Lw && bent (calculateAngle Ls Le Lw) then
              say fb "Straighten your left elbow" "correction" now
            else if isVisible Re && isVisible Rw && bent (calculateAngle Rs Re Rw) then
              say fb "Straighten your right elbow" "correction" now
            else if negb (isVisible Lw) || negb (isVisible Rw) then
              say fb "Keep your hands visible" "warning" now
            else
              match Lw, Rw with
              | Some lw, Some rw => height_checks fb lw rw now
              | _, _ => (fb, None)
              end
        | _, _ => (fb, None)
        end
  end.

(** A landmark that passes [isVisible], as a point. *)
Definition visible (landmark : option Point) : option Point :=
  if isVisible landmark then landmark else None.

(** [!a] on an angle: [null] and [0] are false values. *)
Definition no_angle (a : option Qc) : bool :=
  match a with
  | Some v => Qceq_bool v 0
  | None => true
  end.

(** [a && a < bound] *)
Definition below (a : option Qc) (bound : Qc) : bool :=
  match a with
  | Some v => negb (Qceq_bool v 0) && Qclt_bool v bound
  | None => false
  end.

(** [a < bound] for an angle that is a number *)
Definition less (a : option Qc) (bound : Qc) : bool :=
  match a with
  | Some v => Qclt_bool v bound
  | None => false
  end.

(** [a > bound] for an angle that is a number *)
Definition above (a : option Qc) (bound : Qc) : bool :=
  match a with
  | Some v => Qclt_bool bound v
  | None => false
  end.

(** [provideOverheadPressFeedback landmarks] *)
Definition provideOverheadPressFeedback (fb : t) (landmarks : option Landmarks)
    (now : Qc) : t * option Call :=
  match landmarks with
  | None => (fb, None)
  | Some lms =>
      let leftShoulder := at_ lms 11 in let rightShoulder := at_ lms 12 in
      let leftElbow := at_ lms 13 in let rightElbow := at_ lms 14 in
      let leftWrist := at_ lms 15 in let rightWrist := at_ lms 16 in
      if negb (isVisible leftShoulder) || negb (isVisible rightShoulder) then
        say fb "Keep both shoulders visible" "warning" now
      else
        let nose := at_ lms 0 in
        let elbows_and_success :=
          if isVisible leftElbow && isVisible leftWrist &&
             below (calculateAngle leftShoulder leftElbow leftWrist) 160
          then say fb "Extend your left arm fully" "correction" now
          else if isVisible rightElbow && isVisible rightWrist &&
                  below (calculateAngle rightShoulder rightElbow rightWrist) 160
          then say fb "Extend your right arm fully" "correction" now
          else
            match visible nose, visible leftWrist, visible rightWrist with
            | Some n, Some lw, Some rw =>
                let bothHandsUp := Qclt_bool (y lw) (y n - 0.1) &&
                                   Qclt_bool (y rw) (y n - 0.1) in
                if bothHandsUp then say fb "Great! Both hands are up!" "success" now
                else (fb, None)
            | _, _, _ => (fb, None)
            end in
        match visible nose, visible leftWrist, visible rightWrist with
        | Some n, Some lw, Some rw =>
            let leftWristAboveHead := Qclt_bool (y lw) (y n - 0.1) in
            let rightWristAboveHead := Qclt_bool (y rw) (y n - 0.1) in
            if negb leftWristAboveHead && negb rightWristAboveHead then
              say fb "Press both hands higher - above your head" "correction" now
            else if negb leftWristAboveHead then
              say fb "Press your left hand higher" "correction" now
            else if negb rightWristAboveHead then
              say fb "Press your right hand higher" "correction" now
            else elbows_and_success
        | _, _, _ => elbows_and_success
        end
  end.

(** [provideForwardReachFeedback landmarks] *)
Definition provideForwardReachFeedback (fb : t) (landmarks : option Landmarks)
    (now : Qc) : t * option Call :=
  match landmarks with
  | None => (fb, None)
  | Some lms =>
      let leftShoulder := at_ lms 11 in let rightShoulder := at_ lms 12 in
      let leftWrist := at_ lms 15 in let rightWrist := at_ lms 16 in
      match visible leftShoulder, visible rightShoulder with
      | Some ls, Some rs =>
          let level_and_success :=
            let shoulderDifference := Qcabs (y ls - y rs) in
            if Qclt_bool 0.05 shoulderDifference then
              say fb "Keep shoulders level while reaching" "correction" now
            else say fb "Good reach! Hold the position" "success" now in
          match visible leftWrist, visible rightWrist with
          | Some lw, Some rw =>
              let leftReaching := Qclt_bool (x lw) (x ls - 0.1) in
              let rightReaching := Qclt_bool (x rs + 0.1) (x rw) in
              if negb leftReaching && negb rightReaching then
                say fb "Reach forward with your arms" "correction" now
              else level_and_success
          | _, _ => level_and_success
          end
      | _, _ => say fb "Keep both shoulders visible" "warning" now
      end
  end.

(** [provideMiniSquatsFeedback landmarks] *)
Definition provideMiniSquatsFeedback (fb : t) (landmarks : option Landmarks)
    (now : Qc) : t * option Call :=
  match landmarks with
  | None => (fb, None)
  | Some lms =>
      let leftHip := at_ lms 23 in let rightHip := at_ lms 24 in
      let leftKnee := at_ lms 25 in let rightKnee := at_ lms 26 in
      let leftAnkle := at_ lms 27 in let rightAnkle := at_ lms 28 in
      match visible leftHip, visible rightHip, visible leftKnee,
            visible rightKnee, visible leftAnkle, visible rightAnkle with
      | Some lh, Some rh, Some lk, Some rk, Some la, Some ra =>
          let leftKneeAngle := calculateAngle leftHip leftKnee leftAnkle in
          let rightKneeAngle := calculateAngle rightHip rightKnee rightAnkle in
          if no_angle leftKneeAngle || no_angle rightKneeAngle then (fb, None)
          else
            let minSquatAngle : Qc := 140 in
            let maxSquatAngle : Qc := 170 in
            if above leftKneeAngle maxSquatAngle && above rightKneeAngle maxSquatAngle then
              say fb "Bend your knees more - mini squat down" "correction" now
            else if less leftKneeAngle minSquatAngle || less rightKneeAngle minSquatAngle then
              say fb "Don't squat too deep - keep it mini" "correction" now
            else
              let kneeAlignment := Qcabs (x lk - x la) + Qcabs (x rk - x ra) in
              if Qclt_bool 0.1 kneeAlignment then
                say fb "Keep knees aligned over your ankles" "correction" now
              else
                let leftHipKneeDistance := Qcabs (y lh - y lk) in
                let rightHipKneeDistance := Qcabs (y rh - y rk) in
                if Qclt_bool leftHipKneeDistance 0.1 || Qclt_bool rightHipKneeDistance 0.1
                then say fb "Perfect squat depth!" "success" now
                else (fb, None)
      | _, _, _, _, _, _ =>
          say fb "Show your full body - hips, knees, and ankles" "warning" now
      end
  end.

(** One more call [showFeedback message type] in a frame that may make
    several: the call is added to the log, and the clock is read anew;
    [now k] is the value of [Date.now] read by the call number [k] of the
    frame. *)
Definition tell (now : nat -> Qc) (s : t * list Call) (message type : string)
    : t * list Call :=
  (showFeedback (fst s) message type (now (List.length (snd s))),
   snd s ++ (message, type) :: nil).

(** [provideMarchingFeedback landmarks]: the object after the frame, the
    calls made in order, and whether the frame ended by throwing (reading
    [.x] of an undefined shoulder). *)
Definition provideMarchingFeedback (fb : t) (landmarks : option Landmarks)
    (now : nat -> Qc) : t * list Call * bool :=
  match landmarks with
  | None => (fb, nil, false)
  | Some lms =>
      let leftHip := at_ lms 23 in let rightHip := at_ lms 24 in
      let leftKnee := at_ lms 25 in let rightKnee := at_ lms 26 in
      let leftAnkle := at_ lms 27 in let rightAnkle := at_ lms 28 in
      match visible leftHip, visible rightHip, visible leftKnee, visible rightKnee with
      | Some lh, Some rh, Some lk, Some rk =>
          let leftKneeLifted := Qclt_bool (y lk) (y lh - 0.05) in
          let rightKneeLifted := Qclt_bool (y rk) (y rh - 0.05) in
          let leftKneeHeight := y lh - y lk in
          let rightKneeHeight := y rh - y rk in
          if negb leftKneeLifted && negb rightKneeLifted then
            (tell now (fb, nil) "Lift your knees higher - march in place" "correction", false)
          else if leftKneeLifted && Qclt_bool leftKneeHeight 0.08 then
            (tell now (fb, nil) "Lift your left knee higher" "correction", false)
          else if rightKneeLifted && Qclt_bool rightKneeHeight 0.08 then
            (tell now (fb, nil) "Lift your right knee higher" "correction", false)
          else
            let s := (fb, nil) in
            let s := if isVisible leftAnkle &&
                        below (calculateAngle leftHip leftKnee leftAnkle) 90 &&
                        leftKneeLifted
                     then tell now s "Good left knee lift!" "success" else s in
            let s := if isVisible rightAnkle &&
                        below (calculateAngle rightHip rightKnee rightAnkle) 90 &&
                        rightKneeLifted
                     then tell now s "Good right knee lift!" "success" else s in
            match at_ lms 11, at_ lms 12 with
            | Some s11, Some s12 =>
                let shoulderMidpoint_x := (x s11 + x s12) / 2 in
                let hipMidpoint_x := (x lh + x rh) / 2 in
                let posturalAlignment := Qcabs (shoulderMidpoint_x - hipMidpoint_x) in
                if Qclt_bool 0.05 posturalAlignment then
                  (tell now s "Stand up straight - align your body" "correction", false)
                else (s, false)
            | _, _ => (s, true)
            end
      | _, _, _, _ =>
          (tell now (fb, nil) "Show your full body for marching" "warning", false)
      end
  end.

(** The result of a classifier that makes at most one call, in the form
    of one that may make several. *)
Definition one_call (r : t * option Call) : t * list Call * bool :=
  (fst r, match snd r with Some c => c :: nil | None => nil end, false).

(** [provideFeedback exerciseCriteria landmarks]; a [null] criteria is
    [None], and the empty string is a false value too. *)
Definition provideFeedback (fb : t) (exerciseCriteria : option string)
    (landmarks : option Landmarks) (now : nat -> Qc) : t * list Call * bool :=
  match landmarks, exerciseCriteria with
  | Some lms, Some criteria =>
      if String.eqb criteria "" then (fb, nil, false)
      else if String.eqb criteria "shoulderAbduction" then
        one_call (provideShoulderAbductionFeedback fb landmarks (now 0%nat))
      else if String.eqb criteria "overheadPress" then
        one_call (provideOverheadPressFeedback fb landmarks (now 0%nat))
      else if String.eqb criteria "forwardReach" then
        one_call (provideForwardReachFeedback fb landmarks (now 0%nat))
      else if String.eqb criteria "miniSquats" then
        one_call (provideMiniSquatsFeedback fb landmarks (now 0%nat))
      else if String.eqb criteria "marchingInPlace" then
        provideMarchingFeedback fb landmarks now
      else if negb (isVisible (at_ lms 11)) || negb (isVisible (at_ lms 12)) then
        one_call (say fb "Keep your body visible" "warning" (now 0%nat))
      else (fb, nil, false)
  | _, _ => (fb, nil, false)
  end.

End Angles.

(** [clearFeedback()] *)
Definition clearFeedback (fb : t) : t :=
  mk (match feedbackElement fb with
      | Some _ => Some {| textContent := ""; className := "live-feedback-container" |}
      | None => None
      end)
     "" (lastFeedbackTime fb)
     (feedbackCooldown fb) (angleTolerance fb) (level fb) (levels fb)
     (calib fb) (targetY fb) (neutralY fb) (downBuffer fb)
     (requireDownFrames fb) (requireUpFrames fb) (phase fb) 0%nat 0%nat.

End LiveFeedback.

(** ** The same arithmetic in double precision

    The ladder of [create], the two rung searches and the arithmetic of
    [setLevel] once more, on IEEE binary64 numbers ([float]) with the
    operations and comparisons of the language: every operation rounds,
    [Infinity] and [NaN] are values, and a comparison with [NaN] is false. *)
Module Double.
Import PrimFloat.

(** A count or an index as a number. *)
Fixpoint of_nat (n : nat) : float :=
  match n with
  | O => 0%float
  | S k => (of_nat k + 1)%float
  end.

(** [yBottom - (i / (count - 1)) * (yBottom - yTop)] *)
Definition rungY (count : nat) (yTop yBottom : float) (i : nat) : float :=
  (yBottom - (of_nat i / (of_nat count - 1)) * (yBottom - yTop))%float.

(** The [yList] of [CalibAuto.create]. *)
Definition yList (count : nat) (yTop yBottom : float) : list float :=
  map (rungY count yTop yBottom) (seq 0 count).

(** One iteration of the loop of [_hitIndex]; [acc] is [(best, bestD2)]. *)
Definition hit_body (yl : list float) (px py laneX : float)
    (acc : option nat * float) (i : nat) : option nat * float :=
  let yy := nth i yl nan in
  let dx := (px - laneX)%float in
  let dy := (py - yy)%float in
  let d2 := (dx * dx + dy * dy)%float in
  if (d2 <? snd acc)%float then (Some i, d2) else acc.

(** [CalibAuto._hitIndex grid x y laneX], for a grid with the rung list
    [yl], [count] rungs and the radius [hitRadius]. *)
Definition _hitIndex (yl : list float) (count : nat) (hitRadius : float)
    (px py laneX : float) : option nat :=
  let '(best, bestD2) :=
    fold_left (hit_body yl px py laneX) (seq 0 count) (None, infinity) in
  if (sqrt bestD2 <=? hitRadius)%float
  then Some (match best with Some i => S i | None => 1%nat end)
  else None.

(** One iteration of the loop of [_nearestRung]; [acc] is [(best, bestAbs)]. *)
Definition nearest_body (yl : list float) (py : float)
    (acc : nat * float) (i : nat) : nat * float :=
  let d := abs (nth i yl nan - py)%float in
  if (d <? snd acc)%float then (S i, d) else acc.

(** [CalibAuto._nearestRung grid y] *)
Definition _nearestRung (yl : list float) (count : nat) (py : float) : nat :=
  fst (fold_left (nearest_body yl py) (seq 0 count) (1%nat, infinity)).

(** [Math.max a b] and [Math.min a b]: [NaN] when an argument is [NaN];
    of two zeros, the positive one is the larger. *)
Definition Math_max (a b : float) : float :=
  if is_nan a || is_nan b then nan
  else if (a <? b)%float then b
  else if (b <? a)%float then a
  else if is_zero a then (a + b)%float else a.

Definition Math_min (a b : float) : float :=
  if is_nan a || is_nan b then nan
  else if (a <? b)%float then a
  else if (b <? a)%float then b
  else if is_zero a then (- (- a + - b))%float else a.

(** [v || d] on numbers: [NaN] and the two zeros are false values. *)
Definition or_else (v d : float) : float :=
  if is_nan v || is_zero v then d else v.

(** [_lerp a b t] *)
Definition _lerp (a b t : float) : float :=
  (a + (b - a) * Math_max 0 (Math_min 1 t))%float.

(** The [targetY] that [setLevel] computes from [Number(level)],
    [Number(levels)], the neutral height and the two reach heights. *)
#[warnings="-inexact-float"] Definition targetY (level levels neutral maxYL maxYR : float) : float :=
  let level := Math_max 1 (or_else level 1) in
  let levels := Math_max level (or_else levels level) in
  let maxY := Math_min maxYL maxYR in
  let t := ((level - 1) / Math_max 1 (levels - 1))%float in
  let frac := (0.15 + 0.50 * t)%float in
  _lerp neutral maxY frac.

End Double.

(** * Notions used to state the properties *)

Import CalibAuto.

(** The parameters of a grid; [update] assigns none of them. *)
Definition conf (g : Grid) :=
  (count g, yList g, (yTop g, yBottom g), (leftX g, rightX g), hitRadius g,
   (holdSeconds g, kFrames g), (maxSpeedPerSec g, minVis g, needsHips g)).

(** The session fields that the tracking stage of [update] leaves alone. *)
Definition kept (g : Grid) :=
  (conf g, step g, (leftSaved g, rightSaved g), (_kOn g, _hold g, _candidate g),
   _rom g).

(** The accumulated hold time of a frame: the value of [grid._hold] when
    [update] reaches its completion test, [None] when the frame returns
    before that test. *)
Definition accumulated (g : Grid) (lm : option Landmarks) (m : bool) (now : Qc)
    : option Qc :=
  match upto_hold g lm m now with
  | Next g1 _ => Some (_hold g1)
  | Return _ _ => None
  end.

(** The frame passes the three preconditions of [update] and is tracked:
    the result of the tracking stage, [None] on an early exit. *)
Definition tracked (g : Grid) (lm : option Landmarks) (m : bool) (now : Qc)
    : option Tracked :=
  match lm with
  | Some l =>
      match at_ l 15, at_ l 16 with
      | Some p15, Some p16 =>
          if needsHips g && negb (hipsOK g l) then None
          else if negb (vOK g (Some p15)) || negb (vOK g (Some p16)) then None
          else
            let yH1 := clamp01 (option_map y (at_ l 23)) in
            let yH2 := clamp01 (option_map y (at_ l 24)) in
            Some (track (push_neutral (Qcmax yH1 yH2) g) p15 p16 m now)
      | _, _ => None
      end
  | None => None
  end.

(** The hand that a step calibrates: the left hand in step [left], the
    right hand otherwise; its smoothed point, its lane and its active rung. *)
Definition hand_point (side : Step.t) (g : Grid) : option Point :=
  if Step.eqb side Step.left then _sL g else _sR g.

Definition lane (side : Step.t) (g : Grid) : Qc :=
  if Step.eqb side Step.left then leftX g else rightX g.

Definition active_of (side : Step.t) (g : Grid) : option nat :=
  if Step.eqb side Step.left then leftActive g else rightActive g.


(** The point [p] is within [hitRadius] of the rung at height [yy] of the
    lane at [laneX], in Euclidean distance. *)
Definition within (g : Grid) (p : Point) (laneX yy : Qc) : bool :=
  sqrt_le (Math_sqrt ((x p - laneX) * (x p - laneX) + (y p - yy) * (y p - yy)))
          (hitRadius g).

(** The i-th rung (from 0) of the ladder is at height [yy]. *)
Definition rung_at (g : Grid) (i : nat) (yy : Qc) : Prop :=
  (i < count g)%nat /\ nth i (yList g) None = Some yy.

(** A rung index is [null] or an integer between 1 and [n]. *)
Definition in_range (n : nat) (r : option nat) : Prop :=
  match r with
  | None => True
  | Some k => (1 <= k <= n)%nat
  end.

(** The hip sample of a frame: one value when the frame has both hand
    landmarks and passes the hip gate, nothing otherwise. *)
Definition hip_samples (g : Grid) (lm : option Landmarks) : list Qc :=
  match lm with
  | Some l =>
      match at_ l 15, at_ l 16 with
      | Some _, Some _ =>
          if needsHips g && negb (hipsOK g l) then []
          else [Qcmax (clamp01 (option_map y (at_ l 23)))
                     (clamp01 (option_map y (at_ l 24)))]
      | _, _ => []
      end
  | None => []
  end.

(** The miss sample of a frame: the smoothed height of the hand being
    calibrated, when the frame is tracked and that hand is on no rung. *)
Definition miss_samples (g : Grid) (lm : option Landmarks) (m : bool) (now : Qc)
    : list Qc :=
  match tracked g lm m now with
  | Some tr => if falsy_rung (t_active tr) then [t_yHand tr] else []
  | None => []
  end.

(** ** Concrete frames *)

(** A frame with the two wrists and the two hips, the other landmarks
    undetected. *)
Definition pose (lw rw lh rh : option Point) : Landmarks :=
  repeat None 15 ++ [lw; rw] ++ repeat None 6 ++ [lh; rh] ++ repeat None 8.

Definition pt (px py v : Qc) : option Point :=
  Some {| x := px; y := py; visibility := Some v |}.

(** Both hands held on rung 5 of their lanes (the image is mirrored), hips
    visible. *)
Definition on_rung5 : Landmarks :=
  pose (pt 0.82 0.43 0.9) (pt 0.18 0.43 0.9) (pt 0.45 0.60 0.9) (pt 0.55 0.62 0.9).

(** The left hand displaced sideways by 0.07, still over rung 5. *)
Definition jerk5 : Landmarks :=
  pose (pt 0.75 0.43 0.9) (pt 0.18 0.43 0.9) (pt 0.45 0.60 0.9) (pt 0.55 0.62 0.9).

(** Both hands between the lanes, away from every rung. *)
Definition off_ladder : Landmarks :=
  pose (pt 0.50 0.50 0.9) (pt 0.50 0.50 0.9) (pt 0.45 0.60 0.9) (pt 0.55 0.62 0.9).

(** The left wrist is not detected. *)
Definition no_left_wrist : Landmarks :=
  pose None (pt 0.18 0.43 0.9) (pt 0.45 0.60 0.9) (pt 0.55 0.62 0.9).

Definition frame (lm : Landmarks) (now : Qc) : Frame :=
  {| f_lm := Some lm; f_mirror := true; f_now := now |}.

(** Six frames, 100 ms apart, with the hands still on rung 5. *)
Definition six_steady : list Frame :=
  map (fun t : Q => frame on_rung5 t) [1000; 1100; 1200; 1300; 1400; 1500].

Definition held6 : Grid := run (create defaults) six_steady.

(** Squared distance from the point [(px, py)] to the rung at height [yy]
    of the lane at [laneX]. *)
Definition d2 (px py laneX yy : Qc) : Qc :=
  (px - laneX) * (px - laneX) + (py - yy) * (py - yy).

(** The fields written by the tracking stage of [update] and by no later
    stage, with the parameters. *)
Definition tracked_part (g : Grid) :=
  (conf g, (_sL g, _sR g), (leftActive g, rightActive g),
   (_maxRungL g, _maxRungR g), (_minYLeft g, _minYRight g), _lastTs g).

(** The rung fields of a grid are all [null] or between 1 and [count]. *)
Definition rungs_in_range (g : Grid) : Prop :=
  in_range (count g) (leftActive g) /\ in_range (count g) (rightActive g) /\
  in_range (count g) (leftSaved g) /\ in_range (count g) (rightSaved g) /\
  in_range (count g) (_maxRungL g) /\ in_range (count g) (_maxRungR g).

(** The default parameters with a ladder of [n] rungs. *)
Definition with_count (n : nat) : Opts :=
  {| o_count := n; o_yTop := o_yTop defaults; o_yBottom := o_yBottom defaults;
     o_leftX := o_leftX defaults; o_rightX := o_rightX defaults;
     o_hitRadius := o_hitRadius defaults; o_holdSeconds := o_holdSeconds defaults;
     o_kFrames := o_kFrames defaults;
     o_maxSpeedPerSec := o_maxSpeedPerSec defaults; o_minVis := o_minVis defaults;
     o_needsHips := o_needsHips defaults;
     o_laneFollow := o_laneFollow defaults; o_laneAlpha := o_laneAlpha defaults;
     o_laneClamp := o_laneClamp defaults |}.

(** A step past [left] has its left rung saved, and [done] has both. *)
Definition saved_by_step (g : Grid) : Prop :=
  (step g = Step.right -> leftSaved g <> None) /\
  (step g = Step.done -> leftSaved g <> None /\ rightSaved g <> None).

(** A whole calibration on the page: the hands stay on rung 5 of both
    lanes; five frames 100 ms apart, then one 5.1 s later, for each hand. *)
Definition full_calibration : list Event :=
  [EStart true; EResults (Some on_rung5)] ++
  map (fun t : Q => EFrame t 1700000000000 3)
      [1000; 1100; 1200; 1300; 1400; 6500;
       6600; 6700; 6800; 6900; 7000; 12100].

(** ** Notions for the feedback classifier *)

(** A stored calibration with its three range-of-motion values. *)
Definition stored_rom (n l r : Qc) : option Stored.t :=
  Some {| Stored.rom := Some {| Stored.neutralY := Some n;
                                Stored.maxReachLeftY := Some l;
                                Stored.maxReachRightY := Some r |} |}.

(** The [targetY] that [setLevel] computes for level [L] of [N]. *)
Definition target_at (fb : LiveFeedback.t) (c : option Stored.t) (L N : Qc) : Qc :=
  LiveFeedback.targetY (LiveFeedback.setLevel fb (Some L) (Some N) c).

Section Feedback_notions.

Variable atan2 : Qc -> Qc -> Qc.
Variable PI : Qc.

(** The frame reaches the height checks of the shoulder-abduction
    feedback: no earlier check of the cascade (shoulders visible and level,
    elbows straight, wrists visible) stops it.  The result is the two
    wrists. *)
Definition reaches_height (landmarks : option Landmarks) : option (Point * Point) :=
  match landmarks with
  | None => None
  | Some lms =>
      let Ls := at_ lms 11 in let Rs := at_ lms 12 in
      let Le := at_ lms 13 in let Re := at_ lms 14 in
      let Lw := at_ lms 15 in let Rw := at_ lms 16 in
      if negb (LiveFeedback.isVisible Ls) || negb (LiveFeedback.isVisible Rs) then None
      else
        match Ls, Rs with
        | Some ls, Some rs =>
            if Qclt_bool 0.05 (Qcabs (y ls - y rs)) then None
            else if LiveFeedback.isVisible Le && LiveFeedback.isVisible Lw &&
                    LiveFeedback.bent (LiveFeedback.calculateAngle atan2 PI Ls Le Lw)
            then None
            else if LiveFeedback.isVisible Re && LiveFeedback.isVisible Rw &&
                    LiveFeedback.bent (LiveFeedback.calculateAngle atan2 PI Rs Re Rw)
            then None
            else if negb (LiveFeedback.isVisible Lw) || negb (LiveFeedback.isVisible Rw)
            then None
            else
              match Lw, Rw with
              | Some lw, Some rw => Some (lw, rw)
              | _, _ => None
              end
        | _, _ => None
        end
  end.

(** A wrist is high enough: [wrist.y <= targetY + 0.02]. *)
Definition up_enough (fb : LiveFeedback.t) (w : Point) : bool :=
  Qcle_bool (y w) (LiveFeedback.targetY fb + 0.02).

(** A frame of the feedback: the landmarks and the value of [Date.now]. *)
Definition FbFrame := (option Landmarks * Qc)%type.

Definition fb_step (fb : LiveFeedback.t) (f : FbFrame) : LiveFeedback.t :=
  fst (LiveFeedback.provideShoulderAbductionFeedback atan2 PI fb (fst f) (snd f)).

Definition fb_run (fb : LiveFeedback.t) (fs : list FbFrame) : LiveFeedback.t :=
  fold_left fb_step fs fb.

(** The frames of a run that reach the height checks, each with whether
    both wrists are high enough for the target of [fb]. *)
Definition height_results (fb : LiveFeedback.t) (fs : list FbFrame) : list bool :=
  flat_map (fun f => match reaches_height (fst f) with
                     | Some (lw, rw) => (up_enough fb lw && up_enough fb rw) :: nil
                     | None => nil
                     end) fs.

End Feedback_notions.

(** The success cue of the [up] phase. *)
Definition nice_height : LiveFeedback.Call := ("Nice height! Hold…"%string, "success"%string).

(** Number of [true] at the end of a list. *)
Definition trailing_true (l : list bool) : nat :=
  fold_left (fun c (b : bool) => if b then S c else 0%nat) l 0%nat.

(** A frame with the shoulders and the wrists, the other landmarks
    undetected. *)
Definition upper_body (ls rs lw rw : option Point) : Landmarks :=
  repeat None 11 ++ [ls; rs; None; None; lw; rw] ++ repeat None 17.

(** Shoulders level and visible, both wrists above the default target. *)
Definition arms_up : Landmarks :=
  upper_body (pt 0.40 0.30 0.9) (pt 0.60 0.30 0.9) (pt 0.20 0.50 0.9) (pt 0.80 0.50 0.9).

(** The shoulders are not visible and the left wrist hangs low. *)
Definition shoulders_hidden_arm_down : Landmarks :=
  upper_body (pt 0.40 0.30 0.2) (pt 0.60 0.30 0.2) (pt 0.20 0.90 0.9) (pt 0.80 0.50 0.9).

(** Four frames with the arms up, one with the shoulders hidden and the
    left arm down, then one more with the arms up. *)
Definition up_hidden_up : list FbFrame :=
  [(Some arms_up, Q2Qc 1000); (Some arms_up, Q2Qc 1100); (Some arms_up, Q2Qc 1200);
   (Some arms_up, Q2Qc 1300); (Some shoulders_hidden_arm_down, Q2Qc 1400)].

(** A feedback object with its element, in phase [up]. *)
Definition fb0 : LiveFeedback.t :=
  LiveFeedback.init LiveFeedback.constructor
    (Some {| LiveFeedback.textContent := ""; LiveFeedback.className := "" |}).

(** Stand-ins for [Math.atan2] and [Math.PI] where no angle is computed. *)
Definition no_atan2 (a b : Qc) : Qc := 0.
Definition no_PI : Qc := 1.

(** What the classifiers read of the feedback object without writing it. *)
Definition thresholds (fb : LiveFeedback.t) :=
  (LiveFeedback.targetY fb, LiveFeedback.neutralY fb, LiveFeedback.downBuffer fb,
   (LiveFeedback.requireDownFrames fb, LiveFeedback.requireUpFrames fb),
   LiveFeedback.phase fb).

(** The correction of the [up] phase for wrists that are not both high
    enough. *)
Definition raise_message (leftUp rightUp : bool) : string :=
  if negb leftUp && negb rightUp then "Raise both arms higher"
  else if negb leftUp then "Raise your left arm higher"
  else "Raise your right arm higher".

(** ** Notions for further properties *)

(** A coordinate or a probability: a number between 0 and 1. *)
Definition unit (q : Qc) : Prop := 0 <= q /\ q <= 1.

(** A point of the unit square. *)
Definition in_unit_square (p : Point) : Prop := unit (x p) /\ unit (y p).

(** Both smoothed points, both reach extremes and every sample of the
    neutral pool are within [0, 1]. *)
Definition normalized (g : Grid) : Prop :=
  (forall p, _sL g = Some p -> in_unit_square p) /\
  (forall p, _sR g = Some p -> in_unit_square p) /\
  unit (_minYLeft g) /\ unit (_minYRight g) /\
  Forall unit (neutralSamples (_rom g)).

(** Number of resets among the events of the page. *)
Definition resets (es : list Event) : nat :=
  List.length (filter (fun e => match e with EReset => true | _ => false end) es).

(** The hands on rung 5 but the hips hidden. *)
Definition hips_hidden : Landmarks :=
  pose (pt 0.82 0.43 0.9) (pt 0.18 0.43 0.9) (pt 0.45 0.60 0.1) (pt 0.55 0.62 0.1).

(** The [dt] of a tracked frame: the seconds since the previous tracked
    frame, 0 for the first one. *)
Definition elapsed (g : Grid) (now : Qc) : Qc :=
  if truthy_ts (_lastTs g)
  then (now - match _lastTs g with Some v => v | None => 0 end) / 1000
  else 0.

(** The smaller of a reach extreme and a new height, as line 66 takes it. *)
Definition lower (py minY : Qc) : Qc := if Qclt_bool py minY then py else minY.

(** The reach extreme of the hand of a step. *)
Definition reach_of (side : Step.t) (g : Grid) : Qc :=
  if Step.eqb side Step.left then _minYLeft g else _minYRight g.

(** Each reach extreme is at or above its smoothed point. *)
Definition covers (g : Grid) : Prop :=
  forall side p, hand_point side g = Some p -> reach_of side g <= y p.

(** Both hands held on rung 6 of their lanes, hips visible. *)
Definition on_rung6 : Landmarks :=
  pose (pt 0.82 0.33 0.9) (pt 0.18 0.33 0.9) (pt 0.45 0.60 0.9) (pt 0.55 0.62 0.9).

(** Twelve frames with both hands on rung 5: each hand is held for six
    frames, the last of them 5.1 s after the one before. *)
Definition calibration_frames : list Frame :=
  map (fun t : Q => frame on_rung5 t)
      [1000; 1100; 1200; 1300; 1400; 6500;
       6600; 6700; 6800; 6900; 7000; 12100].

(** A grid calibrated with both hands on rung 5. *)
Definition calibrated : Grid := run (create defaults) calibration_frames.

(** The saves a page can still make: one if it has not saved yet, and one
    more for each reset to come. *)
Definition budget (p : Page) (es : list Event) : nat :=
  (if savedOnce p then 0 else 1) + resets es.

(** The reach height [setLevel] aims at: the smaller of the two stored
    reach heights, each 0.18 when it is not stored. *)
Definition reach_goal (c : option Stored.t) : Qc :=
  Qcmin (LiveFeedback._safeNum (LiveFeedback.rom_field c Stored.maxReachLeftY) 0.18)
        (LiveFeedback._safeNum (LiveFeedback.rom_field c Stored.maxReachRightY) 0.18).

(** A call of [showFeedback]: the message, the type and the value of
    [Date.now] it reads. *)
Definition Said := (string * string * Qc)%type.

Definition show (fb : LiveFeedback.t) (c : Said) : LiveFeedback.t :=
  LiveFeedback.showFeedback fb (fst (fst c)) (snd (fst c)) (snd c).

(** The call passes the two guards of [showFeedback] and is displayed. *)
Definition displayed (fb : LiveFeedback.t) (c : Said) : bool :=
  match LiveFeedback.feedbackElement fb with
  | Some _ =>
      negb (String.eqb (fst (fst c)) "") &&
      negb (Qclt_bool (snd c - LiveFeedback.lastFeedbackTime fb) 500)
  | None => false
  end.

(** The calls of a sequence that are displayed. *)
Fixpoint shown (fb : LiveFeedback.t) (calls : list Said) : list Said :=
  match calls with
  | [] => []
  | c :: cs => (if displayed fb c then [c] else []) ++ shown (show fb c) cs
  end.

(** Each time of the list is at least 500 after the one before, the first
    one at least 500 after [t]. *)
Fixpoint spaced (t : Qc) (l : list Qc) : Prop :=
  match l with
  | [] => True
  | t1 :: l' => t + 500 <= t1 /\ spaced t1 l'
  end.

(** A coarse [Math.atan2], exact on the axes and the diagonals, with
    [355/113] for [Math.PI]. *)
Definition coarse_PI : Qc := Q2Qc (355 # 113).

Definition coarse_atan2 (py px : Qc) : Qc :=
  if Qclt_bool 0 py then
    (if Qclt_bool 0 px then coarse_PI / 4
     else if Qclt_bool px 0 then 3 * coarse_PI / 4 else coarse_PI / 2)
  else if Qclt_bool py 0 then
    (if Qclt_bool 0 px then - (coarse_PI / 4)
     else if Qclt_bool px 0 then - (3 * coarse_PI / 4) else - (coarse_PI / 2))
  else if Qclt_bool px 0 then coarse_PI else 0.

(** A point seen with certainty. *)
Definition seen (px py : Qc) : option Point := pt px py 1.

(** A wrist is down: at or below the neutral height plus the buffer. *)
Definition down_enough (fb : LiveFeedback.t) (w : Point) : bool :=
  Qcle_bool (LiveFeedback.neutralY fb + LiveFeedback.downBuffer fb) (y w).

(** The correction of the [waitDown] phase for wrists that are not both
    down. *)
Definition lower_message (leftDown rightDown : bool) : string :=
  if negb leftDown && negb rightDown then "Lower both arms to reset"
  else if negb leftDown then "Lower your left arm to reset"
  else "Lower your right arm to reset".

Definition great_reset : LiveFeedback.Call :=
  ("Great reset! Ready for the next rep"%string, "success"%string).

(** Shoulders level and visible, both wrists hanging low. *)
Definition arms_down : Landmarks :=
  upper_body (pt 0.40 0.30 0.9) (pt 0.60 0.30 0.9) (pt 0.35 0.90 0.9) (pt 0.65 0.90 0.9).

(** A feedback object waiting for the arms to come down, seven frames
    into the wait. *)
Definition fb_waiting : LiveFeedback.t :=
  LiveFeedback.set_downCounter 7 (LiveFeedback.setPhase fb0 "waitDown").

(** The three kinds of message of the feedback. *)
Definition severity (ty : string) : bool :=
  String.eqb ty "warning" || String.eqb ty "correction" || String.eqb ty "success".

(** Everything of the feedback object but the display and the counters. *)
Definition settings (fb : LiveFeedback.t) :=
  (LiveFeedback.feedbackCooldown fb, LiveFeedback.angleTolerance fb,
   (LiveFeedback.level fb, LiveFeedback.levels fb, LiveFeedback.calib fb),
   thresholds fb).

Definition counters (fb : LiveFeedback.t) :=
  (LiveFeedback._upCounter fb, LiveFeedback._downCounter fb).

(** A classifier result that kept the settings and made at most one call,
    of a known kind. *)
Definition mild (fb : LiveFeedback.t) (r : LiveFeedback.t * option LiveFeedback.Call)
    : Prop :=
  settings (fst r) = settings fb /\
  match snd r with
  | Some c => severity (snd c) = true
  | None => True
  end.

(** The same, with the counters kept too and the object unchanged when no
    call is made. *)
Definition tame (fb : LiveFeedback.t) (r : LiveFeedback.t * option LiveFeedback.Call)
    : Prop :=
  settings (fst r) = settings fb /\ counters (fst r) = counters fb /\
  match snd r with
  | Some c => severity (snd c) = true
  | None => fst r = fb
  end.

(** A state of a frame that makes several calls: at most [n] calls so far,
    each of a known kind. *)
Definition tame_calls (fb : LiveFeedback.t) (n : nat)
    (s : LiveFeedback.t * list LiveFeedback.Call) : Prop :=
  settings (fst s) = settings fb /\ counters (fst s) = counters fb /\
  Forall (fun c => severity (snd c) = true) (snd s) /\
  (List.length (snd s) <= n)%nat /\
  (snd s = [] -> fst s = fb).

Definition good_reach : LiveFeedback.Call :=
  ("Good reach! Hold the position"%string, "success"%string).

Definition hands_up : LiveFeedback.Call :=
  ("Great! Both hands are up!"%string, "success"%string).

(** Of the calls of a frame only the first is displayed: the object after
    the frame is the object as that call leaves it (when it is displayed),
    and the object as it was when no call was made. *)
Definition shows_first_only (fb : LiveFeedback.t) (now : nat -> Qc)
    (s : LiveFeedback.t * list LiveFeedback.Call) : Prop :=
  match snd s with
  | [] => fst s = fb
  | c :: _ =>
      displayed fb (c, now 0%nat) = true -> fst s = show fb (c, now 0%nat)
  end.

(** A marching pose: the left knee is lifted and bent, the right leg
    stands, and the shoulders are off the line of the hips. *)
Definition marching_pose : Landmarks :=
  repeat None 11 ++ [seen 0.30 0.20; seen 0.50 0.20] ++ repeat None 10 ++
  [seen 0.50 0.50; seen 0.60 0.50; seen 0.45 0.40; seen 0.60 0.70;
   seen 0.45 0.70; seen 0.60 0.90] ++ repeat None 4.

(** A clock that does not advance within a frame. *)
Definition still_clock (t : Qc) (k : nat) : Qc := t.

(** The page one frame before the end of a calibration on rung 5. *)
Definition almost_calibrated : Page :=
  run_page page0 (removelast full_calibration).

(** The record as the feedback reads it back from storage: the three
    range-of-motion numbers of the payload. *)
Definition read_back (rec : Payload.t) : option Stored.t :=
  stored_rom (Payload.neutralY (Payload.rom rec))
             (Payload.maxReachLeftY (Payload.rom rec))
             (Payload.maxReachRightY (Payload.rom rec)).

Definition perfect_depth : LiveFeedback.Call :=
  ("Perfect squat depth!"%string, "success"%string).

(** ** Rounding *)

(** The code computes in double precision and compares the rounded values.
    A statement about the exact distances and times keeps this margin from
    a threshold: what is at least [tol] away from it is decided as stated,
    on the screen, where rounding errors are many orders smaller. *)
Definition tol : Qc := Q2Qc (1 # 1000000).



(** The square of the distance from the previous smoothed point [p] of a
    hand to its current unsmoothed point [w]. *)
Definition moved2 (p w : Point) : Qc :=
  (x p - x w) * (x p - x w) + (y p - y w) * (y p - y w).

(** The unsmoothed point of the hand of a step on a frame: the wrist
    landmark of that hand, normalised. *)
Definition wrist (side : Step.t) (m : bool) (p15 p16 : Point) : Point :=
  nrm m (if Step.eqb side Step.left then p15 else p16).

(** The steady-frame count and the hold timer that a frame with the active
    rung [a] starts from: those of the grid when [a] is the candidate, zero
    when it is another rung. *)
Definition count_before (g : Grid) (a : option nat) : nat :=
  if rung_neq (_candidate g) a then 0%nat else _kOn g.

Definition timer_before (g : Grid) (a : option nat) : Qc :=
  if rung_neq (_candidate g) a then 0 else _hold g.

(** The hold time a frame with the active rung [a] leaves when it
    accrues: the timer it starts from and the time elapsed. *)
Definition hold_after (g : Grid) (a : option nat) (now : Qc) : Qc :=
  timer_before g a + elapsed g now.

(** The calls of a frame with the value of [Date.now] each one reads:
    [now k] for the call number [k], counted from [k0]. *)
Fixpoint timed_from (now : nat -> Qc) (k0 : nat) (calls : list LiveFeedback.Call)
    : list Said :=
  match calls with
  | [] => []
  | c :: cs => (c, now k0) :: timed_from now (S k0) cs
  end.

Definition timed (now : nat -> Qc) (calls : list LiveFeedback.Call) : list Said :=
  timed_from now 0 calls.

(** The object after a frame is the object its calls leave, made in order,
    each at the time it reads. *)
Definition replays (fb : LiveFeedback.t) (now : nat -> Qc)
    (s : LiveFeedback.t * list LiveFeedback.Call) : Prop :=
  fst s = fold_left show (timed now (snd s)) fb.

(** ** A tie in double precision *)

(** A ladder of eight rungs between 0 and 0.25 and a point beside the left
    lane, about half way between the heights of rungs 2 and 3. *)
Module Tie.
Import PrimFloat.
#[warnings="-inexact-float"] Definition px : float := 0.26702065123982044.
#[warnings="-inexact-float"] Definition py : float := 0.19642857142857142.
#[warnings="-inexact-float"] Definition leftX : float := 0.18.
#[warnings="-inexact-float"] Definition hitRadius : float := 0.12.

End Tie.

(** A level of [Infinity] with three levels, for a calibration with the
    neutral height 0.8 and the reach heights 0.2 and 0.3. *)
Module Unbounded.
Import PrimFloat.
#[warnings="-inexact-float"] Definition target : float := Double.targetY infinity 3 0.8 0.2 0.3.
End Unbounded.

(** * Properties *)

Arguments _hitIndex : simpl never.
Arguments _nearestRung : simpl never.
Arguments V2.ema : simpl never.
Arguments speed : simpl never.
Arguments speed_le : simpl never.
Arguments clamp01 : simpl never.
Arguments Qcmax : simpl never.
Arguments Qcmin : simpl never.
Arguments Qcle_bool : simpl never.
Arguments Qclt_bool : simpl never.
Arguments Qceq_bool : simpl never.

(** Reduction of the assignments and projections of a grid. *)
Ltac grid_red :=
  cbv beta iota zeta delta
    [set_step set_leftActive set_rightActive set_leftSaved set_rightSaved
     set_lastTs set_sL set_sR set_kOn set_hold set_candidate set_rom
     set_maxRungL set_maxRungR set_minYLeft set_minYRight push_neutral
     count yTop yBottom leftX rightX hitRadius yList holdSeconds kFrames
     maxSpeedPerSec minVis needsHips laneFollow laneAlpha laneClamp
     step leftActive rightActive leftSaved rightSaved _lastTs _sL _sR
     _kOn _hold _candidate _rom _maxRungL _maxRungR _minYLeft _minYRight
     t_grid t_side t_active t_spd t_yHand t_dt
     neutralSamples maxReachLeft maxReachRight fst snd].

Ltac grid_red_in H :=
  cbv beta iota zeta delta
    [set_step set_leftActive set_rightActive set_leftSaved set_rightSaved
     set_lastTs set_sL set_sR set_kOn set_hold set_candidate set_rom
     set_maxRungL set_maxRungR set_minYLeft set_minYRight push_neutral
     count yTop yBottom leftX rightX hitRadius yList holdSeconds kFrames
     maxSpeedPerSec minVis needsHips laneFollow laneAlpha laneClamp
     step leftActive rightActive leftSaved rightSaved _lastTs _sL _sR
     _kOn _hold _candidate _rom _maxRungL _maxRungR _minYLeft _minYRight
     t_grid t_side t_active t_spd t_yHand t_dt
     neutralSamples maxReachLeft maxReachRight fst snd] in H.

Ltac split_ifs :=
  repeat match goal with
         | |- context [if ?c then _ else _] => destruct c eqn:?
         end.

(** ** Stage lemmas for [update] *)

Lemma kept_smooth (g : Grid) wL wR now : kept (smooth g wL wR now) = kept g.
Proof. reflexivity. Qed.

Lemma kept_hit_test (g : Grid) sL sR : kept (hit_test g sL sR) = kept g.
Proof. reflexivity. Qed.

Lemma kept_reach (g : Grid) sL sR : kept (reach g sL sR) = kept g.
Proof.
  unfold reach.
  destruct (Qclt_bool (y sL) (_minYLeft g));
    match goal with |- context [if ?c then _ else _] => destruct c end;
    reflexivity.
Qed.

(** What tracking leaves alone, and how it picks the hand. *)
Lemma track_facts (g : Grid) (p15 p16 : Point) (m : bool) (now : Qc) :
  let tr := track g p15 p16 m now in
  let g' := t_grid tr in
  kept g' = kept g /\
  t_side tr = step g /\
  t_active tr = (if Step.eqb (step g) Step.left then leftActive g' else rightActive g').
Proof.
  unfold track. cbv beta iota zeta delta [t_grid t_side t_active].
  match goal with |- context [reach ?a ?b ?c] => set (g1 := reach a b c) end.
  assert (Hk : kept g1 = kept g).
  { unfold g1. now rewrite kept_reach, kept_hit_test, kept_smooth. }
  clearbody g1.
  assert (Hs : step g1 = step g) by (unfold kept in Hk; congruence).
  split; [exact Hk|]. split; [exact Hs|].
  rewrite Hs. reflexivity.
Qed.

(** The speed and the height that tracking reports are those of the hand
    picked by the step. *)
Lemma track_hand (g : Grid) (p15 p16 : Point) (m : bool) (now : Qc) :
  let tr := track g p15 p16 m now in
  t_spd tr =
    (if Step.eqb (step g) Step.left
     then speed (_sL g) (nrm m p15) (t_dt tr)
     else speed (_sR g) (nrm m p16) (t_dt tr)) /\
  (exists p, hand_point (step g) (t_grid tr) = Some p /\ t_yHand tr = y p).
Proof.
  unfold track. cbv beta iota zeta delta [t_grid t_spd t_dt t_yHand].
  match goal with |- context [reach ?a ?b ?c] => set (g1 := reach a b c) end.
  assert (Hk : kept g1 = kept g).
  { unfold g1. now rewrite kept_reach, kept_hit_test, kept_smooth. }
  assert (Hs : step g1 = step g) by (unfold kept in Hk; congruence).
  assert (HL : _sL g1 = V2.ema (_sL g) (Some (nrm m p15)) 0.35).
  { unfold g1, reach. split_ifs; reflexivity. }
  assert (HR : _sR g1 = V2.ema (_sR g) (Some (nrm m p16)) 0.35).
  { unfold g1, reach. split_ifs; reflexivity. }
  clearbody g1. rewrite Hs. split; [reflexivity|].
  unfold hand_point. rewrite HL, HR.
  change (_sL (smooth g (nrm m p15) (nrm m p16) now))
    with (V2.ema (_sL g) (Some (nrm m p15)) 0.35).
  change (_sR (smooth g (nrm m p15) (nrm m p16) now))
    with (V2.ema (_sR g) (Some (nrm m p16)) 0.35).
  destruct (Step.eqb (step g) Step.left).
  - unfold V2.ema. destruct (_sL g); eexists; split; reflexivity.
  - unfold V2.ema. destruct (_sR g); eexists; split; reflexivity.
Qed.

Lemma kept_fields (g g' : Grid) :
  kept g' = kept g ->
  conf g' = conf g /\ step g' = step g /\ leftSaved g' = leftSaved g /\
  rightSaved g' = rightSaved g /\ _kOn g' = _kOn g /\ _hold g' = _hold g /\
  _candidate g' = _candidate g /\ _rom g' = _rom g.
Proof. unfold kept. intros H. repeat split; congruence. Qed.

(** A rung that is not a false value is a positive index. *)
Lemma falsy_rung_false (a : option nat) :
  falsy_rung a = false -> exists k, a = Some (S k).
Proof.
  destruct a as [[|k]|]; simpl; try discriminate; eauto.
Qed.

Lemma clamp_zero : Qcmax 0 (Qcmin 1 0) = 0.
Proof. vm_compute. reflexivity. Qed.

Lemma rung_neq_false (a b : option nat) : rung_neq a b = false -> a = b.
Proof.
  destruct a as [m|], b as [n|]; simpl; try discriminate; try reflexivity.
  intros H. apply negb_false_iff, Nat.eqb_eq in H. now subst.
Qed.

Lemma step_eqb_left (s : Step.t) : Step.eqb s Step.left = true <-> s = Step.left.
Proof. destruct s; simpl; split; intros H; try discriminate; reflexivity. Qed.

(** The steadiness stage: a miss returns with zero progress; a hit goes on
    with the active rung as candidate, a positive index. *)
Lemma steadiness_cases (tr : Tracked) :
  match steadiness tr with
  | Return g1 s =>
      conf g1 = conf (t_grid tr) /\ step g1 = step (t_grid tr) /\
      leftSaved g1 = leftSaved (t_grid tr) /\
      rightSaved g1 = rightSaved (t_grid tr) /\
      Status.saved s = false /\ Status.progress s = 0 /\
      Status.step s = step (t_grid tr)
  | Next g1 side =>
      conf g1 = conf (t_grid tr) /\ step g1 = step (t_grid tr) /\
      side = t_side tr /\
      leftSaved g1 = leftSaved (t_grid tr) /\
      rightSaved g1 = rightSaved (t_grid tr) /\
      leftActive g1 = leftActive (t_grid tr) /\
      rightActive g1 = rightActive (t_grid tr) /\
      (exists k, _candidate g1 = Some (S k)) /\
      _candidate g1 = t_active tr
  end.
Proof.
  unfold steadiness.
  destruct (falsy_rung (t_active tr)) eqn:Hf.
  - cbv beta iota zeta. repeat split.
  - apply falsy_rung_false in Hf. destruct Hf as [k Hk].
    cbv beta iota zeta.
    destruct (rung_neq (_candidate (t_grid tr)) (t_active tr)) eqn:Hn.
    + split_ifs; repeat split; try (exists k; exact Hk).
    + apply rung_neq_false in Hn.
      split_ifs; repeat split; try (exists k; rewrite <- Hk; exact Hn); exact Hn.
Qed.

(** The part of [update] before the completion test, in both outcomes. *)
Lemma upto_hold_cases (g : Grid) lm m now :
  match upto_hold g lm m now with
  | Return g1 s =>
      conf g1 = conf g /\ step g1 = step g /\
      leftSaved g1 = leftSaved g /\ rightSaved g1 = rightSaved g /\
      Status.saved s = false /\ Status.progress s = 0 /\
      Status.step s = step g
  | Next g1 side =>
      conf g1 = conf g /\ step g1 = step g /\ side = step g /\
      leftSaved g1 = leftSaved g /\ rightSaved g1 = rightSaved g /\
      (exists k, _candidate g1 = Some (S k)) /\
      _candidate g1 =
        (if Step.eqb (step g) Step.left then leftActive g1 else rightActive g1)
  end.
Proof.
  unfold upto_hold.
  destruct lm as [l|]; [|cbv beta iota zeta; repeat split].
  destruct (at_ l 15) as [p15|]; [|cbv beta iota zeta; repeat split].
  destruct (at_ l 16) as [p16|]; [|cbv beta iota zeta; repeat split].
  destruct (needsHips g && negb (hipsOK g l)); [cbv beta iota zeta; repeat split|].
  cbv beta zeta.
  match goal with |- context [push_neutral ?v g] => set (g0 := push_neutral v g) end.
  assert (H0 : conf g0 = conf g /\ step g0 = step g /\
               leftSaved g0 = leftSaved g /\ rightSaved g0 = rightSaved g)
    by (repeat split).
  destruct H0 as (C0 & S0 & L0 & R0).
  destruct (negb (vOK g0 (Some p15)) || negb (vOK g0 (Some p16))).
  { cbv beta iota zeta. repeat split; assumption. }
  clearbody g0.
  destruct (track_facts g0 p15 p16 m now) as (Hk & Hside & Hact).
  apply kept_fields in Hk. destruct Hk as (Hc & Hs & Hl & Hr & _).
  set (tr := track g0 p15 p16 m now) in *. clearbody tr.
  pose proof (steadiness_cases tr) as Hst.
  destruct (steadiness tr) as [g1 s|g1 side].
  - destruct Hst as (A1 & A2 & A3 & A4 & A5 & A6 & A7).
    repeat split; congruence.
  - destruct Hst as (A1 & A2 & A3 & A4 & A5 & A6 & A7 & A8 & A9).
    repeat split; try congruence.
    rewrite A9, Hact, A6, A7, S0. reflexivity.
Qed.

Lemma upto_hold_return (g : Grid) lm m now g1 s :
  upto_hold g lm m now = Return g1 s ->
  conf g1 = conf g /\ step g1 = step g /\
  leftSaved g1 = leftSaved g /\ rightSaved g1 = rightSaved g /\
  Status.saved s = false /\ Status.progress s = 0 /\
  Status.step s = step g.
Proof.
  intros E. pose proof (upto_hold_cases g lm m now) as H.
  rewrite E in H. exact H.
Qed.

Lemma upto_hold_next (g : Grid) lm m now g1 side :
  upto_hold g lm m now = Next g1 side ->
  conf g1 = conf g /\ step g1 = step g /\ side = step g /\
  leftSaved g1 = leftSaved g /\ rightSaved g1 = rightSaved g /\
  (exists k, _candidate g1 = Some (S k)) /\
  _candidate g1 = (if Step.eqb (step g) Step.left then leftActive g1 else rightActive g1).
Proof.
  intros E. pose proof (upto_hold_cases g lm m now) as H.
  rewrite E in H. exact H.
Qed.

(** The completion test: a save when the hold time has reached
    [holdSeconds], nothing otherwise. *)
Lemma completion_cases (g1 : Grid) (side : Step.t) :
  let g' := fst (completion g1 side) in
  let s := snd (completion g1 side) in
  if Qcle_bool (holdSeconds g1) (_hold g1) then
    Status.saved s = true /\
    step g' = (if Step.eqb side Step.left then Step.right else Step.done) /\
    leftSaved g' = (if Step.eqb side Step.left then _candidate g1 else leftSaved g1) /\
    rightSaved g' = (if Step.eqb side Step.left then rightSaved g1 else _candidate g1) /\
    leftActive g' = leftActive g1 /\ rightActive g' = rightActive g1 /\
    conf g' = conf g1
  else
    Status.saved s = false /\ g' = g1.
Proof.
  unfold completion.
  destruct (Qcle_bool (holdSeconds g1) (_hold g1)).
  - destruct (Step.eqb side Step.left); cbv beta iota zeta; repeat split.
  - cbv beta iota zeta. split; reflexivity.
Qed.

(** The step of the grid after one update, in every case. *)
Lemma update_step_cases (g : Grid) lm m now :
  let g' := fst (update g lm m now) in
  let s := snd (update g lm m now) in
  (Status.saved s = false /\ step g' = step g /\
   leftSaved g' = leftSaved g /\ rightSaved g' = rightSaved g /\
   (forall h, accumulated g lm m now = Some h -> ~ holdSeconds g <= h)) \/
  (Status.saved s = true /\
   (exists h, accumulated g lm m now = Some h /\ holdSeconds g <= h) /\
   match step g with
   | Step.left =>
       step g' = Step.right /\ leftSaved g' = leftActive g' /\
       leftSaved g' <> None /\ rightSaved g' = rightSaved g
   | _ =>
       step g' = Step.done /\ rightSaved g' = rightActive g' /\
       rightSaved g' <> None /\ leftSaved g' = leftSaved g
   end).
Proof.
  unfold update, accumulated.
  pose proof (upto_hold_cases g lm m now) as E.
  destruct (upto_hold g lm m now) as [g1 s1|g1 side].
  - destruct E as (_ & Hs & Hl & Hr & Hsv & _).
    left. cbv beta iota zeta. repeat split; try assumption.
    intros h Hh; discriminate.
  - destruct E as (Hc & Hs & -> & Hl & Hr & (k & Hk) & Hact).
    assert (Hhs : holdSeconds g1 = holdSeconds g).
    { unfold conf in Hc. congruence. }
    pose proof (completion_cases g1 (step g)) as Hcomp.
    destruct (completion g1 (step g)) as [g' s].
    cbv beta iota zeta delta [fst snd] in Hcomp |- *.
    destruct (Qcle_bool (holdSeconds g1) (_hold g1)) eqn:Hq.
    + right. destruct Hcomp as (B1 & B2 & B3 & B4 & B5 & B6 & _).
      apply Qle_bool_iff in Hq. rewrite Hhs in Hq.
      split; [exact B1|]. split; [eexists; split; [reflexivity|exact Hq]|].
      rewrite <- B5, <- B6 in Hact.
      destruct (step g); cbn [Step.eqb] in *;
        repeat split; try congruence.
    + left. destruct Hcomp as (B1 & ->).
      repeat split; try assumption.
      intros h Hh. inversion Hh; subst. rewrite <- Hhs. intros Hle.
      apply Qle_bool_iff in Hle. unfold Qcle_bool in Hq. congruence.
Qed.

(** The step never moves backwards in one update. *)
Lemma update_rank (g : Grid) lm m now :
  (Step.rank (step g) <= Step.rank (step (fst (update g lm m now))))%nat.
Proof.
  destruct (update_step_cases g lm m now) as [(_ & H & _)|(_ & _ & H)].
  - rewrite H. apply Nat.le_refl.
  - destruct (step g); destruct H as (H & _); rewrite H; simpl; lia.
Qed.

Lemma run_rank (fs : list Frame) (g : Grid) :
  (Step.rank (step g) <= Step.rank (step (run g fs)))%nat.
Proof.
  revert g. induction fs as [|f fs IH]; intros g; simpl.
  - apply Nat.le_refl.
  - eapply Nat.le_trans; [|apply IH]. apply update_rank.
Qed.

(** ** Steadiness and the hold timer *)

Lemma vOK_push_neutral (v : Qc) (g : Grid) (p : option Point) :
  vOK (push_neutral v g) p = vOK g p.
Proof. reflexivity. Qed.

(** A tracked frame is handed to the steadiness stage. *)
Lemma tracked_some (g : Grid) lm m now tr :
  tracked g lm m now = Some tr -> upto_hold g lm m now = steadiness tr.
Proof.
  unfold tracked, upto_hold.
  destruct lm as [l|]; [|discriminate].
  destruct (at_ l 15) as [p15|]; [|discriminate].
  destruct (at_ l 16) as [p16|]; [|discriminate].
  destruct (needsHips g && negb (hipsOK g l)); [discriminate|].
  cbv beta zeta. rewrite !vOK_push_neutral.
  destruct (negb (vOK g (Some p15)) || negb (vOK g (Some p16))); [discriminate|].
  intros H. injection H as <-. reflexivity.
Qed.

(** A frame that is not tracked returns before the completion test. *)
Lemma tracked_none (g : Grid) lm m now :
  tracked g lm m now = None ->
  exists g1 s, upto_hold g lm m now = Return g1 s.
Proof.
  unfold tracked, upto_hold.
  destruct lm as [l|]; [|eauto].
  destruct (at_ l 15) as [p15|]; [|eauto].
  destruct (at_ l 16) as [p16|]; [|eauto].
  destruct (needsHips g && negb (hipsOK g l)); [eauto|].
  cbv beta zeta. rewrite !vOK_push_neutral.
  destruct (negb (vOK g (Some p15)) || negb (vOK g (Some p16))); [eauto|].
  discriminate.
Qed.

(** The session fields and parameters seen by the steadiness stage are
    those of the grid before the frame. *)
Lemma tracked_kept (g : Grid) lm m now tr :
  tracked g lm m now = Some tr ->
  conf (t_grid tr) = conf g /\ step (t_grid tr) = step g /\
  _kOn (t_grid tr) = _kOn g /\ _hold (t_grid tr) = _hold g /\
  _candidate (t_grid tr) = _candidate g /\ t_side tr = step g.
Proof.
  unfold tracked.
  destruct lm as [l|]; [|discriminate].
  destruct (at_ l 15) as [p15|]; [|discriminate].
  destruct (at_ l 16) as [p16|]; [|discriminate].
  destruct (needsHips g && negb (hipsOK g l)); [discriminate|].
  destruct (negb (vOK g (Some p15)) || negb (vOK g (Some p16))); [discriminate|].
  cbv beta zeta.
  match goal with |- context [push_neutral ?v g] => set (g0 := push_neutral v g) end.
  assert (H0 : conf g0 = conf g /\ step g0 = step g /\ _kOn g0 = _kOn g /\
               _hold g0 = _hold g /\ _candidate g0 = _candidate g)
    by (repeat split).
  clearbody g0. destruct H0 as (C0 & S0 & K0 & H0 & D0).
  destruct (track_facts g0 p15 p16 m now) as (Hk & Hside & _).
  apply kept_fields in Hk. destruct Hk as (Hc & Hs & _ & _ & Hk & Hh & Hd & _).
  intros H. injection H as <-. repeat split; congruence.
Qed.

(** The speed of a tracked frame is measured from the previous smoothed
    point of the hand to its current unsmoothed point, over the time since
    the previous tracked frame. *)
Lemma tracked_speed (g : Grid) l m now tr p15 p16 :
  tracked g (Some l) m now = Some tr ->
  at_ l 15 = Some p15 -> at_ l 16 = Some p16 ->
  t_spd tr =
    (if Step.eqb (step g) Step.left
     then speed (_sL g) (nrm m p15) (t_dt tr)
     else speed (_sR g) (nrm m p16) (t_dt tr)).
Proof.
  unfold tracked. intros H E15 E16. rewrite E15, E16 in H.
  destruct (needsHips g && negb (hipsOK g l)); [discriminate|].
  destruct (negb (vOK g (Some p15)) || negb (vOK g (Some p16))); [discriminate|].
  injection H as <-.
  match goal with |- context [push_neutral ?v g] => set (g0 := push_neutral v g) end.
  change (step g) with (step g0). change (_sL g) with (_sL g0).
  change (_sR g) with (_sR g0).
  clearbody g0. apply track_hand.
Qed.

(** The steadiness stage on a hit: the count and the timer it leaves. *)
Lemma steadiness_hit (tr : Tracked) :
  falsy_rung (t_active tr) = false ->
  let g := t_grid tr in
  let same := negb (rung_neq (_candidate g) (t_active tr)) in
  let k0 := if same then _kOn g else 0%nat in
  let h0 := if same then _hold g else 0 in
  let steady := speed_le (t_spd tr) (maxSpeedPerSec g) in
  let k1 := if steady then S k0 else k0 in
  exists g1,
    steadiness tr = Next g1 (t_side tr) /\
    _kOn g1 = k1 /\
    _hold g1 = (if (kFrames g <=? k1)%nat then h0 + t_dt tr else h0).
Proof.
  intros Hf. unfold steadiness. rewrite Hf. cbv beta zeta.
  destruct (rung_neq (_candidate (t_grid tr)) (t_active tr)); cbn [negb];
    cbv beta iota;
    destruct (speed_le (t_spd tr) _) eqn:Hsp;
    grid_red; rewrite ?Hsp;
    match goal with |- context [(?a <=? ?b)%nat] => destruct (a <=? b)%nat eqn:Hle end;
    eexists; (split; [reflexivity|]); grid_red; rewrite ?Hle; split; reflexivity.
Qed.

Ltac qc_eval := apply Qc_is_canon; vm_compute; reflexivity.

(** Lists of numbers are equal when their fractions are. *)
Lemma Qc_list_eq (l1 l2 : list Qc) : map this l1 = map this l2 -> l1 = l2.
Proof.
  revert l2. induction l1 as [|a l1 IH]; intros [|b l2] H; try discriminate.
  - reflexivity.
  - simpl in H. injection H as Hab Hl.
    f_equal; [now apply Qc_decomp|now apply IH].
Qed.

(** ** The early exits *)

(** The hip exit and the hand-visibility exit reset the steady-frame count
    and the hold timer, report zero progress and keep the step and the
    saved rungs. *)
Lemma gated_exits_reset (g : Grid) l m now p15 p16 :
  at_ l 15 = Some p15 -> at_ l 16 = Some p16 ->
  (needsHips g && negb (hipsOK g l) = true \/
   negb (vOK g (Some p15)) || negb (vOK g (Some p16)) = true) ->
  let g' := fst (update g (Some l) m now) in
  let s := snd (update g (Some l) m now) in
  _kOn g' = 0%nat /\ _hold g' = 0 /\ Status.progress s = 0 /\
  step g' = step g /\ leftSaved g' = leftSaved g /\ rightSaved g' = rightSaved g.
Proof.
  intros E15 E16 H. unfold update, upto_hold. rewrite E15, E16.
  destruct (needsHips g && negb (hipsOK g l)).
  - cbv beta iota zeta. repeat split.
  - destruct H as [H|H]; [discriminate|].
    cbv beta zeta. rewrite !vOK_push_neutral, H.
    cbv beta iota zeta. repeat split.
Qed.

(** C3, what the code does on its first exit.  When the landmark array is
    missing or one of the two hand landmarks is absent, [update] returns at
    once: the grid is left exactly as it was, so the steady-frame count and
    the hold timer are not reset; only the reported progress is zero. *)
Theorem absent_hand_exit_leaves_grid (g : Grid) lm m now :
  (lm = None \/
   exists l, lm = Some l /\ (at_ l 15 = None \/ at_ l 16 = None)) ->
  fst (update g lm m now) = g /\
  Status.progress (snd (update g lm m now)) = 0.
Proof.
  intros [->|(l & -> & H)]; unfold update, upto_hold.
  - split; [reflexivity|apply clamp_zero].
  - destruct (at_ l 15) as [p15|]; [destruct (at_ l 16) as [p16|]|].
    + destruct H; discriminate.
    + split; [reflexivity|apply clamp_zero].
    + split; [reflexivity|apply clamp_zero].
Qed.

(** After six steady frames on rung 5 the count is 6 and the timer 0.1 s; a
    frame without the left wrist leaves both where they are. *)
Lemma absent_hand_exit_leaves_grid_witness :
  at_ no_left_wrist 15 = None /\
  _kOn (fst (update held6 (Some no_left_wrist) true 1600)) = 6%nat /\
  _hold (fst (update held6 (Some no_left_wrist) true 1600)) = 0.1 /\
  Status.progress (snd (update held6 (Some no_left_wrist) true 1600)) = 0.
Proof.
  assert (H : at_ no_left_wrist 15 = None) by reflexivity.
  destruct (absent_hand_exit_leaves_grid held6 (Some no_left_wrist) true 1600)
    as (Hg & Hp).
  { right. exists no_left_wrist. split; [reflexivity|left; exact H]. }
  rewrite Hg, Hp.
  split; [exact H|]. split; [vm_compute; reflexivity|]. split; [qc_eval|reflexivity].
Defined.

(** ** The returned status *)

(** C8, what the code does on a save.  The status returned by the frame
    that saves a rung is the literal built in the completion branch: it has
    [saved], full progress, no countdown and the new step, and it lacks the
    four rung properties that [_status] puts in every other status. *)
Theorem save_frame_status_lacks_rungs (g : Grid) lm m now :
  Status.saved (snd (update g lm m now)) = true ->
  let s := snd (update g lm m now) in
  Status.leftActive s = missing /\ Status.rightActive s = missing /\
  Status.leftSaved s = missing /\ Status.rightSaved s = missing /\
  Status.progress s = 1 /\ Status.countdown s = 0.
Proof.
  unfold update.
  pose proof (upto_hold_cases g lm m now) as E.
  destruct (upto_hold g lm m now) as [g1 s1|g1 side].
  - destruct E as (_ & _ & _ & _ & Hsv & _). cbv beta iota zeta delta [snd].
    rewrite Hsv. discriminate.
  - unfold completion.
    destruct (Qcle_bool (holdSeconds g1) (_hold g1)).
    + intros _. cbv beta iota zeta. repeat split.
    + cbv beta iota zeta. discriminate.
Qed.


(** The frame that completes the hold of the left hand: six steady frames,
    then one 5 s later.  Its status has [saved] and no rung property. *)
Lemma save_frame_status_lacks_rungs_witness :
  Status.saved (snd (update held6 (Some on_rung5) true 6500)) = true /\
  Status.leftActive (snd (update held6 (Some on_rung5) true 6500)) = missing /\
  Status.leftSaved (snd (update held6 (Some on_rung5) true 6500)) = missing /\
  leftSaved (fst (update held6 (Some on_rung5) true 6500)) = Some 5%nat.
Proof.
  assert (H : Status.saved (snd (update held6 (Some on_rung5) true 6500)) = true)
    by (vm_compute; reflexivity).
  destruct (save_frame_status_lacks_rungs held6 (Some on_rung5) true 6500 H)
    as (H1 & _ & H3 & _).
  split; [exact H|]. split; [exact H1|]. split; [exact H3|].
  vm_compute. reflexivity.
Defined.

(** ** Numbers *)

Ltac to_Q :=
  unfold Qcle, Qclt, Qcdiv, Qcminus, Qcplus, Qcmult, Qcopp, Qcinv in *;
  cbn [this Q2Qc] in *;
  repeat rewrite !Qred_correct in *.

(** An equation between numbers, as an equation between fractions. *)
Lemma Qc_eq_Qeq (a b : Qc) : a = b -> (this a == this b)%Q.
Proof. intros ->. reflexivity. Qed.

Lemma Qcle_bool_iff (a b : Qc) : Qcle_bool a b = true <-> a <= b.
Proof. apply Qle_bool_iff. Qed.

Lemma Qcle_bool_false (a b : Qc) : Qcle_bool a b = false -> b < a.
Proof.
  intros H. apply Qcnot_le_lt. intros Hle.
  apply Qcle_bool_iff in Hle. congruence.
Qed.

Lemma Qclt_bool_true (a b : Qc) : Qclt_bool a b = true -> a < b.
Proof.
  unfold Qclt_bool. intros H. apply negb_true_iff in H.
  now apply Qcle_bool_false.
Qed.

Lemma Qclt_bool_false (a b : Qc) : Qclt_bool a b = false -> b <= a.
Proof.
  unfold Qclt_bool. intros H. apply negb_false_iff in H.
  now apply Qcle_bool_iff.
Qed.

Lemma sq_nonneg (a b : Qc) : 0 <= a * a + b * b.
Proof. to_Q. nra. Qed.

Lemma sq_le_abs (a b : Qc) : a * a <= b * b -> Qcabs a <= Qcabs b.
Proof.
  intros H.
  destruct (Qclt_le_dec a 0) as [Ha|Ha]; destruct (Qclt_le_dec b 0) as [Hb|Hb].
  - rewrite (Qcabs_neg a), (Qcabs_neg b) by (apply Qclt_le_weak; assumption).
    to_Q. nra.
  - rewrite (Qcabs_neg a) by (apply Qclt_le_weak; assumption).
    rewrite (Qcabs_pos b) by assumption. to_Q. nra.
  - rewrite (Qcabs_pos a) by assumption.
    rewrite (Qcabs_neg b) by (apply Qclt_le_weak; assumption). to_Q. nra.
  - rewrite (Qcabs_pos a), (Qcabs_pos b) by assumption. to_Q. nra.
Qed.

Lemma add_le_cancel (c a b : Qc) : c + a <= c + b -> a <= b.
Proof. to_Q. intros H. lra. Qed.

(** The rounding margin is positive. *)
Lemma tol_pos : 0 < tol.
Proof. unfold Qclt. vm_compute. reflexivity. Qed.


(** A root that is within a bound stays within it when the radicand
    shrinks. *)
Lemma sqrt_le_mono (a b r : Qc) :
  0 <= b -> b <= a -> sqrt_le (Math_sqrt a) r = true ->
  sqrt_le (Math_sqrt b) r = true.
Proof.
  unfold sqrt_le. cbn [radicand]. intros Hb Hba H.
  apply andb_true_iff in H. destruct H as (H & H3).
  apply andb_true_iff in H. destruct H as (H1 & H2).
  apply Qcle_bool_iff in H3.
  rewrite H2. rewrite (proj2 (Qcle_bool_iff 0 b) Hb).
  rewrite (proj2 (Qcle_bool_iff b (r * r)) (Qcle_trans _ _ _ Hba H3)).
  reflexivity.
Qed.

(** ** The two search loops *)

Lemma lt_inf_false (d : Qc) (best : option Qc) :
  lt_inf d best = false -> exists b, best = Some b /\ b <= d.
Proof.
  destruct best as [b|]; simpl; [|discriminate].
  intros H. exists b. split; [reflexivity|now apply Qclt_bool_false].
Qed.

(** The loop of [_hitIndex] after [n] rungs: nothing found when no rung
    among them has a height, otherwise the first rung at least squared
    distance. *)
Lemma hit_loop_inv (g : Grid) (px py lx : Qc) (n : nat) :
  match fold_left (hit_body g px py lx) (seq 0 n) (None, None) with
  | (Some b, Some d) =>
      (b < n)%nat /\
      exists yb, nth b (yList g) None = Some yb /\ d = d2 px py lx yb /\
        forall i yi, (i < n)%nat -> nth i (yList g) None = Some yi ->
                     d <= d2 px py lx yi
  | (None, None) => forall i, (i < n)%nat -> nth i (yList g) None = None
  | _ => False
  end.
Proof.
  induction n as [|n IH].
  - simpl. intros i Hi. lia.
  - rewrite seq_S, fold_left_app. simpl.
    destruct (fold_left (hit_body g px py lx) (seq 0 n) (None, None))
      as [[b|] [d|]]; try contradiction.
    + destruct IH as (Hb & yb & Eb & Ed & Hmin).
      unfold hit_body. destruct (nth n (yList g) None) as [yy|] eqn:En.
      * cbn [snd]. fold (d2 px py lx yy).
        destruct (lt_inf (d2 px py lx yy) (Some d)) eqn:Hlt.
        -- split; [lia|]. exists yy. split; [exact En|]. split; [reflexivity|].
           simpl in Hlt. apply Qclt_bool_true in Hlt.
           intros i yi Hi Ei. destruct (Nat.eq_dec i n) as [->|Hne].
           ++ rewrite En in Ei. injection Ei as <-. apply Qcle_refl.
           ++ apply Qclt_le_weak. eapply Qclt_le_trans; [exact Hlt|].
              apply Hmin with i; [lia|exact Ei].
        -- split; [lia|]. exists yb. split; [exact Eb|]. split; [exact Ed|].
           simpl in Hlt. apply Qclt_bool_false in Hlt.
           intros i yi Hi Ei. destruct (Nat.eq_dec i n) as [->|Hne].
           ++ rewrite En in Ei. injection Ei as <-. exact Hlt.
           ++ apply Hmin with i; [lia|exact Ei].
      * split; [lia|]. exists yb. split; [exact Eb|]. split; [exact Ed|].
        intros i yi Hi Ei. destruct (Nat.eq_dec i n) as [->|Hne].
        -- congruence.
        -- apply Hmin with i; [lia|exact Ei].
    + unfold hit_body. destruct (nth n (yList g) None) as [yy|] eqn:En.
      * cbn [snd lt_inf]. fold (d2 px py lx yy).
        split; [lia|]. exists yy. split; [exact En|]. split; [reflexivity|].
        intros i yi Hi Ei. destruct (Nat.eq_dec i n) as [->|Hne].
        -- rewrite En in Ei. injection Ei as <-. apply Qcle_refl.
        -- rewrite IH in Ei by lia. discriminate.
      * intros i Hi. destruct (Nat.eq_dec i n) as [->|Hne]; [exact En|].
        apply IH. lia.
Qed.

(** [_hitIndex] finds nothing, or the 1-based index of a rung of the ladder
    that is within [hitRadius] of the point and at least squared distance
    among all rungs. *)
Lemma hitIndex_spec (g : Grid) (px py lx : Qc) :
  _hitIndex g px py lx = None \/
  exists b yb,
    _hitIndex g px py lx = Some (S b) /\ rung_at g b yb /\
    sqrt_le (Math_sqrt (d2 px py lx yb)) (hitRadius g) = true /\
    forall i yi, rung_at g i yi -> d2 px py lx yb <= d2 px py lx yi.
Proof.
  unfold _hitIndex, hit_loop.
  pose proof (hit_loop_inv g px py lx (count g)) as H.
  destruct (fold_left (hit_body g px py lx) (seq 0 (count g)) (None, None))
    as [[b|] [d|]]; try contradiction; [|left; reflexivity].
  destruct H as (Hb & yb & Eb & -> & Hmin).
  destruct (sqrt_le (Math_sqrt (d2 px py lx yb)) (hitRadius g)) eqn:Hs;
    [|left; reflexivity].
  right. exists b, yb. split; [reflexivity|]. split; [split; assumption|].
  split; [exact Hs|]. intros i yi (Hi & Ei). now apply Hmin with i.
Qed.

(** [_hitIndex] finds a rung as soon as one is within [hitRadius]. *)
Lemma hitIndex_reach (g : Grid) (px py lx : Qc) (i : nat) (yi : Qc) :
  rung_at g i yi ->
  sqrt_le (Math_sqrt (d2 px py lx yi)) (hitRadius g) = true ->
  _hitIndex g px py lx <> None.
Proof.
  intros (Hi & Ei) Hw. unfold _hitIndex, hit_loop.
  pose proof (hit_loop_inv g px py lx (count g)) as H.
  destruct (fold_left (hit_body g px py lx) (seq 0 (count g)) (None, None))
    as [[b|] [d|]]; try contradiction.
  - destruct H as (Hb & yb & Eb & -> & Hmin).
    rewrite (sqrt_le_mono (d2 px py lx yi) (d2 px py lx yb) (hitRadius g)).
    + discriminate.
    + apply sq_nonneg.
    + now apply Hmin with i.
    + exact Hw.
  - rewrite H in Ei by exact Hi. discriminate.
Qed.

(** The result of [_hitIndex] is [null] or an index between 1 and [count]. *)
Lemma hitIndex_in_range (g : Grid) (px py lx : Qc) :
  in_range (count g) (_hitIndex g px py lx).
Proof.
  destruct (hitIndex_spec g px py lx) as [->|(b & yb & -> & (Hb & _) & _)].
  - exact I.
  - simpl. lia.
Qed.

(** The loop of [_nearestRung] keeps its result between 1 and the number
    of rungs seen, or at the initial 1. *)
Lemma nearest_loop_inv (g : Grid) (py : Qc) (n : nat) :
  let r := fst (fold_left (nearest_body g py) (seq 0 n) (1%nat, None)) in
  (1 <= r)%nat /\ (r <= Nat.max 1 n)%nat.
Proof.
  induction n as [|n IH].
  - simpl. lia.
  - rewrite seq_S, fold_left_app. cbn [fold_left Nat.add]. revert IH.
    destruct (fold_left (nearest_body g py) (seq 0 n) (1%nat, None)) as [r a].
    cbv zeta. cbn [fst]. intros IH. unfold nearest_body.
    destruct (nth n (yList g) None) as [yy|]; [|cbn [fst]; lia].
    destruct (lt_inf _ _); cbn [fst snd]; lia.
Qed.

Lemma nearestRung_in_range (g : Grid) (py : Qc) :
  (1 <= count g)%nat -> (1 <= _nearestRung g py <= count g)%nat.
Proof.
  intros H. pose proof (nearest_loop_inv g py (count g)) as Hn.
  cbv zeta in Hn. unfold _nearestRung. lia.
Qed.

(** The hit test only reads the parameters of the grid. *)
Lemma hitIndex_conf (g1 g2 : Grid) (px py lx : Qc) :
  conf g1 = conf g2 -> _hitIndex g1 px py lx = _hitIndex g2 px py lx.
Proof.
  destruct g1, g2. unfold conf. cbn. intros H.
  injection H as -> -> -> -> -> -> -> -> -> -> -> ->. reflexivity.
Qed.

Lemma nearestRung_conf (g1 g2 : Grid) (py : Qc) :
  conf g1 = conf g2 -> _nearestRung g1 py = _nearestRung g2 py.
Proof.
  destruct g1, g2. unfold conf. cbn. intros H.
  injection H as -> -> -> -> -> -> -> -> -> -> -> ->. reflexivity.
Qed.

(** ** What a tracked frame computes *)

Lemma ema_some (prev : option Point) (n : Point) (a : Qc) :
  exists p, V2.ema prev (Some n) a = Some p.
Proof. unfold V2.ema. destruct prev; eauto. Qed.

Lemma hit_test_shape (g : Grid) (sL sR : Point) :
  let g' := hit_test g sL sR in
  conf g' = conf g /\ _sL g' = _sL g /\ _sR g' = _sR g /\
  _maxRungL g' = _maxRungL g /\ _maxRungR g' = _maxRungR g /\
  leftActive g' = _hitIndex g (x sL) (y sL) (leftX g) /\
  rightActive g' = _hitIndex g (x sR) (y sR) (rightX g).
Proof.
  unfold hit_test. cbv zeta. repeat split.
Qed.

Lemma reach_shape (g : Grid) (sL sR : Point) :
  let g' := reach g sL sR in
  conf g' = conf g /\ _sL g' = _sL g /\ _sR g' = _sR g /\
  leftActive g' = leftActive g /\ rightActive g' = rightActive g /\
  (_maxRungL g' = _maxRungL g \/ _maxRungL g' = Some (_nearestRung g (y sL))) /\
  (_maxRungR g' = _maxRungR g \/ _maxRungR g' = Some (_nearestRung g (y sR))).
Proof.
  unfold reach. cbv zeta.
  destruct (Qclt_bool (y sL) (_minYLeft g));
    match goal with |- context [if ?c then _ else _] => destruct c end;
    repeat split; first [left; reflexivity | right; reflexivity].
Qed.

(** The grid after tracking: both smoothed points exist, each active rung
    is the hit test of its smoothed point on its lane, and each max-reach
    rung is the old one or the rung nearest the smoothed point. *)
Lemma track_shape (g : Grid) (p15 p16 : Point) (m : bool) (now : Qc) :
  let g' := t_grid (track g p15 p16 m now) in
  exists sL sR,
    _sL g' = Some sL /\ _sR g' = Some sR /\
    leftActive g' = _hitIndex g (x sL) (y sL) (leftX g) /\
    rightActive g' = _hitIndex g (x sR) (y sR) (rightX g) /\
    (_maxRungL g' = _maxRungL g \/ _maxRungL g' = Some (_nearestRung g (y sL))) /\
    (_maxRungR g' = _maxRungR g \/ _maxRungR g' = Some (_nearestRung g (y sR))).
Proof.
  unfold track. cbv beta iota zeta delta [t_grid].
  set (g1 := smooth g (nrm m p15) (nrm m p16) now).
  assert (C1 : conf g1 = conf g) by reflexivity.
  assert (M1 : _maxRungL g1 = _maxRungL g /\ _maxRungR g1 = _maxRungR g)
    by (split; reflexivity).
  destruct (ema_some (_sL g) (nrm m p15) 0.35) as (sL & EL).
  destruct (ema_some (_sR g) (nrm m p16) 0.35) as (sR & ER).
  assert (L1 : _sL g1 = Some sL) by exact EL.
  assert (R1 : _sR g1 = Some sR) by exact ER.
  clearbody g1. rewrite L1, R1.
  destruct (hit_test_shape g1 sL sR) as (C2 & L2 & R2 & ML2 & MR2 & A2 & B2).
  set (g2 := hit_test g1 sL sR) in *. clearbody g2.
  destruct (reach_shape g2 sL sR) as (C3 & L3 & R3 & A3 & B3 & ML3 & MR3).
  set (g3 := reach g2 sL sR) in *. clearbody g3.
  destruct M1 as (ML1 & MR1).
  assert (C12 : conf g2 = conf g) by congruence.
  assert (LX : leftX g1 = leftX g /\ rightX g1 = rightX g)
    by (unfold conf in C1; split; congruence).
  destruct LX as (LX & RX).
  exists sL, sR.
  split; [congruence|]. split; [congruence|].
  split; [rewrite A3, A2, LX; now apply hitIndex_conf|].
  split; [rewrite B3, B2, RX; now apply hitIndex_conf|].
  rewrite <- ML1, <- MR1, <- ML2, <- MR2.
  rewrite <- (nearestRung_conf g2 g (y sL) C12).
  rewrite <- (nearestRung_conf g2 g (y sR) C12).
  split; assumption.
Qed.

Lemma steadiness_tracked_part (tr : Tracked) :
  match steadiness tr with
  | Return g1 _ => tracked_part g1 = tracked_part (t_grid tr)
  | Next g1 _ => tracked_part g1 = tracked_part (t_grid tr)
  end.
Proof.
  unfold steadiness.
  destruct (falsy_rung (t_active tr)); [reflexivity|].
  cbv beta zeta. split_ifs; reflexivity.
Qed.

Lemma completion_tracked_part (g1 : Grid) (side : Step.t) :
  tracked_part (fst (completion g1 side)) = tracked_part g1.
Proof.
  unfold completion. split_ifs; reflexivity.
Qed.

(** After a tracked frame the grid holds what tracking computed. *)
Lemma update_tracked_part (g : Grid) lm m now tr :
  tracked g lm m now = Some tr ->
  tracked_part (fst (update g lm m now)) = tracked_part (t_grid tr).
Proof.
  intros Ht. unfold update. rewrite (tracked_some _ _ _ _ _ Ht).
  pose proof (steadiness_tracked_part tr) as H.
  destruct (steadiness tr) as [g1 s|g1 side].
  - exact H.
  - rewrite completion_tracked_part. exact H.
Qed.

(** A frame that is not tracked leaves those fields alone. *)
Lemma update_untracked_part (g : Grid) lm m now :
  tracked g lm m now = None ->
  tracked_part (fst (update g lm m now)) = tracked_part g.
Proof.
  unfold tracked, update, upto_hold.
  destruct lm as [l|]; [|reflexivity].
  destruct (at_ l 15) as [p15|]; [|reflexivity].
  destruct (at_ l 16) as [p16|]; [|reflexivity].
  destruct (needsHips g && negb (hipsOK g l)); [reflexivity|].
  cbv beta zeta. rewrite !vOK_push_neutral.
  destruct (negb (vOK g (Some p15)) || negb (vOK g (Some p16))); [reflexivity|].
  discriminate.
Qed.

(** The same description for the grid a tracked frame leaves. *)
Lemma update_tracked_shape (g : Grid) lm m now tr :
  tracked g lm m now = Some tr ->
  let g' := fst (update g lm m now) in
  exists sL sR,
    _sL g' = Some sL /\ _sR g' = Some sR /\
    leftActive g' = _hitIndex g (x sL) (y sL) (leftX g) /\
    rightActive g' = _hitIndex g (x sR) (y sR) (rightX g) /\
    (_maxRungL g' = _maxRungL g \/ _maxRungL g' = Some (_nearestRung g (y sL))) /\
    (_maxRungR g' = _maxRungR g \/ _maxRungR g' = Some (_nearestRung g (y sR))).
Proof.
  intros Ht. pose proof (update_tracked_part _ _ _ _ _ Ht) as Hp.
  cbv zeta. set (g' := fst (update g lm m now)) in *. clearbody g'.
  revert Ht. unfold tracked.
  destruct lm as [l|]; [|discriminate].
  destruct (at_ l 15) as [p15|]; [|discriminate].
  destruct (at_ l 16) as [p16|]; [|discriminate].
  destruct (needsHips g && negb (hipsOK g l)); [discriminate|].
  destruct (negb (vOK g (Some p15)) || negb (vOK g (Some p16))); [discriminate|].
  cbv beta zeta.
  match goal with |- context [push_neutral ?v g] => set (g0 := push_neutral v g) end.
  assert (C0 : conf g0 = conf g) by reflexivity.
  assert (M0 : _maxRungL g0 = _maxRungL g /\ _maxRungR g0 = _maxRungR g)
    by (split; reflexivity).
  clearbody g0. destruct M0 as (ML0 & MR0).
  intros H. injection H as <-.
  destruct (track_shape g0 p15 p16 m now) as (sL & sR & L & R & A & B & ML & MR).
  set (g1 := t_grid (track g0 p15 p16 m now)) in *. clearbody g1.
  assert (LX : leftX g0 = leftX g /\ rightX g0 = rightX g)
    by (unfold conf in C0; split; congruence).
  destruct LX as (LX & RX).
  rewrite (hitIndex_conf g0 g _ _ _ C0), LX in A.
  rewrite (hitIndex_conf g0 g _ _ _ C0), RX in B.
  rewrite (nearestRung_conf g0 g _ C0), ML0 in ML.
  rewrite (nearestRung_conf g0 g _ C0), MR0 in MR.
  unfold tracked_part in Hp.
  exists sL, sR.
  repeat split; congruence.
Qed.

(** ** Hit testing *)

Lemma within_d2 (g : Grid) (p : Point) (lx yy : Qc) :
  within g p lx yy = sqrt_le (Math_sqrt (d2 (x p) (y p) lx yy)) (hitRadius g).
Proof. reflexivity. Qed.


Lemma hit_near (g : Grid) (p : Point) (lx : Qc) :
  (exists i yi, rung_at g i yi /\ within g p lx yi = true) ->
  exists k yk,
    _hitIndex g (x p) (y p) lx = Some (S k) /\ rung_at g k yk /\
    within g p lx yk = true /\
    forall j yj, rung_at g j yj -> Qcabs (y p - yk) <= Qcabs (y p - yj).
Proof.
  intros (i & yi & Hr & Hw).
  destruct (hitIndex_spec g (x p) (y p) lx) as [H|(b & yb & E & Hb & Hwb & Hmin)].
  - exfalso. rewrite within_d2 in Hw.
    exact (hitIndex_reach g (x p) (y p) lx i yi Hr Hw H).
  - exists b, yb. split; [exact E|]. split; [exact Hb|].
    split; [rewrite within_d2; exact Hwb|].
    intros j yj Hj. apply sq_le_abs.
    apply (add_le_cancel ((x p - lx) * (x p - lx))). exact (Hmin j yj Hj).
Qed.

Lemma Qcmax_ge_l (a b : Qc) : a <= Qcmax a b.
Proof.
  unfold Qcmax. destruct (Qcle_bool a b) eqn:H.
  - now apply Qcle_bool_iff.
  - apply Qcle_refl.
Qed.

Lemma Qcmax_min_le_1 (p : Qc) : Qcmax 0 (Qcmin 1 p) <= 1.
Proof.
  unfold Qcmax, Qcmin.
  destruct (Qcle_bool 1 p) eqn:H1.
  - change (Qcle_bool 0 1) with true. cbv iota. apply Qcle_refl.
  - apply Qcle_bool_false in H1.
    destruct (Qcle_bool 0 p); [now apply Qclt_le_weak|].
    apply Qcle_bool_iff. reflexivity.
Qed.



(** The active rung of the hand being calibrated, after a tracked frame. *)
Lemma tracked_active (g : Grid) lm m now tr :
  tracked g lm m now = Some tr ->
  active_of (step g) (fst (update g lm m now)) = t_active tr.
Proof.
  intros Ht. pose proof (update_tracked_part _ _ _ _ _ Ht) as Hp.
  set (g' := fst (update g lm m now)) in *. clearbody g'.
  assert (HA : leftActive g' = leftActive (t_grid tr) /\
               rightActive g' = rightActive (t_grid tr))
    by (unfold tracked_part in Hp; split; congruence).
  destruct HA as (HL & HR). clear Hp.
  revert Ht. unfold tracked.
  destruct lm as [l|]; [|discriminate].
  destruct (at_ l 15) as [p15|]; [|discriminate].
  destruct (at_ l 16) as [p16|]; [|discriminate].
  destruct (needsHips g && negb (hipsOK g l)); [discriminate|].
  destruct (negb (vOK g (Some p15)) || negb (vOK g (Some p16))); [discriminate|].
  cbv beta zeta.
  match goal with |- context [push_neutral ?v g] => set (g0 := push_neutral v g) end.
  assert (S0 : step g0 = step g) by reflexivity. clearbody g0.
  intros H. injection H as <-.
  destruct (track_facts g0 p15 p16 m now) as (_ & _ & Hact).
  rewrite Hact, S0. unfold active_of. rewrite HL, HR. reflexivity.
Qed.

(** ** The neutral-height pool *)

(** On a tracked frame: the smoothed point of the hand being calibrated,
    its hit test, and the height and active rung that tracking reports. *)
Lemma tracked_hit (g : Grid) lm m now tr :
  tracked g lm m now = Some tr ->
  let g' := fst (update g lm m now) in
  exists p,
    hand_point (step g) g' = Some p /\
    active_of (step g) g' = _hitIndex g (x p) (y p) (lane (step g) g) /\
    t_active tr = active_of (step g) g' /\
    t_yHand tr = y p.
Proof.
  intros Ht g'.
  destruct (update_tracked_shape _ _ _ _ _ Ht) as (sL & sR & EL & ER & AL & AR & _).
  fold g' in EL, ER, AL, AR.
  pose proof (tracked_active _ _ _ _ _ Ht) as Hact. fold g' in Hact.
  pose proof (update_tracked_part _ _ _ _ _ Ht) as Hp. fold g' in Hp.
  assert (HS : _sL (t_grid tr) = _sL g' /\ _sR (t_grid tr) = _sR g')
    by (unfold tracked_part in Hp; split; congruence).
  destruct HS as (HSL & HSR). clear Hp.
  assert (Hy : exists p, hand_point (step g) (t_grid tr) = Some p /\ t_yHand tr = y p).
  { revert Ht. unfold tracked.
    destruct lm as [l|]; [|discriminate].
    destruct (at_ l 15) as [p15|]; [|discriminate].
    destruct (at_ l 16) as [p16|]; [|discriminate].
    destruct (needsHips g && negb (hipsOK g l)); [discriminate|].
    destruct (negb (vOK g (Some p15)) || negb (vOK g (Some p16))); [discriminate|].
    cbv beta zeta.
    match goal with |- context [push_neutral ?v g] => set (g0 := push_neutral v g) end.
    change (step g) with (step g0). clearbody g0.
    intros H. injection H as <-. apply track_hand. }
  destruct Hy as (p & Hp & Hyp).
  exists p. unfold hand_point, active_of, lane in *.
  rewrite HSL, HSR in Hp.
  destruct (Step.eqb (step g) Step.left);
    (split; [exact Hp|]); (split; [congruence|]); split; congruence.
Qed.

Lemma steadiness_rom (tr : Tracked) :
  match steadiness tr with
  | Return g1 _ =>
      falsy_rung (t_active tr) = true /\
      neutralSamples (_rom g1) = neutralSamples (_rom (t_grid tr)) ++ [t_yHand tr]
  | Next g1 _ =>
      falsy_rung (t_active tr) = false /\ _rom g1 = _rom (t_grid tr)
  end.
Proof.
  unfold steadiness.
  destruct (falsy_rung (t_active tr)); [split; reflexivity|].
  cbv beta zeta. split_ifs; split; reflexivity.
Qed.

Lemma completion_rom (g1 : Grid) (side : Step.t) :
  _rom (fst (completion g1 side)) = _rom g1.
Proof. unfold completion. split_ifs; reflexivity. Qed.

(** What one frame adds to the pool. *)
Lemma update_pool (g : Grid) lm m now :
  neutralSamples (_rom (fst (update g lm m now))) =
  neutralSamples (_rom g) ++ hip_samples g lm ++ miss_samples g lm m now.
Proof.
  unfold update, upto_hold, hip_samples, miss_samples, tracked.
  destruct lm as [l|]; [|cbn [fst app]; now rewrite app_nil_r].
  destruct (at_ l 15) as [p15|]; [|cbn [fst app]; now rewrite app_nil_r].
  destruct (at_ l 16) as [p16|]; [|cbn [fst app]; now rewrite app_nil_r].
  destruct (needsHips g && negb (hipsOK g l));
    [cbv beta iota zeta; cbn [fst app]; now rewrite app_nil_r|].
  cbv beta zeta. rewrite !vOK_push_neutral.
  destruct (negb (vOK g (Some p15)) || negb (vOK g (Some p16)));
    [cbv beta iota zeta; cbn [fst app]; reflexivity|].
  match goal with |- context [push_neutral ?v g] => set (v0 := v) end.
  set (g0 := push_neutral v0 g).
  assert (R0 : neutralSamples (_rom g0) = neutralSamples (_rom g) ++ [v0])
    by reflexivity.
  clearbody g0.
  destruct (track_facts g0 p15 p16 m now) as (Hk & _).
  apply kept_fields in Hk. destruct Hk as (_ & _ & _ & _ & _ & _ & _ & Hrom).
  set (tr := track g0 p15 p16 m now) in *. clearbody tr. cbv beta iota.
  pose proof (steadiness_rom tr) as Hst.
  destruct (steadiness tr) as [g1 s|g1 side]; destruct Hst as (Hf & Hr);
    rewrite Hf.
  - cbn [fst]. rewrite Hr, Hrom, R0, <- app_assoc. reflexivity.
  - rewrite completion_rom, Hr, Hrom, R0. cbn [app]. reflexivity.
Qed.

Lemma length_ne0 (A : Type) (a : A) (l : list A) :
  Q2Qc (inject_Z (Z.of_nat (List.length (a :: l)))) <> 0.
Proof.
  intros H. apply Q2Qc_eq_iff in H.
  assert (Hz : (inject_Z (Z.of_nat (List.length (a :: l))) == inject_Z 0)%Q)
    by exact H.
  apply (proj1 (inject_Z_injective _ _)) in Hz. cbn [List.length] in Hz. lia.
Qed.

(** C4, as amended.  A frame that has both hand landmarks and passes the
    hip gate adds to the pool the larger of the two clamped hip heights; a
    frame that is tracked and finds the hand being calibrated on no rung
    adds, after it, the smoothed height of that hand; no other frame adds
    anything.  The [neutralY] of the record is the arithmetic mean of the
    pool, or [yBottom] when the pool is empty. *)
Theorem pool_gets_hip_and_miss_samples (g : Grid) lm m now :
  let g' := fst (update g lm m now) in
  neutralSamples (_rom g') =
    neutralSamples (_rom g) ++ hip_samples g lm ++ miss_samples g lm m now /\
  (forall v, In v (miss_samples g lm m now) ->
     exists p, hand_point (step g) g' = Some p /\ v = y p /\
               active_of (step g) g' = None) /\
  (forall t,
     let pool := neutralSamples (_rom g') in
     let n := Payload.neutralY (Payload.rom (payload_of g' t)) in
     (pool = [] -> n = yBottom g') /\
     (pool <> [] -> n * inject_Z (Z.of_nat (List.length pool)) = sum pool)).
Proof.
  intros g'. split; [apply update_pool|]. split.
  - unfold miss_samples.
    destruct (tracked g lm m now) as [tr|] eqn:Ht; [|intros v []].
    destruct (falsy_rung (t_active tr)) eqn:Hf; [|intros v []].
    intros v [<-|[]].
    destruct (tracked_hit _ _ _ _ _ Ht) as (p & Hp & Hh & Ha & Hy).
    fold g' in Hp, Hh, Ha. exists p. split; [exact Hp|]. split; [exact Hy|].
    destruct (hitIndex_spec g (x p) (y p) (lane (step g) g))
      as [Hn|(b & yb & E & _)].
    + congruence.
    + rewrite <- Hh, <- Ha in E. rewrite E in Hf. discriminate.
  - intros t pool n. unfold n, payload_of, neutral_of.
    cbn [Payload.rom Payload.neutralY]. fold pool.
    destruct pool as [|a l] eqn:Ep.
    + split; [reflexivity|congruence].
    + split; [discriminate|]. intros _.
      pose proof (length_ne0 Qc a l) as Hne.
      field. exact Hne.
Qed.

(** C4 as first stated fails: on the first frame of a session, with the
    hips visible and both hands away from the ladder, the pool receives two
    samples, the hip height 0.62 and the hand height 0.5, and the
    [neutralY] of the record is their mean, 0.56. *)
Lemma miss_frame_adds_hand_sample :
  let g' := fst (update (create defaults) (Some off_ladder) true 1000) in
  hip_samples (create defaults) (Some off_ladder) = [Q2Qc 0.62]%list /\
  neutralSamples (_rom g') = [Q2Qc 0.62; Q2Qc 0.5] /\
  Payload.neutralY (Payload.rom (payload_of g' 0)) = 0.56.
Proof.
  cbv zeta. split; [|split].
  - apply Qc_list_eq. vm_compute. reflexivity.
  - apply Qc_list_eq. vm_compute. reflexivity.
  - qc_eval.
Qed.

(** ** Invariants of a session *)

Lemma update_conf (g : Grid) lm m now :
  conf (fst (update g lm m now)) = conf g.
Proof.
  destruct (tracked g lm m now) as [tr|] eqn:Ht.
  - pose proof (update_tracked_part _ _ _ _ _ Ht) as Hp.
    pose proof (tracked_kept _ _ _ _ _ Ht) as (Hc & _).
    unfold tracked_part in Hp. congruence.
  - pose proof (update_untracked_part _ _ _ _ Ht) as Hp.
    unfold tracked_part in Hp. congruence.
Qed.

(** One update keeps the rung fields in range, on a ladder with a rung. *)
Lemma update_rungs_in_range (g : Grid) lm m now :
  (1 <= count g)%nat ->
  rungs_in_range g -> rungs_in_range (fst (update g lm m now)).
Proof.
  intros Hc (I1 & I2 & I3 & I4 & I5 & I6).
  pose proof (update_conf g lm m now) as Hconf.
  assert (Hcount : count (fst (update g lm m now)) = count g)
    by (unfold conf in Hconf; congruence).
  assert (Hact : in_range (count g) (leftActive (fst (update g lm m now))) /\
                 in_range (count g) (rightActive (fst (update g lm m now))) /\
                 in_range (count g) (_maxRungL (fst (update g lm m now))) /\
                 in_range (count g) (_maxRungR (fst (update g lm m now)))).
  { destruct (tracked g lm m now) as [tr|] eqn:Ht.
    - destruct (update_tracked_shape _ _ _ _ _ Ht)
        as (sL & sR & _ & _ & AL & AR & ML & MR).
      rewrite AL, AR.
      split; [apply hitIndex_in_range|]. split; [apply hitIndex_in_range|].
      split.
      + destruct ML as [->| ->]; [exact I5|]. simpl.
        now apply nearestRung_in_range.
      + destruct MR as [->| ->]; [exact I6|]. simpl.
        now apply nearestRung_in_range.
    - pose proof (update_untracked_part _ _ _ _ Ht) as Hp.
      unfold tracked_part in Hp.
      assert (E : leftActive (fst (update g lm m now)) = leftActive g /\
                  rightActive (fst (update g lm m now)) = rightActive g /\
                  _maxRungL (fst (update g lm m now)) = _maxRungL g /\
                  _maxRungR (fst (update g lm m now)) = _maxRungR g)
        by (repeat split; congruence).
      destruct E as (-> & -> & -> & ->). auto. }
  destruct Hact as (A1 & A2 & A5 & A6).
  unfold rungs_in_range. rewrite Hcount.
  split; [exact A1|]. split; [exact A2|].
  assert (Hsv : in_range (count g) (leftSaved (fst (update g lm m now))) /\
                in_range (count g) (rightSaved (fst (update g lm m now)))).
  { destruct (update_step_cases g lm m now)
      as [(_ & _ & -> & -> & _)|(_ & _ & Hm)]; [auto|].
    destruct (step g); destruct Hm as (_ & -> & _ & ->); auto. }
  destruct Hsv as (A3 & A4). auto.
Qed.

Lemma run_snoc (g : Grid) (fs : list Frame) (f : Frame) :
  run g (fs ++ [f]) = step_frame (run g fs) f.
Proof. unfold run. rewrite fold_left_app. reflexivity. Qed.

Lemma run_conf (fs : list Frame) (g : Grid) : conf (run g fs) = conf g.
Proof.
  revert g. induction fs as [|f fs IH]; intros g; [reflexivity|].
  simpl. rewrite IH. apply update_conf.
Qed.

(** C10, as amended.  On a ladder created with at least one rung, in every
    state reached from [create] by any sequence of updates, each of
    [leftActive], [rightActive], [leftSaved], [rightSaved] and the two
    max-reach rungs is [null] or an integer between 1 and [count]. *)
Theorem reachable_rungs_in_range (o : Opts) (fs : list Frame) :
  (1 <= o_count o)%nat ->
  let g := run (create o) fs in
  count g = o_count o /\ rungs_in_range g.
Proof.
  intros Hc g.
  assert (Hn : count g = o_count o).
  { pose proof (run_conf fs (create o)) as H. unfold conf in H.
    subst g. change (o_count o) with (count (create o)). congruence. }
  split; [exact Hn|]. subst g.
  induction fs as [|f fs IH] using rev_ind.
  - unfold rungs_in_range. simpl. repeat split.
  - assert (Hn' : count (run (create o) fs) = o_count o).
    { pose proof (run_conf fs (create o)) as H. unfold conf in H.
      change (o_count o) with (count (create o)). congruence. }
    rewrite run_snoc. unfold step_frame.
    apply update_rungs_in_range; [lia|]. apply IH. exact Hn'.
Qed.

(** C10 as first stated fails on a ladder created with no rung: the first
    tracked frame sets the max-reach rung of the left hand to 1, which is
    not between 1 and [count = 0]. *)
Lemma no_rungs_max_reach_out_of_range :
  let g := run (create (with_count 0)) [frame on_rung5 1000] in
  count g = 0%nat /\ _maxRungL g = Some 1%nat /\
  ~ in_range (count g) (_maxRungL g).
Proof.
  cbv zeta. split; [vm_compute; reflexivity|].
  split; [vm_compute; reflexivity|].
  assert (E : _maxRungL (run (create (with_count 0)) [frame on_rung5 1000]) = Some 1%nat)
    by (vm_compute; reflexivity).
  assert (E0 : count (run (create (with_count 0)) [frame on_rung5 1000]) = 0%nat)
    by (vm_compute; reflexivity).
  rewrite E, E0. simpl. lia.
Qed.

(** The default ladder after seven frames on rung 5. *)
Lemma reachable_rungs_in_range_witness :
  (1 <= o_count defaults)%nat /\
  rungs_in_range (run (create defaults) (six_steady ++ [frame jerk5 1600])).
Proof.
  assert (H : (1 <= o_count defaults)%nat) by (simpl; lia).
  split; [exact H|].
  exact (proj2 (reachable_rungs_in_range defaults
                  (six_steady ++ [frame jerk5 1600]) H)).
Defined.

(** One update keeps the saved rungs consistent with the step. *)
Lemma update_saved_by_step (g : Grid) lm m now :
  saved_by_step g -> saved_by_step (fst (update g lm m now)).
Proof.
  intros (Ir & Id). unfold saved_by_step.
  destruct (update_step_cases g lm m now)
    as [(_ & -> & -> & -> & _)|(_ & _ & Hm)]; [auto|].
  destruct (step g) eqn:Es; destruct Hm as (-> & _ & Hn & ->).
  - split; [intros _; exact Hn|discriminate].
  - split; [discriminate|]. intros _. split; [now apply Ir|exact Hn].
  - split; [discriminate|]. intros _. split; [now apply Id|exact Hn].
Qed.

Lemma create_saved_by_step (o : Opts) : saved_by_step (create o).
Proof. split; discriminate. Qed.

Lemma in_firstn (A : Type) (n : nat) (l : list A) (a : A) :
  In a (firstn n l) -> In a l.
Proof.
  revert l. induction n as [|n IH]; intros [|b l]; simpl; try tauto.
  intros [H|H]; [now left|right; now apply IH].
Qed.

(** What holds of the page after any events: its grid has consistent saved
    rungs and every record in storage has both indices. *)
Lemma page_invariant (es : list Event) :
  let p := run_page page0 es in
  (forall g, grid p = Some g -> saved_by_step g) /\
  (forall st key rec, In (st, key, rec) (stored p) ->
     Payload.leftIndex rec <> None /\ Payload.rightIndex rec <> None).
Proof.
  induction es as [|e es IH] using rev_ind.
  - simpl. split; [discriminate|intros st key rec []].
  - unfold run_page in *. rewrite fold_left_app. cbn [fold_left].
    cbv zeta in IH. set (p := fold_left handle es page0) in *. clearbody p.
    destruct IH as (Ig & Is).
    destruct e as [ready| |lm|now dateNow quota]; cbn [handle].
    + unfold start. destruct (running p); [auto|].
      destruct ready; cbn [grid stored]; split; auto.
      intros g Hg. injection Hg as <-. apply create_saved_by_step.
    + unfold reset. cbn [grid stored]. split; auto.
      intros g Hg. injection Hg as <-. apply create_saved_by_step.
    + unfold onResults. cbn [grid stored]. auto.
    + unfold mainLoop. destruct (negb (running p)); [auto|].
      destruct (latestLm p) as [lm|]; [|auto].
      destruct (grid p) as [g|] eqn:Eg; [|split; [rewrite Eg; discriminate|auto]].
      pose proof (update_saved_by_step g (Some lm) true now (Ig g eq_refl)) as Hinv.
      destruct (update g (Some lm) true now) as [g' r]. cbn [fst] in Hinv.
      destruct (Step.eqb (step g') Step.done && negb (savedOnce p)) eqn:Hd.
      * unfold saveCalibration. cbn [grid stored]. split.
        -- intros g0 Hg0. injection Hg0 as <-. exact Hinv.
        -- intros st key rec Hin. apply in_app_or in Hin.
           destruct Hin as [Hin|Hin]; [eauto|].
           apply in_firstn in Hin.
           apply andb_true_iff in Hd. destruct Hd as (Hd & _).
           assert (Hdone : step g' = Step.done)
             by (destruct (step g'); simpl in Hd; congruence).
           destruct Hinv as (_ & Hboth). specialize (Hboth Hdone).
           assert (Hrec : rec = payload_of g' dateNow).
           { simpl in Hin.
             destruct Hin as [H|[H|[H|[]]]]; injection H as _ _ <-; reflexivity. }
           subst rec. cbn [payload_of Payload.leftIndex Payload.rightIndex].
           exact Hboth.
      * cbn [grid stored]. split; [|auto].
        intros g0 Hg0. injection Hg0 as <-. exact Hinv.
Qed.

(** C9.  Whatever happens to the page (starts, resets, pose results,
    frames, storage that fails part way), every calibration record that
    reached storage has both its left and its right index set; so the two
    indices of a written record are never one null and one set. *)
Theorem stored_record_has_both_indices (es : list Event) st key rec :
  In (st, key, rec) (stored (run_page page0 es)) ->
  Payload.leftIndex rec <> None /\ Payload.rightIndex rec <> None.
Proof. intros H. exact (proj2 (page_invariant es) st key rec H). Qed.

(** A whole calibration of both hands on rung 5 writes the record; it has
    both indices. *)
Lemma stored_record_has_both_indices_witness :
  exists rec,
    In (sessionStorage, CALIB_KEY, rec) (stored (run_page page0 full_calibration)) /\
    Payload.leftIndex rec <> None /\ Payload.rightIndex rec <> None.
Proof.
  eassert (H : In (sessionStorage, CALIB_KEY, _)
                  (stored (run_page page0 full_calibration))).
  { vm_compute. left. reflexivity. }
  eexists. split; [exact H|].
  exact (stored_record_has_both_indices full_calibration _ _ _ H).
Defined.

(** ** The level-to-target mapping *)

Lemma Qcmax_right (a b : Qc) : a <= b -> Qcmax a b = b.
Proof. intros H. unfold Qcmax. now rewrite (proj2 (Qcle_bool_iff a b) H). Qed.

Lemma Qcmax_left (a b : Qc) : b <= a -> Qcmax a b = a.
Proof.
  intros H. unfold Qcmax. destruct (Qcle_bool a b) eqn:E; [|reflexivity].
  apply Qcle_bool_iff in E. now apply Qcle_antisym.
Qed.

Lemma Qcmin_left (a b : Qc) : a <= b -> Qcmin a b = a.
Proof. intros H. unfold Qcmin. now rewrite (proj2 (Qcle_bool_iff a b) H). Qed.

Lemma Qcmin_right (a b : Qc) : b <= a -> Qcmin a b = b.
Proof.
  intros H. unfold Qcmin. destruct (Qcle_bool a b) eqn:E; [|reflexivity].
  apply Qcle_bool_iff in E. now apply Qcle_antisym.
Qed.

Lemma num_or_pos (q d : Qc) : 1 <= q -> LiveFeedback.num_or (Some q) d = q.
Proof.
  intros H. unfold LiveFeedback.num_or.
  destruct (Qceq_bool q 0) eqn:E; [|reflexivity].
  exfalso. apply Qeq_bool_iff in E. apply Qc_is_canon in E. subst q.
  revert H. apply Qclt_not_le. reflexivity.
Qed.

(** The ramp position [t] of level [L] of [N] is between 0 and 1, and
    grows with the level. *)
Lemma ramp_range (L N : Qc) :
  1 <= L -> L <= N -> 0 <= (L - 1) / Qcmax 1 (N - 1) <= 1.
Proof.
  intros H1 H2.
  set (D := Qcmax 1 (N - 1)).
  assert (HD : 1 <= D) by apply Qcmax_ge_l.
  assert (HN : N - 1 <= D).
  { unfold D, Qcmax. destruct (Qcle_bool 1 (N - 1)) eqn:E.
    - apply Qcle_refl.
    - apply Qclt_le_weak. now apply Qcle_bool_false. }
  assert (Hne : D <> 0).
  { intros E. rewrite E in HD. revert HD. apply Qclt_not_le. reflexivity. }
  assert (Ht : (L - 1) / D * D = L - 1) by (field; exact Hne).
  set (t := (L - 1) / D) in *. clearbody t D.
  assert (HL : L - 1 = t * D) by congruence.
  clear Ht. apply Qc_eq_Qeq in HL. to_Q. split; nra.
Qed.

Lemma ramp_mono (L1 L2 N : Qc) :
  L1 <= L2 -> (L1 - 1) / Qcmax 1 (N - 1) <= (L2 - 1) / Qcmax 1 (N - 1).
Proof.
  intros H.
  set (D := Qcmax 1 (N - 1)).
  assert (HD : 1 <= D) by apply Qcmax_ge_l.
  assert (Hne : D <> 0).
  { intros E. rewrite E in HD. revert HD. apply Qclt_not_le. reflexivity. }
  assert (H1 : (L1 - 1) / D * D = L1 - 1) by (field; exact Hne).
  assert (H2 : (L2 - 1) / D * D = L2 - 1) by (field; exact Hne).
  set (t1 := (L1 - 1) / D) in *. set (t2 := (L2 - 1) / D) in *.
  clearbody t1 t2 D.
  assert (E1 : L1 - 1 = t1 * D) by congruence.
  assert (E2 : L2 - 1 = t2 * D) by congruence.
  clear H1 H2. apply Qc_eq_Qeq in E1, E2. to_Q. nra.
Qed.

(** [setLevel] on a level between 1 and the number of levels. *)
Lemma target_at_eq (fb : LiveFeedback.t) (n l r L N : Qc) :
  1 <= L -> L <= N ->
  target_at fb (stored_rom n l r) L N =
  n + (Qcmin l r - n) * (0.15 + 0.50 * ((L - 1) / Qcmax 1 (N - 1))).
Proof.
  intros H1 H2.
  assert (HN : 1 <= N) by (eapply Qcle_trans; eassumption).
  unfold target_at, LiveFeedback.setLevel, stored_rom.
  cbn [LiveFeedback.targetY LiveFeedback.rom_field Stored.rom Stored.neutralY
       Stored.maxReachLeftY Stored.maxReachRightY LiveFeedback._safeNum].
  rewrite (num_or_pos L 1 H1), (Qcmax_right 1 L H1).
  rewrite (num_or_pos N L HN), (Qcmax_right L N H2).
  unfold LiveFeedback._lerp.
  destruct (ramp_range L N H1 H2) as (T0 & T1).
  set (t := (L - 1) / Qcmax 1 (N - 1)) in *. clearbody t.
  assert (F1 : 0.15 + 0.50 * t <= 1) by (to_Q; lra).
  assert (F0 : 0 <= 0.15 + 0.50 * t) by (to_Q; lra).
  rewrite (Qcmin_right 1 _ F1), (Qcmax_right 0 _ F0). reflexivity.
Qed.

(** C5, as amended.  For a calibration with neutral height [n] and reach
    heights [l] and [r], with [maxY] the smaller of [l] and [r], the target
    of level [L] of [N] (with [1 <= L <= N]) is
    [n + (0.15 + 0.50 * (L-1)/(N-1)) * (maxY - n)], the ramp position being
    0 when [N = 1]; it is [n + 0.15 * (maxY - n)] at level 1 and, when there
    are at least two levels, [n + 0.65 * (maxY - n)] at level [N].  As the
    level grows the target moves from [n] towards [maxY]: it does not
    increase when [maxY <= n] (the reach is higher on the screen than the
    neutral height) and does not decrease when [n <= maxY]. *)
Theorem target_ramps_towards_max_reach (fb : LiveFeedback.t) (n l r L N : Qc) :
  1 <= L -> L <= N ->
  let maxY := Qcmin l r in
  let T := target_at fb (stored_rom n l r) in
  (N = 1 -> T L N = n + 0.15 * (maxY - n)) /\
  (2 <= N -> T L N = n + (0.15 + 0.50 * ((L - 1) / (N - 1))) * (maxY - n)) /\
  T 1 N = n + 0.15 * (maxY - n) /\
  (2 <= N -> T N N = n + 0.65 * (maxY - n)) /\
  (forall L', L <= L' -> L' <= N ->
     (maxY <= n -> T L' N <= T L N) /\ (n <= maxY -> T L N <= T L' N)).
Proof.
  intros H1 H2 maxY T.
  assert (HN : 1 <= N) by (eapply Qcle_trans; eassumption).
  assert (Hz : forall D : Qc, (1 - 1) / D = 0).
  { intros D. unfold Qcdiv. replace (1 - 1) with (Q2Qc 0) by ring.
    apply Qcmult_0_l. }
  assert (Hm : 2 <= N -> Qcmax 1 (N - 1) = N - 1).
  { intros H. apply Qcmax_right. to_Q. lra. }
  assert (H11 : (1 : Qc) <= 1) by apply Qcle_refl.
  assert (HNN : N <= N) by apply Qcle_refl.
  split; [|split; [|split; [|split]]].
  - intros ->. assert (L = 1) by (now apply Qcle_antisym). subst L.
    unfold T. rewrite target_at_eq by assumption. rewrite Hz. fold maxY. ring.
  - intros H. unfold T. rewrite target_at_eq by assumption.
    rewrite (Hm H). fold maxY. ring.
  - unfold T. rewrite target_at_eq by assumption.
    rewrite Hz. fold maxY. ring.
  - intros H. unfold T. rewrite target_at_eq by assumption.
    rewrite (Hm H).
    assert (Hne : N - 1 <> 0).
    { intros E. apply Qc_eq_Qeq in E. to_Q. lra. }
    replace ((N - 1) / (N - 1)) with (Q2Qc 1) by (field; exact Hne).
    replace (0.15 + 0.50 * 1) with (Q2Qc 0.65) by qc_eval.
    fold maxY. ring.
  - intros L' H3 H4.
    assert (H1' : 1 <= L') by exact (Qcle_trans _ _ _ H1 H3).
    unfold T.
    rewrite (target_at_eq fb n l r L' N H1' H4), (target_at_eq fb n l r L N H1 H2).
    fold maxY.
    pose proof (ramp_mono L L' N H3) as Hr.
    set (t := (L - 1) / Qcmax 1 (N - 1)) in *.
    set (t' := (L' - 1) / Qcmax 1 (N - 1)) in *.
    clearbody t t' maxY. split; intros Hd; to_Q; nra.
Qed.

(** C5 as first stated fails: with neutral height 0.8 and reach heights 0.2
    and 0.3, the target of level 1 of 3 is 0.71 and the target of level 2
    is 0.56, which is smaller. *)
Lemma target_decreases_when_reach_is_above_neutral :
  target_at LiveFeedback.constructor (stored_rom 0.8 0.2 0.3) 1 3 = 0.71 /\
  target_at LiveFeedback.constructor (stored_rom 0.8 0.2 0.3) 2 3 = 0.56 /\
  target_at LiveFeedback.constructor (stored_rom 0.8 0.2 0.3) 2 3 <
  target_at LiveFeedback.constructor (stored_rom 0.8 0.2 0.3) 1 3.
Proof.
  split; [qc_eval|]. split; [qc_eval|]. vm_compute. reflexivity.
Qed.

(** The three levels of that calibration. *)
Lemma target_ramps_towards_max_reach_witness :
  (1 : Qc) <= 2 /\ (2 : Qc) <= 3 /\
  target_at LiveFeedback.constructor (stored_rom 0.8 0.2 0.3) 3 3 =
    0.8 + 0.65 * (Qcmin 0.2 0.3 - 0.8).
Proof.
  assert (H1 : (1 : Qc) <= 2) by (vm_compute; discriminate).
  assert (H2 : (2 : Qc) <= 3) by (vm_compute; discriminate).
  split; [exact H1|]. split; [exact H2|].
  destruct (target_ramps_towards_max_reach LiveFeedback.constructor
              0.8 0.2 0.3 2 3 H1 H2) as (_ & _ & _ & H & _).
  apply H. exact H2.
Defined.

(** ** The shoulder-abduction feedback *)

Lemma showFeedback_keeps (fb : LiveFeedback.t) (msg ty : string) (now : Qc) :
  thresholds (LiveFeedback.showFeedback fb msg ty now) = thresholds fb /\
  LiveFeedback._upCounter (LiveFeedback.showFeedback fb msg ty now) =
    LiveFeedback._upCounter fb /\
  LiveFeedback._downCounter (LiveFeedback.showFeedback fb msg ty now) =
    LiveFeedback._downCounter fb.
Proof.
  unfold LiveFeedback.showFeedback.
  destruct (LiveFeedback.feedbackElement fb); [|repeat split].
  destruct (String.eqb msg ""); [repeat split|].
  destruct (Qclt_bool _ _); repeat split.
Qed.

(** A frame that reaches the height checks is classified by them. *)
Lemma provide_reaches (atan2 : Qc -> Qc -> Qc) (PI : Qc)
    (fb : LiveFeedback.t) lms now lw rw :
  reaches_height atan2 PI lms = Some (lw, rw) ->
  LiveFeedback.provideShoulderAbductionFeedback atan2 PI fb lms now =
  LiveFeedback.height_checks fb lw rw now.
Proof.
  unfold reaches_height, LiveFeedback.provideShoulderAbductionFeedback.
  destruct lms as [l|]; [|discriminate]. cbv zeta.
  destruct (negb (LiveFeedback.isVisible (at_ l 11)) ||
            negb (LiveFeedback.isVisible (at_ l 12))); [discriminate|].
  destruct (at_ l 11) as [ls|]; [|discriminate].
  destruct (at_ l 12) as [rs|]; [|discriminate].
  destruct (Qclt_bool 0.05 (Qcabs (y ls - y rs))); [discriminate|].
  match goal with |- context [if ?c then None else _] => destruct c end;
    [discriminate|].
  match goal with |- context [if ?c then None else _] => destruct c end;
    [discriminate|].
  match goal with |- context [if ?c then None else _] => destruct c end;
    [discriminate|].
  destruct (at_ l 15) as [lw'|]; [|discriminate].
  destruct (at_ l 16) as [rw'|]; [|discriminate].
  intros H. injection H as -> ->. reflexivity.
Qed.

(** A frame stopped by an earlier check leaves both counters and the
    thresholds alone, and what it says is never a success. *)
Lemma provide_stops (atan2 : Qc -> Qc -> Qc) (PI : Qc)
    (fb : LiveFeedback.t) lms now :
  reaches_height atan2 PI lms = None ->
  let r := LiveFeedback.provideShoulderAbductionFeedback atan2 PI fb lms now in
  thresholds (fst r) = thresholds fb /\
  LiveFeedback._upCounter (fst r) = LiveFeedback._upCounter fb /\
  LiveFeedback._downCounter (fst r) = LiveFeedback._downCounter fb /\
  (forall msg ty, snd r = Some (msg, ty) -> ty <> "success"%string).
Proof.
  assert (Hsay : forall msg ty,
            ty <> "success"%string ->
            let r := LiveFeedback.say fb msg ty now in
            thresholds (fst r) = thresholds fb /\
            LiveFeedback._upCounter (fst r) = LiveFeedback._upCounter fb /\
            LiveFeedback._downCounter (fst r) = LiveFeedback._downCounter fb /\
            (forall msg' ty', snd r = Some (msg', ty') -> ty' <> "success"%string)).
  { intros msg ty Hty. unfold LiveFeedback.say. cbn [fst snd].
    destruct (showFeedback_keeps fb msg ty now) as (A & B & C).
    repeat split; try assumption.
    intros msg' ty' H. injection H as _ <-. exact Hty. }
  assert (Hnone : thresholds fb = thresholds fb /\
            LiveFeedback._upCounter fb = LiveFeedback._upCounter fb /\
            LiveFeedback._downCounter fb = LiveFeedback._downCounter fb /\
            (forall msg ty, @None LiveFeedback.Call = Some (msg, ty) ->
                            ty <> "success"%string)).
  { repeat split. intros msg ty H. discriminate. }
  unfold reaches_height, LiveFeedback.provideShoulderAbductionFeedback.
  destruct lms as [l|]; [|intros _; exact Hnone]. cbv zeta.
  destruct (negb (LiveFeedback.isVisible (at_ l 11)) ||
            negb (LiveFeedback.isVisible (at_ l 12)));
    [intros _; apply Hsay; discriminate|].
  destruct (at_ l 11) as [ls|]; [|intros _; exact Hnone].
  destruct (at_ l 12) as [rs|]; [|intros _; exact Hnone].
  destruct (Qclt_bool 0.05 (Qcabs (y ls - y rs)));
    [intros _; apply Hsay; discriminate|].
  match goal with |- context [if ?c then None else _] => destruct c end;
    [intros _; apply Hsay; discriminate|].
  match goal with |- context [if ?c then None else _] => destruct c end;
    [intros _; apply Hsay; discriminate|].
  match goal with |- context [if ?c then None else _] => destruct c end;
    [intros _; apply Hsay; discriminate|].
  destruct (at_ l 15) as [lw|]; [|intros _; exact Hnone].
  destruct (at_ l 16) as [rw|]; [discriminate|intros _; exact Hnone].
Qed.

(** The height checks in phase [up]. *)
Lemma height_checks_up (fb : LiveFeedback.t) (lw rw : Point) (now : Qc) :
  LiveFeedback.phase fb = "up"%string ->
  let r := LiveFeedback.height_checks fb lw rw now in
  thresholds (fst r) = thresholds fb /\
  LiveFeedback._downCounter (fst r) = LiveFeedback._downCounter fb /\
  (if up_enough fb lw && up_enough fb rw
   then LiveFeedback._upCounter (fst r) = S (LiveFeedback._upCounter fb) /\
        snd r = (if (LiveFeedback.requireUpFrames fb <=? S (LiveFeedback._upCounter fb))%nat
                 then Some nice_height else None)
   else LiveFeedback._upCounter (fst r) = 0%nat /\
        snd r = Some (raise_message (up_enough fb lw) (up_enough fb rw),
                      "correction"%string)).
Proof.
  intros Hph. unfold LiveFeedback.height_checks. rewrite Hph.
  change (String.eqb "up" "waitDown") with false. cbv iota.
  fold (up_enough fb lw). fold (up_enough fb rw).
  unfold LiveFeedback.up_branch, raise_message.
  destruct (up_enough fb lw), (up_enough fb rw); cbn [negb andb].
  - cbv zeta.
    change (LiveFeedback.requireUpFrames
              (LiveFeedback.set_upCounter (S (LiveFeedback._upCounter fb)) fb))
      with (LiveFeedback.requireUpFrames fb).
    change (LiveFeedback._upCounter
              (LiveFeedback.set_upCounter (S (LiveFeedback._upCounter fb)) fb))
      with (S (LiveFeedback._upCounter fb)).
    destruct (LiveFeedback.requireUpFrames fb <=? S (LiveFeedback._upCounter fb))%nat.
    + unfold LiveFeedback.say. cbn [fst snd].
      destruct (showFeedback_keeps
                  (LiveFeedback.set_upCounter (S (LiveFeedback._upCounter fb)) fb)
                  "Nice height! Hold…" "success" now) as (A & B & C).
      repeat split; assumption.
    + repeat split.
  - unfold LiveFeedback.say. cbn [fst snd].
    destruct (showFeedback_keeps fb "Raise your right arm higher" "correction" now)
      as (A & B & C).
    repeat split; assumption.
  - unfold LiveFeedback.say. cbn [fst snd].
    destruct (showFeedback_keeps fb "Raise your left arm higher" "correction" now)
      as (A & B & C).
    repeat split; assumption.
  - unfold LiveFeedback.say. cbn [fst snd].
    destruct (showFeedback_keeps fb "Raise both arms higher" "correction" now)
      as (A & B & C).
    repeat split; assumption.
Qed.

Lemma up_enough_thresholds (fb fb' : LiveFeedback.t) (w : Point) :
  thresholds fb' = thresholds fb -> up_enough fb' w = up_enough fb w.
Proof.
  unfold thresholds, up_enough. intros H.
  assert (E : LiveFeedback.targetY fb' = LiveFeedback.targetY fb) by congruence.
  rewrite E. reflexivity.
Qed.

(** One frame in phase [up]: the thresholds stay, and the up-counter is
    advanced by the outcome of the height checks, when they are reached. *)
Lemma fb_step_up (atan2 : Qc -> Qc -> Qc) (PI : Qc) (fb : LiveFeedback.t) (f : FbFrame) :
  LiveFeedback.phase fb = "up"%string ->
  thresholds (fb_step atan2 PI fb f) = thresholds fb /\
  LiveFeedback._upCounter (fb_step atan2 PI fb f) =
    fold_left (fun c (b : bool) => if b then S c else 0%nat)
      (height_results atan2 PI fb [f]) (LiveFeedback._upCounter fb).
Proof.
  intros Hph. unfold fb_step, height_results. cbn [flat_map]. rewrite app_nil_r.
  destruct (reaches_height atan2 PI (fst f)) as [[lw rw]|] eqn:Hr.
  - rewrite (provide_reaches atan2 PI fb (fst f) (snd f) lw rw Hr).
    destruct (height_checks_up fb lw rw (snd f) Hph) as (A & _ & C).
    split; [exact A|]. cbn [fold_left].
    destruct (up_enough fb lw && up_enough fb rw); destruct C as (C & _); exact C.
  - destruct (provide_stops atan2 PI fb (fst f) (snd f) Hr) as (A & B & _).
    split; [exact A|exact B].
Qed.

Lemma height_results_thresholds (atan2 : Qc -> Qc -> Qc) (PI : Qc)
    (fb fb' : LiveFeedback.t) (fs : list FbFrame) :
  thresholds fb' = thresholds fb ->
  height_results atan2 PI fb' fs = height_results atan2 PI fb fs.
Proof.
  intros H. unfold height_results. induction fs as [|f fs IH]; [reflexivity|].
  cbn [flat_map]. rewrite IH.
  destruct (reaches_height atan2 PI (fst f)) as [[lw rw]|]; [|reflexivity].
  rewrite !(up_enough_thresholds fb fb' _ H). reflexivity.
Qed.

Lemma height_results_app (atan2 : Qc -> Qc -> Qc) (PI : Qc)
    (fb : LiveFeedback.t) (fs gs : list FbFrame) :
  height_results atan2 PI fb (fs ++ gs) =
  height_results atan2 PI fb fs ++ height_results atan2 PI fb gs.
Proof. unfold height_results. apply flat_map_app. Qed.

(** After a run in phase [up], the up-counter is the count left by the
    results of the frames that reached the height checks. *)
Lemma fb_run_up (atan2 : Qc -> Qc -> Qc) (PI : Qc) (fb : LiveFeedback.t)
    (fs : list FbFrame) :
  LiveFeedback.phase fb = "up"%string ->
  thresholds (fb_run atan2 PI fb fs) = thresholds fb /\
  LiveFeedback._upCounter (fb_run atan2 PI fb fs) =
    fold_left (fun c (b : bool) => if b then S c else 0%nat)
      (height_results atan2 PI fb fs) (LiveFeedback._upCounter fb).
Proof.
  intros Hph. induction fs as [|f fs IH] using rev_ind.
  - split; reflexivity.
  - destruct IH as (IT & IC).
    unfold fb_run in *. rewrite fold_left_app. cbn [fold_left].
    set (fbr := fold_left (fb_step atan2 PI) fs fb) in *.
    assert (Hph' : LiveFeedback.phase fbr = "up"%string)
      by (unfold thresholds in IT; congruence).
    destruct (fb_step_up atan2 PI fbr f Hph') as (ST & SC).
    split; [congruence|].
    rewrite SC, IC, height_results_app, fold_left_app.
    rewrite (height_results_thresholds atan2 PI fb fbr [f] IT). reflexivity.
Qed.

(** A list whose trailing count is at least [n] ends with [n] times [true]. *)
Lemma trailing_true_ends (l : list bool) (n : nat) :
  (n <= trailing_true l)%nat -> exists pre, l = pre ++ repeat true n.
Proof.
  unfold trailing_true. revert n. induction l as [|b l IH] using rev_ind; intros n.
  - simpl. intros H. assert (n = 0%nat) by lia. subst. exists []. reflexivity.
  - rewrite fold_left_app. cbn [fold_left]. destruct b.
    + destruct n as [|n].
      * intros _. exists (l ++ [true]). cbn [repeat]. now rewrite app_nil_r.
      * intros H. destruct (IH n) as (pre & E); [lia|].
        exists pre. rewrite E at 1. rewrite <- app_assoc. f_equal.
        change (true :: nil) with (repeat true 1). rewrite <- repeat_app.
        f_equal. lia.
    + intros H. assert (n = 0%nat) by lia. subst.
      exists (l ++ [false]). cbn [repeat]. now rewrite app_nil_r.
Qed.

(** C7, as amended.  In phase [up], only the frames that reach the height
    checks (those that pass the visibility, shoulder-level and elbow checks
    of the cascade) act on the up-counter.  Such a frame with both wrists at
    [y <= targetY + 0.02] adds one to the counter, and asks for the success
    cue exactly when the counter has reached [requireUpFrames]; such a frame
    with a wrist that fails the test sets the counter to zero and asks for
    the correction that names the faulty side, or both.  A frame stopped by
    an earlier check leaves the counter as it is and never asks for a
    success.  Hence, from a counter at zero, the success cue is only asked
    for when the last [requireUpFrames] frames that reached the height
    checks all had both wrists high enough. *)
Theorem up_cue_needs_run_of_checked_frames (atan2 : Qc -> Qc -> Qc) (PI : Qc)
    (fb : LiveFeedback.t) :
  LiveFeedback.phase fb = "up"%string ->
  (forall lms now lw rw,
     reaches_height atan2 PI lms = Some (lw, rw) ->
     let r := LiveFeedback.provideShoulderAbductionFeedback atan2 PI fb lms now in
     if up_enough fb lw && up_enough fb rw
     then LiveFeedback._upCounter (fst r) = S (LiveFeedback._upCounter fb) /\
          (snd r = Some nice_height <->
           (LiveFeedback.requireUpFrames fb <= S (LiveFeedback._upCounter fb))%nat)
     else LiveFeedback._upCounter (fst r) = 0%nat /\
          snd r = Some (raise_message (up_enough fb lw) (up_enough fb rw),
                        "correction"%string)) /\
  (forall lms now,
     reaches_height atan2 PI lms = None ->
     let r := LiveFeedback.provideShoulderAbductionFeedback atan2 PI fb lms now in
     LiveFeedback._upCounter (fst r) = LiveFeedback._upCounter fb /\
     snd r <> Some nice_height) /\
  (forall fs f,
     LiveFeedback._upCounter fb = 0%nat ->
     snd (LiveFeedback.provideShoulderAbductionFeedback atan2 PI
            (fb_run atan2 PI fb fs) (fst f) (snd f)) = Some nice_height ->
     exists pre,
       height_results atan2 PI fb (fs ++ [f]) =
       pre ++ repeat true (LiveFeedback.requireUpFrames fb)).
Proof.
  intros Hph. split; [|split].
  - intros lms now lw rw Hr r. unfold r.
    rewrite (provide_reaches atan2 PI fb lms now lw rw Hr).
    destruct (height_checks_up fb lw rw now Hph) as (_ & _ & C).
    destruct (up_enough fb lw && up_enough fb rw); destruct C as (C1 & C2).
    + split; [exact C1|]. rewrite C2.
      destruct (LiveFeedback.requireUpFrames fb <=? S (LiveFeedback._upCounter fb))%nat
        eqn:E.
      * apply Nat.leb_le in E. split; auto.
      * apply Nat.leb_gt in E. split; [discriminate|lia].
    + split; assumption.
  - intros lms now Hr r.
    destruct (provide_stops atan2 PI fb lms now Hr) as (_ & B & _ & D).
    split; [exact B|]. intros E. exact (D _ _ E eq_refl).
  - intros fs f H0 Hs.
    destruct (fb_run_up atan2 PI fb fs Hph) as (RT & RC).
    set (fbr := fb_run atan2 PI fb fs) in *.
    assert (Hph' : LiveFeedback.phase fbr = "up"%string)
      by (unfold thresholds in RT; congruence).
    assert (Hreq : LiveFeedback.requireUpFrames fbr = LiveFeedback.requireUpFrames fb)
      by (unfold thresholds in RT; congruence).
    apply trailing_true_ends. unfold trailing_true.
    rewrite height_results_app, fold_left_app.
    rewrite H0 in RC. rewrite <- RC.
    unfold height_results. cbn [flat_map]. rewrite app_nil_r.
    destruct (reaches_height atan2 PI (fst f)) as [[lw rw]|] eqn:Hr.
    + rewrite (provide_reaches atan2 PI fbr (fst f) (snd f) lw rw Hr) in Hs.
      destruct (height_checks_up fbr lw rw (snd f) Hph') as (_ & _ & C).
      rewrite <- !(up_enough_thresholds fb fbr _ RT).
      destruct (up_enough fbr lw && up_enough fbr rw); destruct C as (_ & C2).
      * cbn [fold_left]. rewrite C2, Hreq in Hs.
        destruct (LiveFeedback.requireUpFrames fb <=? S (LiveFeedback._upCounter fbr))%nat
          eqn:E; [|discriminate].
        now apply Nat.leb_le in E.
      * rewrite C2 in Hs. discriminate.
    + destruct (provide_stops atan2 PI fbr (fst f) (snd f) Hr) as (_ & _ & _ & D).
      exfalso. exact (D _ _ Hs eq_refl).
Qed.

(** C7 as first stated fails: after four frames with both arms up, a frame
    in which the shoulders are hidden and the left wrist is below the
    target leaves the up-counter at 4 and asks for a warning about the
    shoulders, not a correction about the arm; the next frame with the arms
    up then asks for the success cue, although the frame before it had a
    wrist below the target. *)
Lemma hidden_shoulders_frame_keeps_up_counter :
  let before := fb_run no_atan2 no_PI fb0 (firstn 4 up_hidden_up) in
  let after := fb_run no_atan2 no_PI fb0 up_hidden_up in
  up_enough fb0 {| x := 0.20; y := 0.90; visibility := Some (Q2Qc 0.9) |} = false /\
  LiveFeedback._upCounter before = 4%nat /\
  LiveFeedback._upCounter after = 4%nat /\
  snd (LiveFeedback.provideShoulderAbductionFeedback no_atan2 no_PI before
         (Some shoulders_hidden_arm_down) 1400) =
    Some ("Keep both shoulders visible"%string, "warning"%string) /\
  snd (LiveFeedback.provideShoulderAbductionFeedback no_atan2 no_PI after
         (Some arms_up) 1500) = Some nice_height.
Proof.
  cbv zeta. repeat split; vm_compute; reflexivity.
Qed.

(** The theorem of C7 on the default feedback object: five frames with the
    arms up bring the success cue. *)
Lemma up_cue_needs_run_of_checked_frames_witness :
  LiveFeedback.phase fb0 = "up"%string /\
  exists pre,
    height_results no_atan2 no_PI fb0
      ((firstn 4 up_hidden_up) ++ [(Some arms_up, Q2Qc 1400)]) =
    pre ++ repeat true (LiveFeedback.requireUpFrames fb0).
Proof.
  assert (H : LiveFeedback.phase fb0 = "up"%string) by reflexivity.
  split; [exact H|].
  destruct (up_cue_needs_run_of_checked_frames no_atan2 no_PI fb0 H) as (_ & _ & Hrun).
  apply Hrun; vm_compute; reflexivity.
Defined.

(** * Further properties of the calibration ladder *)

Lemma nth_map_seq (A : Type) (f : nat -> A) (d : A) (n i : nat) :
  (i < n)%nat -> nth i (map f (seq 0 n)) d = f i.
Proof.
  intros H. rewrite (nth_indep _ d (f 0%nat)) by (rewrite length_map, length_seq; exact H).
  rewrite map_nth. rewrite seq_nth by exact H. reflexivity.
Qed.

Lemma inject_nat_lt (i j : nat) :
  (i < j)%nat -> Q2Qc (inject_Z (Z.of_nat i)) < Q2Qc (inject_Z (Z.of_nat j)).
Proof.
  intros H. unfold Qclt. cbn [this Q2Qc]. rewrite !Qred_correct.
  rewrite <- Zlt_Qlt. lia.
Qed.

Lemma inject_nat_le (i j : nat) :
  (i <= j)%nat -> Q2Qc (inject_Z (Z.of_nat i)) <= Q2Qc (inject_Z (Z.of_nat j)).
Proof.
  intros H. unfold Qcle. cbn [this Q2Qc]. rewrite !Qred_correct.
  rewrite <- Zle_Qle. lia.
Qed.

(** A rung of the ladder that [create] builds is at the fraction
    [i / (count - 1)] of the way from [yBottom] to [yTop]. *)
Lemma create_rung (o : Opts) (i : nat) (yi : Qc) :
  (2 <= o_count o)%nat -> rung_at (create o) i yi ->
  let N := Q2Qc (inject_Z (Z.of_nat (o_count o))) - 1 in
  exists t,
    0 < N /\ t * N = Q2Qc (inject_Z (Z.of_nat i)) /\
    yi = o_yBottom o - t * (o_yBottom o - o_yTop o).
Proof.
  intros Hc (Hi & Ei) N. cbn [yList count create] in Hi, Ei.
  assert (Hn1 : (o_count o =? 1)%nat = false) by (apply Nat.eqb_neq; lia).
  assert (Hpos : 0 < N).
  { pose proof (inject_nat_lt 1 (o_count o) ltac:(lia)) as H.
    change (Q2Qc (inject_Z (Z.of_nat 1))) with (Q2Qc 1) in H.
    unfold N. revert H. to_Q. intros. lra. }
  assert (HN : N <> 0).
  { intros E. rewrite E in Hpos. revert Hpos. apply Qcle_not_lt, Qcle_refl. }
  rewrite nth_map_seq in Ei by lia.
  unfold rungY in Ei. rewrite Hn1 in Ei. fold N in Ei. injection Ei as <-.
  exists (Q2Qc (inject_Z (Z.of_nat i)) / N).
  split; [exact Hpos|]. split; [field; exact HN | reflexivity].
Qed.

(** X1.  The ladder that [create] builds on the screen, for at least two
    rungs: [count] rungs, the first at [yBottom], the last at [yTop] up to
    the margin [tol]; when [yTop] is not below [yBottom], no rung is below
    an earlier one and every rung is between [yBottom] and [yTop], up to
    the margin; and each rung is above the previous one (smaller y) when
    the rungs are [tol] apart or more. *)
Theorem create_ladder_geometry (o : Opts) :
  (2 <= o_count o)%nat -> unit (o_yTop o) -> unit (o_yBottom o) ->
  let g := create o in
  List.length (yList g) = count g /\
  nth 0 (yList g) None = Some (yBottom g) /\
  (exists yl, nth (count g - 1) (yList g) None = Some yl /\
              Qcabs (yl - yTop g) <= tol) /\
  (yTop g <= yBottom g ->
   (forall i j yi yj,
      (i <= j)%nat -> rung_at g i yi -> rung_at g j yj -> yj <= yi) /\
   (forall i yi, rung_at g i yi -> yTop g - tol <= yi /\ yi <= yBottom g)) /\
  (tol * (Q2Qc (inject_Z (Z.of_nat (count g))) - 1) <= yBottom g - yTop g ->
   forall i j yi yj, (i < j)%nat -> rung_at g i yi -> rung_at g j yj -> yj < yi).
Proof.
  intros Hc _ _ g.
  assert (Hn1 : (o_count o =? 1)%nat = false) by (apply Nat.eqb_neq; lia).
  assert (Hlast : Q2Qc (inject_Z (Z.of_nat (o_count o - 1))) =
                  Q2Qc (inject_Z (Z.of_nat (o_count o))) - 1).
  { apply Qc_is_canon. to_Q.
    replace (Z.of_nat (o_count o - 1)) with (Z.of_nat (o_count o) + -1)%Z by lia.
    rewrite inject_Z_plus. reflexivity. }
  pose proof tol_pos as Htol.
  split; [unfold g, create; cbn [yList count]; now rewrite length_map, length_seq|].
  split; [|split; [|split]].
  - assert (Hr : rung_at g 0 (o_yBottom o - 0 / (Q2Qc (inject_Z (Z.of_nat (o_count o))) - 1)
                                * (o_yBottom o - o_yTop o))).
    { split; [cbn [g create count]; lia|].
      cbn [g create yList]. rewrite nth_map_seq by lia.
      unfold rungY. rewrite Hn1. reflexivity. }
    destruct (create_rung o 0 _ Hc Hr) as (t & Hpos & Et & _).
    destruct Hr as (_ & ->). f_equal. cbn [g create yBottom].
    set (N := Q2Qc (inject_Z (Z.of_nat (o_count o))) - 1) in *.
    assert (HN : N <> 0).
    { intros E. rewrite E in Hpos. revert Hpos. apply Qcle_not_lt, Qcle_refl. }
    field. exact HN.
  - assert (Hi : (o_count o - 1 < o_count o)%nat) by lia.
    eexists. split.
    + cbn [g create yList count]. rewrite nth_map_seq by exact Hi.
      unfold rungY. rewrite Hn1. reflexivity.
    + rewrite Hlast. cbn [g create yTop].
      set (N := Q2Qc (inject_Z (Z.of_nat (o_count o))) - 1) in *.
      assert (Hpos : 0 < N).
      { pose proof (inject_nat_lt 1 (o_count o) ltac:(lia)) as H.
        change (Q2Qc (inject_Z (Z.of_nat 1))) with (Q2Qc 1) in H.
        unfold N. revert H. to_Q. intros. lra. }
      assert (HN : N <> 0).
      { intros E. rewrite E in Hpos. revert Hpos. apply Qcle_not_lt, Qcle_refl. }
      replace (o_yBottom o - N / N * (o_yBottom o - o_yTop o) - o_yTop o)
        with (Q2Qc 0) by (field; exact HN).
      rewrite Qcabs_pos by apply Qcle_refl. now apply Qclt_le_weak.
  - intros Hty. cbn [g create yTop yBottom] in Hty. split.
    + intros i j yi yj Hij Hri Hrj.
      pose proof (inject_nat_le i j Hij) as Hle.
      destruct (create_rung o i yi Hc Hri) as (ti & Hpos & Ei & ->).
      destruct (create_rung o j yj Hc Hrj) as (tj & _ & Ej & ->).
      rewrite <- Ei, <- Ej in Hle.
      set (N := Q2Qc (inject_Z (Z.of_nat (o_count o))) - 1) in *. clearbody N.
      set (yB := o_yBottom o) in *. set (yT := o_yTop o) in *. clearbody yB yT.
      clear - Hpos Hle Hty.
      assert (Ht : ti <= tj).
      { revert Hpos Hle. to_Q. intros. nra. }
      revert Ht Hty. to_Q. intros. nra.
    + intros i yi Hri.
      assert (H0 : (0 <= i)%nat) by lia.
      assert (H1 : (i <= o_count o - 1)%nat)
        by (destruct Hri as (Hi & _); cbn [g create count] in Hi; lia).
      apply inject_nat_le in H0, H1. rewrite Hlast in H1.
      change (Q2Qc (inject_Z (Z.of_nat 0))) with (Q2Qc 0) in H0.
      destruct (create_rung o i yi Hc Hri) as (ti & Hpos & Ei & ->).
      rewrite <- Ei in H0, H1. cbn [g create yTop yBottom].
      set (N := Q2Qc (inject_Z (Z.of_nat (o_count o))) - 1) in *. clearbody N.
      set (yB := o_yBottom o) in *. set (yT := o_yTop o) in *. clearbody yB yT.
      clear - Hpos H0 H1 Hty Htol.
      assert (Ht : 0 <= ti /\ ti <= 1).
      { split; revert Hpos H0 H1; to_Q; intros; nra. }
      destruct Ht as (Ha & Hb).
      split; revert Ha Hb Hty Htol; to_Q; intros; nra.
  - intros Hsep i j yi yj Hij Hri Hrj.
    cbn [g create yTop yBottom count] in Hsep.
    pose proof (inject_nat_lt i j Hij) as Hlt.
    destruct (create_rung o i yi Hc Hri) as (ti & Hpos & Ei & ->).
    destruct (create_rung o j yj Hc Hrj) as (tj & _ & Ej & ->).
    rewrite <- Ei, <- Ej in Hlt.
    set (N := Q2Qc (inject_Z (Z.of_nat (o_count o))) - 1) in *. clearbody N.
    set (yB := o_yBottom o) in *. set (yT := o_yTop o) in *. clearbody yB yT.
    clear - Hpos Hlt Hsep Htol.
    assert (Ht : ti < tj).
    { revert Hpos Hlt. to_Q. intros. nra. }
    assert (Hd : 0 < yB - yT).
    { revert Hpos Hsep Htol. to_Q. intros. nra. }
    revert Ht Hd. to_Q. intros. nra.
Qed.

(** The default ladder: eight rungs from 0.85 down to 0.12, the second
    above the first. *)
Lemma create_ladder_geometry_witness :
  (2 <= o_count defaults)%nat /\
  nth 0 (yList (create defaults)) None = Some (yBottom (create defaults)) /\
  exists y0 y1,
    rung_at (create defaults) 0 y0 /\ rung_at (create defaults) 1 y1 /\ y1 < y0.
Proof.
  assert (H : (2 <= o_count defaults)%nat) by (simpl; lia).
  assert (HT : unit (o_yTop defaults)) by (split; unfold Qcle; vm_compute; discriminate).
  assert (HB : unit (o_yBottom defaults)) by (split; unfold Qcle; vm_compute; discriminate).
  destruct (create_ladder_geometry defaults H HT HB) as (_ & H0 & _ & _ & Hup).
  split; [exact H|]. split; [exact H0|].
  assert (R0 : rung_at (create defaults) 0 (Q2Qc (17 # 20))).
  { split; [vm_compute; lia|]. vm_compute. first [reflexivity | f_equal; qc_eval]. }
  assert (R1 : rung_at (create defaults) 1 (Q2Qc (261 # 350))).
  { split; [vm_compute; lia|]. vm_compute. first [reflexivity | f_equal; qc_eval]. }
  exists (Q2Qc (17 # 20)), (Q2Qc (261 # 350)).
  split; [exact R0|]. split; [exact R1|].
  apply (Hup ltac:(unfold Qcle; vm_compute; discriminate) 0%nat 1%nat);
    [lia | exact R0 | exact R1].
Defined.






(** ** Clamping and smoothing *)

Lemma Qcmin_le_l (a b : Qc) : Qcmin a b <= a.
Proof.
  unfold Qcmin. destruct (Qcle_bool a b) eqn:E; [apply Qcle_refl|].
  apply Qclt_le_weak. now apply Qcle_bool_false.
Qed.

Lemma Qcmin_glb (a b c : Qc) : c <= a -> c <= b -> c <= Qcmin a b.
Proof. intros Ha Hb. unfold Qcmin. destruct (Qcle_bool a b); assumption. Qed.

Lemma Qcmax_lub (a b c : Qc) : a <= c -> b <= c -> Qcmax a b <= c.
Proof. intros Ha Hb. unfold Qcmax. destruct (Qcle_bool a b); assumption. Qed.

Lemma Qcmax_ge_r (a b : Qc) : b <= Qcmax a b.
Proof.
  unfold Qcmax. destruct (Qcle_bool a b) eqn:E; [apply Qcle_refl|].
  apply Qclt_le_weak. now apply Qcle_bool_false.
Qed.

Lemma zero_le_one : (0 : Qc) <= 1.
Proof. apply Qcle_bool_iff. reflexivity. Qed.

Lemma clamp01_unit (v : option Qc) : unit (clamp01 v).
Proof.
  unfold unit, clamp01. destruct v as [q|].
  - split; [apply Qcmax_ge_l|]. apply Qcmax_lub; [apply zero_le_one|apply Qcmin_le_l].
  - split; apply Qcle_bool_iff; reflexivity.
Qed.

(** X3.  [clamp01] always gives a number between 0 and 1: it leaves a number of
    that range as it is, sends a smaller one to 0 and a larger one to 1,
    and gives 0.5 for what is not a finite number. *)
Theorem clamp01_range (v : option Qc) :
  unit (clamp01 v) /\
  (forall q, v = Some q -> unit q -> clamp01 v = q) /\
  (forall q, v = Some q -> q <= 0 -> clamp01 v = 0) /\
  (forall q, v = Some q -> 1 <= q -> clamp01 v = 1) /\
  (v = None -> clamp01 v = 0.5).
Proof.
  split; [apply clamp01_unit|]. split; [|split; [|split]].
  - intros q -> (H0 & H1). unfold clamp01.
    rewrite (Qcmin_right 1 q H1). now apply Qcmax_right.
  - intros q -> H. unfold clamp01.
    assert (H1 : q <= 1) by (eapply Qcle_trans; [exact H|apply zero_le_one]).
    rewrite (Qcmin_right 1 q H1). now apply Qcmax_left.
  - intros q -> H. unfold clamp01.
    rewrite (Qcmin_left 1 q H). apply Qcmax_right. apply zero_le_one.
  - intros ->. reflexivity.
Qed.

(** X4.  The smoothing filter: the first point seeds it and a missing new point
    leaves it; otherwise each coordinate moves from the previous value
    towards the new one and, for a factor between 0 and 1, stays between
    the two; the visibility is that of the new point (1 when it has none). *)
Theorem ema_between (prev next : option Point) (a : Qc) :
  (next = None -> V2.ema prev next a = prev) /\
  (prev = None -> V2.ema prev next a = next) /\
  (forall p n, prev = Some p -> next = Some n -> 0 <= a -> a <= 1 ->
     exists s, V2.ema prev next a = Some s /\
       Qcmin (x p) (x n) <= x s /\ x s <= Qcmax (x p) (x n) /\
       Qcmin (y p) (y n) <= y s /\ y s <= Qcmax (y p) (y n) /\
       visibility s = Some (vis_or 1 next)).
Proof.
  split; [|split].
  - intros ->. reflexivity.
  - intros ->. destruct next; reflexivity.
  - intros p n -> -> H0 H1. eexists. split; [reflexivity|].
    cbn [x y visibility].
    assert (B : forall u v : Qc,
              Qcmin u v <= u + a * (v - u) /\ u + a * (v - u) <= Qcmax u v).
    { intros u v. unfold Qcmin, Qcmax.
      destruct (Qcle_bool u v) eqn:E.
      - apply Qcle_bool_iff in E. split; to_Q; nra.
      - apply Qcle_bool_false in E. split; to_Q; nra. }
    destruct (B (x p) (x n)) as (B1 & B2). destruct (B (y p) (y n)) as (B3 & B4).
    repeat split; assumption.
Qed.

(** Smoothing two points of the unit square with the factor of [update]. *)
Lemma ema_between_witness :
  (0 : Qc) <= 0.35 /\ (0.35 : Qc) <= 1 /\
  exists s,
    V2.ema (pt 0.18 0.43 0.9) (pt 0.25 0.50 0.8) 0.35 = Some s /\
    Qcmin 0.18 0.25 <= x s /\ x s <= Qcmax 0.18 0.25.
Proof.
  assert (H0 : (0 : Qc) <= 0.35) by (apply Qcle_bool_iff; reflexivity).
  assert (H1 : (0.35 : Qc) <= 1) by (apply Qcle_bool_iff; reflexivity).
  split; [exact H0|]. split; [exact H1|].
  destruct (ema_between (pt 0.18 0.43 0.9) (pt 0.25 0.50 0.8) 0.35) as (_ & _ & H).
  destruct (H _ _ eq_refl eq_refl H0 H1) as (s & E & B1 & B2 & _).
  exists s. split; [exact E|]. split; [exact B1|exact B2].
Defined.

(** ** The status, the hold timer and the saved rungs *)

Lemma status_contract (g1 : Grid) (side : Step.t) (p : Qc) :
  0 <= holdSeconds g1 ->
  let s := _status g1 side p in
  Status.ok s = true /\ Status.side s = side /\ Status.step s = step g1 /\
  unit (Status.progress s) /\
  Status.countdown s = holdSeconds g1 * (1 - Status.progress s) /\
  0 <= Status.countdown s.
Proof.
  intros Hh. unfold _status. cbn [Status.ok Status.side Status.step
    Status.progress Status.countdown].
  set (q := Qcmax 0 (Qcmin 1 p)).
  assert (Hq : unit q) by (split; [apply Qcmax_ge_l|apply Qcmax_min_le_1]).
  destruct Hq as (Q0 & Q1).
  assert (Hprod : 0 <= holdSeconds g1 * (1 - q)).
  { clearbody q. to_Q. nra. }
  rewrite (Qcmax_right 0 _ Hprod).
  repeat split; assumption.
Qed.

Lemma steadiness_return_status (tr : Tracked) :
  match steadiness tr with
  | Return g1 s => s = _status g1 (t_side tr) 0
  | Next _ _ => True
  end.
Proof.
  unfold steadiness. destruct (falsy_rung (t_active tr)); [reflexivity|exact I].
Qed.

Lemma completion_status (g1 : Grid) (side : Step.t) :
  0 <= holdSeconds g1 ->
  let g' := fst (completion g1 side) in
  let s := snd (completion g1 side) in
  Status.ok s = true /\ Status.side s = side /\ Status.step s = step g' /\
  unit (Status.progress s) /\
  Status.countdown s = holdSeconds g1 * (1 - Status.progress s) /\
  0 <= Status.countdown s.
Proof.
  intros Hh. unfold completion.
  destruct (Qcle_bool (holdSeconds g1) (_hold g1)).
  - cbv beta iota zeta. cbn [fst snd Status.ok Status.side Status.step
      Status.progress Status.countdown].
    split; [reflexivity|]. split; [reflexivity|]. split; [reflexivity|].
    split; [split; [apply zero_le_one|apply Qcle_refl]|].
    split; [ring|apply Qcle_refl].
  - cbv beta iota zeta. cbn [fst snd]. now apply status_contract.
Qed.

Lemma exit_status (g G1 : Grid) :
  conf G1 = conf g -> step G1 = step g -> 0 <= holdSeconds g ->
  let s := _status G1 (step G1) 0 in
  Status.ok s = true /\ Status.side s = step g /\ Status.step s = step G1 /\
  unit (Status.progress s) /\
  Status.countdown s = holdSeconds g * (1 - Status.progress s) /\
  0 <= Status.countdown s.
Proof.
  intros Hc Hs Hh.
  assert (E : holdSeconds G1 = holdSeconds g) by (unfold conf in Hc; congruence).
  rewrite <- E in *. rewrite <- Hs. now apply status_contract.
Qed.

(** X5.  Every status returned by [update], the one of a save included, has
    [ok], the side that was being calibrated, the step of the grid after
    the frame, a progress between 0 and 1 and, for a non-negative
    [holdSeconds], a countdown equal to [holdSeconds * (1 - progress)]. *)
Theorem every_status_progress_and_countdown (g : Grid) lm m now :
  0 <= holdSeconds g ->
  let g' := fst (update g lm m now) in
  let s := snd (update g lm m now) in
  Status.ok s = true /\ Status.side s = step g /\ Status.step s = step g' /\
  unit (Status.progress s) /\
  Status.countdown s = holdSeconds g * (1 - Status.progress s) /\
  0 <= Status.countdown s.
Proof.
  intros Hh.
  destruct (tracked g lm m now) as [tr|] eqn:Ht.
  - pose proof (tracked_kept _ _ _ _ _ Ht) as (Hc & _ & _ & _ & _ & Hside).
    unfold update. rewrite (tracked_some _ _ _ _ _ Ht).
    pose proof (steadiness_cases tr) as H1.
    pose proof (steadiness_return_status tr) as H2.
    destruct (steadiness tr) as [g1 s|g1 side].
    + destruct H1 as (C1 & _). subst s.
      assert (E : holdSeconds g1 = holdSeconds g) by (unfold conf in *; congruence).
      rewrite <- E in *. rewrite <- Hside.
      cbn [fst snd]. now apply status_contract.
    + destruct H1 as (C1 & _ & -> & _).
      assert (E : holdSeconds g1 = holdSeconds g) by (unfold conf in *; congruence).
      rewrite <- E in *. rewrite <- Hside. now apply completion_status.
  - revert Ht. unfold tracked, update, upto_hold.
    destruct lm as [l|];
      [|intros _; apply exit_status; [reflexivity|reflexivity|exact Hh]].
    destruct (at_ l 15) as [p15|];
      [|intros _; apply exit_status; [reflexivity|reflexivity|exact Hh]].
    destruct (at_ l 16) as [p16|];
      [|intros _; apply exit_status; [reflexivity|reflexivity|exact Hh]].
    destruct (needsHips g && negb (hipsOK g l));
      [intros _; cbv beta iota zeta; cbn [fst snd];
       apply exit_status; [reflexivity|reflexivity|exact Hh]|].
    cbv beta zeta. rewrite !vOK_push_neutral.
    destruct (negb (vOK g (Some p15)) || negb (vOK g (Some p16))); [|discriminate].
    intros _. cbv beta iota zeta. cbn [fst snd].
    apply exit_status; [reflexivity|reflexivity|exact Hh].
Qed.

(** The status of the frame that saves the left rung of the default
    ladder. *)
Lemma every_status_progress_and_countdown_witness :
  0 <= holdSeconds held6 /\
  Status.countdown (snd (update held6 (Some on_rung5) true 6500)) =
    holdSeconds held6 *
    (1 - Status.progress (snd (update held6 (Some on_rung5) true 6500))).
Proof.
  assert (H : 0 <= holdSeconds held6) by (vm_compute; discriminate).
  split; [exact H|].
  exact (proj1 (proj2 (proj2 (proj2 (proj2
           (every_status_progress_and_countdown held6 (Some on_rung5) true 6500 H)))))).
Defined.

Lemma rung_neq_refl (a : option nat) : rung_neq a a = false.
Proof. destruct a as [n|]; simpl; [|reflexivity]. now rewrite Nat.eqb_refl. Qed.

Lemma track_dt (g : Grid) (p15 p16 : Point) (m : bool) (now : Qc) :
  t_dt (track g p15 p16 m now) = elapsed g now.
Proof. reflexivity. Qed.

Lemma elapsed_push_neutral (v : Qc) (g : Grid) (now : Qc) :
  elapsed (push_neutral v g) now = elapsed g now.
Proof. reflexivity. Qed.

Lemma tracked_dt (g : Grid) lm m now tr :
  tracked g lm m now = Some tr -> t_dt tr = elapsed g now.
Proof.
  unfold tracked.
  destruct lm as [l|]; [|discriminate].
  destruct (at_ l 15) as [p15|]; [|discriminate].
  destruct (at_ l 16) as [p16|]; [|discriminate].
  destruct (needsHips g && negb (hipsOK g l)); [discriminate|].
  destruct (negb (vOK g (Some p15)) || negb (vOK g (Some p16))); [discriminate|].
  cbv beta zeta. intros H. injection H as <-.
  rewrite track_dt. apply elapsed_push_neutral.
Qed.

Lemma elapsed_nonneg (g : Grid) (now : Qc) :
  (forall t0, _lastTs g = Some t0 -> t0 <= now) -> 0 <= elapsed g now.
Proof.
  intros H. unfold elapsed.
  destruct (_lastTs g) as [t0|]; cbn [truthy_ts]; [|apply Qcle_refl].
  destruct (negb (Qceq_bool t0 0)); [|apply Qcle_refl].
  specialize (H t0 eq_refl).
  assert (E : (now - t0) / 1000 * 1000 = now - t0).
  { field. intros E. apply Qc_eq_Qeq in E. vm_compute in E. discriminate. }
  set (d := (now - t0) / 1000) in *. clearbody d.
  apply Qc_eq_Qeq in E. revert E H. to_Q. intros E H. lra.
Qed.

(** X6.  While the hand stays on the rung that is already the candidate, a
    tracked frame never takes time off the hold timer: with a clock that
    does not run backwards the accumulated hold is the old one, or the old
    one plus the time since the previous tracked frame, and it is the latter
    exactly when the steady count has reached [kFrames]. *)
Theorem hold_timer_never_decreases_on_candidate
    (g : Grid) lm m now (tr : Tracked) :
  tracked g lm m now = Some tr ->
  falsy_rung (t_active tr) = false ->
  t_active tr = _candidate g ->
  (forall t0, _lastTs g = Some t0 -> t0 <= now) ->
  exists h,
    accumulated g lm m now = Some h /\
    _hold g <= h /\
    (h = _hold g \/ h = _hold g + elapsed g now) /\
    ((kFrames g <= S (_kOn g))%nat -> speed_le (t_spd tr) (maxSpeedPerSec g) = true ->
     h = _hold g + elapsed g now).
Proof.
  intros Ht Hf Hc Hclock.
  destruct (tracked_kept _ _ _ _ _ Ht) as (Hconf & _ & Hk & Hh & Hcand & _).
  pose proof (tracked_dt _ _ _ _ _ Ht) as Hdt.
  pose proof (tracked_some _ _ _ _ _ Ht) as Hu.
  pose proof (elapsed_nonneg g now Hclock) as Hpos.
  destruct (steadiness_hit tr Hf) as (g1 & Hs & _ & Hhold).
  assert (HkF : kFrames (t_grid tr) = kFrames g)
    by (unfold conf in Hconf; congruence).
  assert (HmS : maxSpeedPerSec (t_grid tr) = maxSpeedPerSec g)
    by (unfold conf in Hconf; congruence).
  rewrite Hcand, <- Hc, rung_neq_refl in Hhold. cbn [negb] in Hhold.
  rewrite Hh, Hk, HkF, HmS, Hdt in Hhold.
  exists (_hold g1). split.
  { unfold accumulated. rewrite Hu, Hs. reflexivity. }
  rewrite Hhold. clear Hhold Hs Hu.
  set (e := elapsed g now) in *. clearbody e.
  set (h := _hold g) in *. clearbody h.
  destruct (speed_le (t_spd tr) (maxSpeedPerSec g)) eqn:Hsp.
  - destruct (kFrames g <=? S (_kOn g))%nat eqn:Hle.
    + split; [|split; [right; reflexivity | reflexivity]].
      revert Hpos. to_Q. intros. lra.
    + split; [apply Qcle_refl|]. split; [left; reflexivity|].
      intros Hge. apply Nat.leb_gt in Hle. lia.
  - destruct (kFrames g <=? _kOn g)%nat eqn:Hle.
    + split; [|split; [right; reflexivity | reflexivity]].
      revert Hpos. to_Q. intros. lra.
    + split; [apply Qcle_refl|]. split; [left; reflexivity|].
      intros _ Hx. discriminate.
Qed.

(** A run of X6: the seventh frame on rung 5, which is the candidate. *)
Lemma hold_timer_never_decreases_on_candidate_witness :
  exists tr h,
    tracked held6 (Some on_rung5) true 1600 = Some tr /\
    t_active tr = _candidate held6 /\
    accumulated held6 (Some on_rung5) true 1600 = Some h /\
    _hold held6 <= h.
Proof.
  eassert (H1 : tracked held6 (Some on_rung5) true 1600 = Some _)
    by (vm_compute; reflexivity).
  match type of H1 with _ = Some ?t => exists t end.
  assert (Hc : forall t0, _lastTs held6 = Some t0 -> t0 <= 1600).
  { intros t0 H. vm_compute in H. injection H as <-.
    unfold Qcle. vm_compute. discriminate. }
  destruct (hold_timer_never_decreases_on_candidate held6 (Some on_rung5) true
              1600 _ H1 eq_refl ltac:(vm_compute; reflexivity) Hc)
    as (h & Ha & Hle & _).
  exists h. split; [exact H1|]. split; [vm_compute; reflexivity|].
  split; [exact Ha | exact Hle].
Defined.

(** ** Smoothing and reach *)

Lemma reach_min (g : Grid) (sL sR : Point) :
  let g' := reach g sL sR in
  _minYLeft g' = lower (y sL) (_minYLeft g) /\
  _minYRight g' = lower (y sR) (_minYRight g) /\
  _sL g' = _sL g /\ _sR g' = _sR g /\ _lastTs g' = _lastTs g.
Proof.
  unfold reach, lower. cbv zeta.
  destruct (Qclt_bool (y sL) (_minYLeft g)) eqn:HL.
  - change (_minYRight (set_maxRungL (Some (_nearestRung g (y sL)))
                                     (set_minYLeft (y sL) g)))
      with (_minYRight g).
    destruct (Qclt_bool (y sR) (_minYRight g)); repeat split.
  - destruct (Qclt_bool (y sR) (_minYRight g)); repeat split.
Qed.

Lemma hit_test_min (g : Grid) (sL sR : Point) :
  let g' := hit_test g sL sR in
  _minYLeft g' = _minYLeft g /\ _minYRight g' = _minYRight g /\
  _lastTs g' = _lastTs g.
Proof. unfold hit_test. cbv zeta. repeat split. Qed.

(** What tracking writes: the smoothed points are the moving averages of
    the normalised wrists, each reach extreme is lowered to its smoothed
    height, and the clock is stored. *)
Lemma track_motion (g : Grid) (p15 p16 : Point) (m : bool) (now : Qc) :
  let g' := t_grid (track g p15 p16 m now) in
  exists sL sR,
    V2.ema (_sL g) (Some (nrm m p15)) 0.35 = Some sL /\
    V2.ema (_sR g) (Some (nrm m p16)) 0.35 = Some sR /\
    _sL g' = Some sL /\ _sR g' = Some sR /\
    _minYLeft g' = lower (y sL) (_minYLeft g) /\
    _minYRight g' = lower (y sR) (_minYRight g) /\
    _lastTs g' = Some now.
Proof.
  unfold track. cbv beta iota zeta delta [t_grid].
  set (g1 := smooth g (nrm m p15) (nrm m p16) now).
  assert (M1 : _minYLeft g1 = _minYLeft g /\ _minYRight g1 = _minYRight g /\
               _lastTs g1 = Some now) by (repeat split).
  destruct (ema_some (_sL g) (nrm m p15) 0.35) as (sL & EL).
  destruct (ema_some (_sR g) (nrm m p16) 0.35) as (sR & ER).
  assert (L1 : _sL g1 = Some sL) by exact EL.
  assert (R1 : _sR g1 = Some sR) by exact ER.
  clearbody g1. rewrite L1, R1.
  destruct (hit_test_shape g1 sL sR) as (_ & L2 & R2 & _).
  destruct (hit_test_min g1 sL sR) as (A2 & B2 & T2).
  set (g2 := hit_test g1 sL sR) in *. clearbody g2.
  destruct (reach_min g2 sL sR) as (A3 & B3 & L3 & R3 & T3).
  set (g3 := reach g2 sL sR) in *. clearbody g3.
  destruct M1 as (A1 & B1 & T1).
  exists sL, sR.
  split; [exact EL|]. split; [exact ER|].
  split; [congruence|]. split; [congruence|].
  split; [congruence|]. split; congruence.
Qed.

Lemma tracked_part_fields (g g' : Grid) :
  tracked_part g' = tracked_part g ->
  _sL g' = _sL g /\ _sR g' = _sR g /\ _minYLeft g' = _minYLeft g /\
  _minYRight g' = _minYRight g /\ _lastTs g' = _lastTs g.
Proof. unfold tracked_part. intros H. repeat split; congruence. Qed.

(** The same for a whole tracked frame. *)
Lemma update_tracked_motion (g : Grid) l m now tr p15 p16 :
  tracked g (Some l) m now = Some tr ->
  at_ l 15 = Some p15 -> at_ l 16 = Some p16 ->
  let g' := fst (update g (Some l) m now) in
  exists sL sR,
    V2.ema (_sL g) (Some (nrm m p15)) 0.35 = Some sL /\
    V2.ema (_sR g) (Some (nrm m p16)) 0.35 = Some sR /\
    _sL g' = Some sL /\ _sR g' = Some sR /\
    _minYLeft g' = lower (y sL) (_minYLeft g) /\
    _minYRight g' = lower (y sR) (_minYRight g) /\
    _lastTs g' = Some now.
Proof.
  intros Ht E15 E16.
  pose proof (update_tracked_part _ _ _ _ _ Ht) as Hp.
  apply tracked_part_fields in Hp.
  destruct Hp as (HL & HR & HA & HB & HT).
  cbv zeta. set (g' := fst (update g (Some l) m now)) in *. clearbody g'.
  revert Ht. unfold tracked. rewrite E15, E16.
  destruct (needsHips g && negb (hipsOK g l)); [discriminate|].
  destruct (negb (vOK g (Some p15)) || negb (vOK g (Some p16))); [discriminate|].
  cbv beta zeta.
  match goal with |- context [push_neutral ?v g] => set (g0 := push_neutral v g) end.
  assert (M0 : _sL g0 = _sL g /\ _sR g0 = _sR g /\
               _minYLeft g0 = _minYLeft g /\ _minYRight g0 = _minYRight g)
    by (repeat split).
  clearbody g0. destruct M0 as (L0 & R0 & A0 & B0).
  intros Ht. injection Ht as <-.
  destruct (track_motion g0 p15 p16 m now)
    as (sL & sR & EL & ER & L1 & R1 & A1 & B1 & T1).
  set (tr := track g0 p15 p16 m now) in *. clearbody tr.
  exists sL, sR. rewrite <- L0, <- R0, <- A0, <- B0.
  split; [exact EL|]. split; [exact ER|].
  split; [congruence|]. split; [congruence|].
  split; [congruence|]. split; congruence.
Qed.

Lemma lower_le (py minY : Qc) : lower py minY <= minY /\ lower py minY <= py.
Proof.
  unfold lower. destruct (Qclt_bool py minY) eqn:H.
  - apply Qclt_bool_true in H. split; [apply Qclt_le_weak; exact H | apply Qcle_refl].
  - apply Qclt_bool_false in H. split; [apply Qcle_refl | exact H].
Qed.

Lemma tracked_wrists (g : Grid) lm m now tr :
  tracked g lm m now = Some tr ->
  exists l p15 p16, lm = Some l /\ at_ l 15 = Some p15 /\ at_ l 16 = Some p16.
Proof.
  unfold tracked.
  destruct lm as [l|]; [|discriminate].
  destruct (at_ l 15) as [p15|] eqn:E15; [|discriminate].
  destruct (at_ l 16) as [p16|] eqn:E16; [|discriminate].
  intros _. exists l, p15, p16.
  split; [reflexivity|]. split; [exact E15 | exact E16].
Qed.

(** One frame either leaves a hand's smoothed point and reach extreme alone
    or gives it a smoothed point and lowers the extreme to its height. *)
Lemma update_reach (side : Step.t) (g : Grid) lm m now :
  let g' := fst (update g lm m now) in
  (hand_point side g' = hand_point side g /\ reach_of side g' = reach_of side g) \/
  (exists p, hand_point side g' = Some p /\
             reach_of side g' = lower (y p) (reach_of side g)).
Proof.
  cbv zeta. destruct (tracked g lm m now) as [tr|] eqn:Ht.
  - right. destruct (tracked_wrists _ _ _ _ _ Ht) as (l & p15 & p16 & -> & E15 & E16).
    destruct (update_tracked_motion _ _ _ _ _ _ _ Ht E15 E16)
      as (sL & sR & _ & _ & HL & HR & HA & HB & _).
    unfold hand_point, reach_of.
    destruct (Step.eqb side Step.left); [exists sL | exists sR]; split; assumption.
  - left. pose proof (update_untracked_part _ _ _ _ Ht) as Hp.
    apply tracked_part_fields in Hp. destruct Hp as (HL & HR & HA & HB & _).
    unfold hand_point, reach_of.
    destruct (Step.eqb side Step.left); split; assumption.
Qed.

Lemma run_cons (g : Grid) (f : Frame) (fs : list Frame) :
  run g (f :: fs) = run (step_frame g f) fs.
Proof. reflexivity. Qed.

Lemma run_app (g : Grid) (fs1 fs2 : list Frame) :
  run g (fs1 ++ fs2) = run (run g fs1) fs2.
Proof. unfold run. apply fold_left_app. Qed.

Lemma run_reach_le (side : Step.t) (fs : list Frame) (g : Grid) :
  reach_of side (run g fs) <= reach_of side g.
Proof.
  revert g. induction fs as [|f fs IH]; intros g; [apply Qcle_refl|].
  rewrite run_cons. eapply Qcle_trans; [apply IH|].
  unfold step_frame.
  destruct (update_reach side g (f_lm f) (f_mirror f) (f_now f))
    as [(_ & ->) | (p & _ & ->)]; [apply Qcle_refl | apply lower_le].
Qed.

Lemma update_covers (g : Grid) lm m now :
  covers g -> covers (fst (update g lm m now)).
Proof.
  intros Hc side p Hp.
  destruct (update_reach side g lm m now) as [(E1 & E2) | (q & E1 & E2)].
  - rewrite E2. apply Hc. now rewrite <- E1.
  - rewrite E2. rewrite E1 in Hp. injection Hp as <-. apply lower_le.
Qed.

Lemma run_covers (fs : list Frame) (g : Grid) : covers g -> covers (run g fs).
Proof.
  revert g. induction fs as [|f fs IH]; intros g Hc; [exact Hc|].
  rewrite run_cons. apply IH. now apply update_covers.
Qed.

Lemma create_covers (o : Opts) : covers (create o).
Proof. intros side p. unfold hand_point. destruct (Step.eqb side Step.left); discriminate. Qed.

Lemma create_reach (side : Step.t) (o : Opts) : reach_of side (create o) = 1.
Proof. unfold reach_of. destruct (Step.eqb side Step.left); reflexivity. Qed.

(** X7.  The reach extreme of a hand is a running minimum over the whole
    session, whichever hand is being calibrated: after any frames on a new
    grid it is at or above (not greater than) the smoothed height that hand
    had after every prefix of the frames, and it is the initial 1 or one of
    those heights. *)
Theorem max_reach_is_highest_smoothed_point
    (o : Opts) (fs : list Frame) (side : Step.t) :
  let g := run (create o) fs in
  (forall fs1 fs2 p, fs = fs1 ++ fs2 ->
     hand_point side (run (create o) fs1) = Some p -> reach_of side g <= y p) /\
  (reach_of side g = 1 \/
   exists fs1 fs2 p, fs = fs1 ++ fs2 /\
     hand_point side (run (create o) fs1) = Some p /\ reach_of side g = y p).
Proof.
  cbv zeta. split.
  - intros fs1 fs2 p -> Hp. rewrite run_app.
    eapply Qcle_trans; [apply run_reach_le|].
    apply (run_covers fs1 (create o) (create_covers o)). exact Hp.
  - induction fs as [|f fs IH] using rev_ind.
    + left. apply create_reach.
    + rewrite run_snoc. unfold step_frame.
      destruct (update_reach side (run (create o) fs) (f_lm f) (f_mirror f) (f_now f))
        as [(E1 & E2) | (q & E1 & E2)].
      * rewrite E2. destruct IH as [IH | (fs1 & fs2 & p & -> & Hp & E)].
        -- left. exact IH.
        -- right. exists fs1, (fs2 ++ [f]), p.
           split; [now rewrite app_assoc|]. split; assumption.
      * rewrite E2. unfold lower.
        destruct (Qclt_bool (y q) (reach_of side (run (create o) fs))).
        -- right. exists (fs ++ [f]), nil, q.
           split; [now rewrite app_nil_r|]. split; [|reflexivity].
           rewrite run_snoc. exact E1.
        -- destruct IH as [IH | (fs1 & fs2 & p & -> & Hp & E)].
           ++ left. exact IH.
           ++ right. exists fs1, (fs2 ++ [f]), p.
              split; [now rewrite app_assoc|]. split; assumption.
Qed.

(** ** Everything stays in the unit square *)

Lemma nrm_unit (m : bool) (p : Point) : in_unit_square (nrm m p).
Proof. split; apply clamp01_unit. Qed.

Lemma blend_unit (u v : Qc) : unit u -> unit v -> unit (u + 0.35 * (v - u)).
Proof.
  unfold unit. intros (U0 & U1) (V0 & V1).
  split; revert U0 U1 V0 V1; to_Q; intros; lra.
Qed.

Lemma ema_unit (prev : option Point) (n s : Point) :
  (forall p, prev = Some p -> in_unit_square p) -> in_unit_square n ->
  V2.ema prev (Some n) 0.35 = Some s -> in_unit_square s.
Proof.
  intros Hp Hn. unfold V2.ema. destruct prev as [p|].
  - intros H. injection H as <-. destruct (Hp p eq_refl) as (Px & Py).
    destruct Hn as (Nx & Ny). split; cbn [x y]; now apply blend_unit.
  - intros H. injection H as <-. exact Hn.
Qed.

Lemma lower_unit (py minY : Qc) : unit py -> unit minY -> unit (lower py minY).
Proof. intros H1 H2. unfold lower. now destruct (Qclt_bool py minY). Qed.

Lemma Qcmax_unit (a b : Qc) : unit a -> unit b -> unit (Qcmax a b).
Proof. intros H1 H2. unfold Qcmax. now destruct (Qcle_bool a b). Qed.

Lemma hip_samples_unit (g : Grid) lm : Forall unit (hip_samples g lm).
Proof.
  unfold hip_samples. destruct lm as [l|]; [|constructor].
  destruct (at_ l 15); [|constructor]. destruct (at_ l 16); [|constructor].
  destruct (needsHips g && negb (hipsOK g l)); constructor; [|constructor].
  apply Qcmax_unit; apply clamp01_unit.
Qed.

Lemma update_normalized (g : Grid) lm m now :
  normalized g -> normalized (fst (update g lm m now)).
Proof.
  intros (HL & HR & HA & HB & HP).
  pose proof (update_pool g lm m now) as Epool.
  pose proof (hip_samples_unit g lm) as Hhip.
  destruct (tracked g lm m now) as [tr|] eqn:Ht.
  - destruct (tracked_wrists _ _ _ _ _ Ht) as (l & p15 & p16 & -> & E15 & E16).
    destruct (update_tracked_motion _ _ _ _ _ _ _ Ht E15 E16)
      as (sL & sR & EL & ER & L1 & R1 & A1 & B1 & _).
    destruct (tracked_hit _ _ _ _ _ Ht) as (p & Hp & _ & _ & Hy).
    unfold miss_samples in Epool. rewrite Ht in Epool.
    set (g' := fst (update g (Some l) m now)) in *. clearbody g'.
    pose proof (ema_unit _ _ _ HL (nrm_unit m p15) EL) as UL.
    pose proof (ema_unit _ _ _ HR (nrm_unit m p16) ER) as UR.
    assert (Up : in_unit_square p).
    { unfold hand_point in Hp. destruct (Step.eqb (step g) Step.left); congruence. }
    unfold normalized. rewrite L1, R1, A1, B1, Epool.
    split; [intros q H; injection H as <-; exact UL|].
    split; [intros q H; injection H as <-; exact UR|].
    split; [apply lower_unit; [apply UL | exact HA]|].
    split; [apply lower_unit; [apply UR | exact HB]|].
    apply Forall_app. split; [exact HP|]. apply Forall_app. split; [exact Hhip|].
    destruct (falsy_rung (t_active tr)); constructor; [|constructor].
    rewrite Hy. apply Up.
  - pose proof (update_untracked_part _ _ _ _ Ht) as Hp.
    apply tracked_part_fields in Hp. destruct Hp as (L1 & R1 & A1 & B1 & _).
    unfold miss_samples in Epool. rewrite Ht in Epool.
    set (g' := fst (update g lm m now)) in *. clearbody g'.
    unfold normalized. rewrite L1, R1, A1, B1, Epool.
    split; [exact HL|]. split; [exact HR|]. split; [exact HA|]. split; [exact HB|].
    apply Forall_app. split; [exact HP|]. apply Forall_app. split; [exact Hhip|].
    constructor.
Qed.

Lemma run_normalized (fs : list Frame) (g : Grid) :
  normalized g -> normalized (run g fs).
Proof.
  revert g. induction fs as [|f fs IH]; intros g H; [exact H|].
  rewrite run_cons. apply IH. now apply update_normalized.
Qed.

Lemma create_normalized (o : Opts) : normalized (create o).
Proof.
  unfold normalized.
  split; [discriminate|]. split; [discriminate|].
  assert (U1 : unit 1) by (split; [apply zero_le_one | apply Qcle_refl]).
  split; [exact U1|]. split; [exact U1|]. constructor.
Qed.

Lemma inject_S (n : nat) :
  (inject_Z (Z.of_nat (S n)) : Qc) = Q2Qc (inject_Z (Z.of_nat n)) + 1.
Proof.
  apply Qc_is_canon. to_Q.
  replace (Z.of_nat (S n)) with (Z.of_nat n + 1)%Z by lia.
  rewrite inject_Z_plus. reflexivity.
Qed.

Lemma sum_bounds (l : list Qc) (a : Qc) :
  Forall unit l ->
  a <= fold_left Qcplus l a /\
  fold_left Qcplus l a <= a + Q2Qc (inject_Z (Z.of_nat (List.length l))).
Proof.
  intros H. revert a. induction H as [|q l (Q0 & Q1) _ IH]; intros a.
  - cbn [fold_left List.length]. split; [apply Qcle_refl|].
    to_Q. change (inject_Z (Z.of_nat 0)) with 0%Q. lra.
  - cbn [fold_left List.length]. destruct (IH (a + q)) as (I0 & I1).
    rewrite inject_S.
    set (n := Q2Qc (inject_Z (Z.of_nat (List.length l)))) in *. clearbody n.
    set (s := fold_left Qcplus l (a + q)) in *. clearbody s.
    split; revert Q0 Q1 I0 I1; to_Q; intros; lra.
Qed.

Lemma mean_unit (l : list Qc) :
  l <> [] -> Forall unit l ->
  unit (sum l / Q2Qc (inject_Z (Z.of_nat (List.length l)))).
Proof.
  intros Hne H. destruct (sum_bounds l 0 H) as (S0 & S1).
  fold (sum l) in S0, S1.
  assert (Hn : 1 <= Q2Qc (inject_Z (Z.of_nat (List.length l)))).
  { destruct l as [|q l]; [contradiction|]. cbn [List.length]. rewrite inject_S.
    assert (0 <= Q2Qc (inject_Z (Z.of_nat (List.length l)))).
    { to_Q. change 0%Q with (inject_Z 0). rewrite <- Zle_Qle. lia. }
    revert H0. to_Q. intros. lra. }
  set (n := Q2Qc (inject_Z (Z.of_nat (List.length l)))) in *. clearbody n.
  set (s := sum l) in *. clearbody s.
  assert (E : s / n * n = s).
  { field. intros E. rewrite E in Hn. revert Hn. to_Q. intros. lra. }
  set (q := s / n) in *. clearbody q.
  apply Qc_eq_Qeq in E. unfold unit.
  split; revert E S0 S1 Hn; to_Q; intros; nra.
Qed.

(** X8.  Every position a session keeps is normalised: after any frames on
    a new grid the smoothed points, the reach extremes and the neutral
    samples are within [0, 1], so the record to be stored has both max-reach
    heights in that range, and its neutral height too when a sample was
    taken; with no sample the neutral height is the configured [yBottom]. *)
Theorem session_values_stay_in_unit_range (o : Opts) (fs : list Frame) (t : Qc) :
  let g := run (create o) fs in
  let r := Payload.rom (payload_of g t) in
  normalized g /\
  unit (Payload.maxReachLeftY r) /\ unit (Payload.maxReachRightY r) /\
  (neutralSamples (_rom g) <> [] -> unit (Payload.neutralY r)) /\
  (neutralSamples (_rom g) = [] -> Payload.neutralY r = o_yBottom o).
Proof.
  cbv zeta.
  pose proof (run_normalized fs (create o) (create_normalized o)) as Hn.
  pose proof (run_conf fs (create o)) as Hc.
  set (g := run (create o) fs) in *. clearbody g.
  split; [exact Hn|].
  destruct Hn as (_ & _ & HA & HB & HP).
  split; [exact HA|]. split; [exact HB|].
  cbn [Payload.rom payload_of Payload.neutralY]. unfold neutral_of. cbv zeta.
  split.
  - intros Hne. destruct (neutralSamples (_rom g)) as [|q l] eqn:E; [contradiction|].
    apply mean_unit; [discriminate | exact HP].
  - intros ->. unfold conf in Hc.
    assert (E : yBottom g = yBottom (create o)) by congruence.
    rewrite E. reflexivity.
Qed.

(** ** After the left step *)

Lemma update_after_left (g : Grid) lm m now :
  step g <> Step.left ->
  step (fst (update g lm m now)) <> Step.left /\
  leftSaved (fst (update g lm m now)) = leftSaved g.
Proof.
  intros Hs.
  destruct (update_step_cases g lm m now) as [(_ & E1 & E2 & _) | (_ & _ & H)].
  - split; [now rewrite E1 | exact E2].
  - destruct (step g); [contradiction| |]; destruct H as (E1 & _ & _ & E2);
      (split; [rewrite E1; discriminate | exact E2]).
Qed.

(** X9.  The left rung is final once the left step is over: from a grid
    whose step is not [left], no sequence of frames brings the step back to
    [left] or changes [leftSaved]. *)
Theorem left_rung_is_final_after_left_step (g : Grid) (fs : list Frame) :
  step g <> Step.left ->
  step (run g fs) <> Step.left /\ leftSaved (run g fs) = leftSaved g.
Proof.
  revert g. induction fs as [|f fs IH]; intros g Hs; [split; [exact Hs|reflexivity]|].
  rewrite run_cons.
  destruct (update_after_left g (f_lm f) (f_mirror f) (f_now f) Hs) as (H1 & H2).
  destruct (IH (step_frame g f) H1) as (I1 & I2).
  split; [exact I1|]. rewrite I2. exact H2.
Qed.

(** A run of X9: two more frames on the calibrated grid. *)
Lemma left_rung_is_final_after_left_step_witness :
  step calibrated <> Step.left /\
  leftSaved (run calibrated [frame on_rung6 22100; frame on_rung6 32100]) =
  leftSaved calibrated.
Proof.
  assert (H : step calibrated <> Step.left) by (vm_compute; discriminate).
  split; [exact H|].
  apply (left_rung_is_final_after_left_step calibrated
           [frame on_rung6 22100; frame on_rung6 32100] H).
Defined.

(** ** What the page writes *)

Lemma mainLoop_stored (p : Page) (now dateNow : Qc) (quota : nat) :
  let p' := mainLoop p now dateNow quota in
  (savedOnce p' = savedOnce p /\ stored p' = stored p) \/
  (savedOnce p = false /\ savedOnce p' = true /\
   exists ws, stored p' = stored p ++ ws /\ (List.length ws <= 3)%nat).
Proof.
  unfold mainLoop. cbv zeta.
  destruct (negb (running p)); [left; split; reflexivity|].
  destruct (latestLm p) as [lm|]; [|left; split; reflexivity].
  destruct (grid p) as [g|]; [|left; split; reflexivity].
  destruct (update g (Some lm) true now) as [g' r].
  destruct (Step.eqb (step g') Step.done); cbn [andb];
    [|left; split; reflexivity].
  destruct (savedOnce p) eqn:Hs; cbn [negb]; [left; split; reflexivity|].
  right. split; [reflexivity|]. unfold saveCalibration.
  cbn [savedOnce stored]. split; [reflexivity|].
  eexists. split; [reflexivity|].
  rewrite length_firstn. apply Nat.le_min_r.
Qed.

Lemma resets_cons (e : Event) (es : list Event) :
  resets (e :: es) =
  ((match e with EReset => 1 | _ => 0 end) + resets es)%nat.
Proof. unfold resets. cbn [filter]. destruct e; reflexivity. Qed.

Lemma run_page_cons (p : Page) (e : Event) (es : list Event) :
  run_page p (e :: es) = run_page (handle p e) es.
Proof. reflexivity. Qed.

Lemma start_stored (p : Page) (ready : bool) :
  savedOnce (start p ready) = savedOnce p /\ stored (start p ready) = stored p.
Proof.
  unfold start. destruct (running p); [split; reflexivity|].
  destruct ready; split; reflexivity.
Qed.

Lemma run_page_budget (es : list Event) (p : Page) :
  (List.length (stored (run_page p es)) <=
   List.length (stored p) + 3 * budget p es)%nat.
Proof.
  revert p. induction es as [|e es IH]; intros p; [cbn [run_page fold_left]; lia|].
  rewrite run_page_cons. specialize (IH (handle p e)).
  unfold budget in *. rewrite resets_cons.
  destruct e as [ready| |lm|now dateNow quota]; cbn [handle] in *.
  - destruct (start_stored p ready) as (E1 & E2). rewrite E1, E2 in IH. lia.
  - cbn [reset savedOnce stored] in IH. destruct (savedOnce p); lia.
  - cbn [onResults savedOnce stored] in IH. lia.
  - destruct (mainLoop_stored p now dateNow quota)
      as [(E1 & E2) | (E0 & E1 & ws & E2 & Hl)].
    + rewrite E1, E2 in IH. lia.
    + rewrite E1, E2, length_app in IH. rewrite E0. lia.
Qed.

Lemma run_page_saved (es : list Event) (p : Page) :
  savedOnce p = true -> resets es = 0%nat ->
  stored (run_page p es) = stored p /\ savedOnce (run_page p es) = true.
Proof.
  revert p. induction es as [|e es IH]; intros p Hs Hr; [split; [reflexivity|exact Hs]|].
  rewrite run_page_cons. rewrite resets_cons in Hr.
  destruct e as [ready| |lm|now dateNow quota]; cbn [handle]; try lia.
  - destruct (start_stored p ready) as (E1 & E2).
    destruct (IH (start p ready)) as (I1 & I2); [congruence | lia |].
    split; [congruence | exact I2].
  - destruct (IH (onResults p lm)) as (I1 & I2); [exact Hs | lia |].
    split; [exact I1 | exact I2].
  - destruct (mainLoop_stored p now dateNow quota)
      as [(E1 & E2) | (E0 & _)]; [|congruence].
    destruct (IH (mainLoop p now dateNow quota)) as (I1 & I2); [congruence | lia |].
    split; [congruence | exact I2].
Qed.

(** X10.  The page stores a session once: a page that has saved writes
    nothing more to storage until it is reset, whatever frames, results and
    starts follow, and from the opening of the page at most three writes
    (one record under three keys) are made per session, a session being
    opened by the page and by each reset. *)
Theorem page_stores_once_per_session (es : list Event) :
  (forall p, savedOnce p = true -> resets es = 0%nat ->
     stored (run_page p es) = stored p) /\
  (List.length (stored (run_page page0 es)) <= 3 * (1 + resets es))%nat.
Proof.
  split.
  - intros p Hs Hr. apply (run_page_saved es p Hs Hr).
  - pose proof (run_page_budget es page0) as H.
    unfold budget in H. cbn [page0 savedOnce stored List.length] in H. lia.
Qed.

(** ** The two guarded exits *)

(** X11.  A frame with both hand landmarks present but the hips hidden
    (when hips are required) or a hand hidden resets the steady-frame count
    and the hold timer and reports zero progress, and it leaves the step,
    the saved rungs, the smoothed points, the reach extremes and the stored
    clock alone.  The two exits differ: the hip exit also clears the
    candidate and takes no neutral sample; the hand exit keeps the candidate
    and has taken the hip sample. *)
Theorem hidden_hips_or_hand_frame_resets_hold (g : Grid) l m now p15 p16 :
  at_ l 15 = Some p15 -> at_ l 16 = Some p16 ->
  (needsHips g && negb (hipsOK g l) = true \/
   negb (vOK g (Some p15)) || negb (vOK g (Some p16)) = true) ->
  let g' := fst (update g (Some l) m now) in
  let s := snd (update g (Some l) m now) in
  (_kOn g' = 0%nat /\ _hold g' = 0 /\ Status.progress s = 0 /\
   Status.saved s = false /\
   step g' = step g /\ leftSaved g' = leftSaved g /\ rightSaved g' = rightSaved g /\
   tracked_part g' = tracked_part g) /\
  (if needsHips g && negb (hipsOK g l)
   then _candidate g' = None /\
        neutralSamples (_rom g') = neutralSamples (_rom g)
   else _candidate g' = _candidate g /\
        neutralSamples (_rom g') =
        neutralSamples (_rom g) ++
        [Qcmax (clamp01 (option_map y (at_ l 23)))
               (clamp01 (option_map y (at_ l 24)))]%list).
Proof.
  intros E15 E16 H. unfold update, upto_hold. rewrite E15, E16.
  destruct (needsHips g && negb (hipsOK g l)).
  - cbv beta iota zeta. repeat split.
  - destruct H as [H|H]; [discriminate|].
    cbv beta zeta. rewrite !vOK_push_neutral, H.
    cbv beta iota zeta. repeat split.
Qed.

(** A run of X11: the hips are hidden on the seventh frame. *)
Lemma hidden_hips_or_hand_frame_resets_hold_witness :
  needsHips held6 && negb (hipsOK held6 hips_hidden) = true /\
  _kOn held6 = 6%nat /\
  _kOn (fst (update held6 (Some hips_hidden) true 1600)) = 0%nat /\
  _hold (fst (update held6 (Some hips_hidden) true 1600)) = 0.
Proof.
  assert (H : needsHips held6 && negb (hipsOK held6 hips_hidden) = true)
    by (vm_compute; reflexivity).
  eassert (E15 : at_ hips_hidden 15 = Some _) by (vm_compute; reflexivity).
  eassert (E16 : at_ hips_hidden 16 = Some _) by (vm_compute; reflexivity).
  destruct (hidden_hips_or_hand_frame_resets_hold held6 hips_hidden true 1600 _ _
              E15 E16 (or_introl H)) as ((H1 & H2 & _) & _).
  split; [exact H|]. split; [vm_compute; reflexivity|].
  split; [exact H1 | exact H2].
Defined.

(** ** The heights of the stored record *)

Lemma run_rungs_in_range (o : Opts) (fs : list Frame) :
  (1 <= o_count o)%nat -> rungs_in_range (run (create o) fs).
Proof.
  intros Hc. induction fs as [|f fs IH] using rev_ind.
  - unfold rungs_in_range. simpl. repeat split.
  - rewrite run_snoc. unfold step_frame.
    apply update_rungs_in_range; [|exact IH].
    pose proof (run_conf fs (create o)) as H. unfold conf in H.
    assert (E : count (run (create o) fs) = count (create o)) by congruence.
    rewrite E. exact Hc.
Qed.

Lemma yAtIndex_create (o : Opts) (k : nat) :
  (2 <= o_count o)%nat -> (1 <= k <= o_count o)%nat ->
  yAtIndex (yList (create o)) (Some k) =
  Some (o_yBottom o -
        (inject_Z (Z.of_nat (k - 1)) / (inject_Z (Z.of_nat (o_count o)) - 1)) *
        (o_yBottom o - o_yTop o)).
Proof.
  intros Hc Hk. unfold yAtIndex, create. cbn [yList].
  rewrite length_map, length_seq.
  replace (Nat.max 1 (Nat.min (o_count o) k)) with k by lia.
  rewrite nth_map_seq by lia. unfold rungY.
  assert (Hn1 : (o_count o =? 1)%nat = false) by (apply Nat.eqb_neq; lia).
  rewrite Hn1. reflexivity.
Qed.

Lemma yAtIndex_create_null (o : Opts) :
  (2 <= o_count o)%nat ->
  yAtIndex (yList (create o)) None = Some (o_yBottom o).
Proof.
  intros Hc. unfold yAtIndex, create. cbn [yList].
  rewrite length_map, length_seq.
  replace (Nat.max 1 (Nat.min (o_count o) 0)) with 1%nat by lia.
  cbn [Nat.sub]. rewrite nth_map_seq by lia. unfold rungY.
  assert (Hn1 : (o_count o =? 1)%nat = false) by (apply Nat.eqb_neq; lia).
  rewrite Hn1. f_equal.
  assert (Hpos : Q2Qc 0 < Q2Qc (inject_Z (Z.of_nat (o_count o))) - 1).
  { pose proof (inject_nat_lt 1 (o_count o) ltac:(lia)) as H.
    change (Q2Qc (inject_Z (Z.of_nat 1))) with (Q2Qc 1) in H.
    revert H. to_Q. intros. lra. }
  set (N := Q2Qc (inject_Z (Z.of_nat (o_count o))) - 1) in *.
  assert (HN : N <> 0).
  { intros E. rewrite E in Hpos. revert Hpos. apply Qcle_not_lt, Qcle_refl. }
  change (Q2Qc (inject_Z (Z.of_nat 0))) with (Q2Qc 0).
  field. exact HN.
Qed.

(** X12.  The two heights of the record to be stored, on a ladder of at
    least two rungs: the height stored for a hand is that of its saved
    rung, [yBottom - (k - 1) / (count - 1) * (yBottom - yTop)] for rung [k],
    and while the hand has no saved rung it is the height of rung 1, that
    is [yBottom], not an absent value. *)
Theorem record_heights_are_rung_heights (o : Opts) (fs : list Frame) (t : Qc) :
  (2 <= o_count o)%nat ->
  let g := run (create o) fs in
  let rec := payload_of g t in
  let height (k : nat) :=
    o_yBottom o -
    (inject_Z (Z.of_nat (k - 1)) / (inject_Z (Z.of_nat (o_count o)) - 1)) *
    (o_yBottom o - o_yTop o) in
  (forall k, leftSaved g = Some k -> Payload.leftY rec = Some (height k)) /\
  (forall k, rightSaved g = Some k -> Payload.rightY rec = Some (height k)) /\
  (leftSaved g = None -> Payload.leftY rec = Some (o_yBottom o)) /\
  (rightSaved g = None -> Payload.rightY rec = Some (o_yBottom o)).
Proof.
  intros Hc. cbv zeta.
  pose proof (run_rungs_in_range o fs ltac:(lia)) as Hr.
  pose proof (run_conf fs (create o)) as Hconf.
  set (g := run (create o) fs) in *. clearbody g.
  assert (Ey : yList g = yList (create o)) by (unfold conf in Hconf; congruence).
  assert (Ec : count g = o_count o)
    by (unfold conf in Hconf; change (o_count o) with (count (create o)); congruence).
  destruct Hr as (_ & _ & HL & HR & _). rewrite Ec in HL, HR.
  cbn [payload_of Payload.leftY Payload.rightY]. rewrite Ey.
  split; [|split; [|split]].
  - intros k E. rewrite E in *. now apply yAtIndex_create.
  - intros k E. rewrite E in *. now apply yAtIndex_create.
  - intros ->. now apply yAtIndex_create_null.
  - intros ->. now apply yAtIndex_create_null.
Qed.

(** A run of X12 on the calibrated grid: both hands saved rung 5 of 8. *)
Lemma record_heights_are_rung_heights_witness :
  (2 <= o_count defaults)%nat /\
  leftSaved (run (create defaults) calibration_frames) = Some 5%nat /\
  Payload.leftY (payload_of (run (create defaults) calibration_frames) 0) =
  Some (o_yBottom defaults -
        (inject_Z (Z.of_nat (5 - 1)) / (inject_Z (Z.of_nat (o_count defaults)) - 1)) *
        (o_yBottom defaults - o_yTop defaults)).
Proof.
  assert (Hc : (2 <= o_count defaults)%nat) by (cbn [o_count defaults]; lia).
  assert (E : leftSaved (run (create defaults) calibration_frames) = Some 5%nat)
    by (vm_compute; reflexivity).
  split; [exact Hc|]. split; [exact E|].
  destruct (record_heights_are_rung_heights defaults calibration_frames 0 Hc)
    as (H & _).
  apply H. exact E.
Defined.

(** ** The nearest rung *)

Lemma nearest_loop_spec (g : Grid) (py : Qc) (n : nat) :
  match fold_left (nearest_body g py) (seq 0 n) (1%nat, None) with
  | (r, None) => r = 1%nat /\ forall i, (i < n)%nat -> nth i (yList g) None = None
  | (r, Some d) =>
      exists b yb, r = S b /\ (b < n)%nat /\ nth b (yList g) None = Some yb /\
        d = Qcabs (yb - py) /\
        (forall i yi, (i < n)%nat -> nth i (yList g) None = Some yi ->
                      d <= Qcabs (yi - py)) /\
        (forall i yi, (i < b)%nat -> nth i (yList g) None = Some yi ->
                      d < Qcabs (yi - py))
  end.
Proof.
  induction n as [|n IH].
  - simpl. split; [reflexivity|]. intros i Hi. lia.
  - rewrite seq_S, fold_left_app. cbn [fold_left Nat.add].
    destruct (fold_left (nearest_body g py) (seq 0 n) (1%nat, None)) as [r [d|]].
    + destruct IH as (b & yb & -> & Hb & Eb & -> & Hmin & Hfirst).
      unfold nearest_body. destruct (nth n (yList g) None) as [yy|] eqn:En.
      * cbn [snd lt_inf].
        destruct (Qclt_bool (Qcabs (yy - py)) (Qcabs (yb - py))) eqn:Hlt.
        -- apply Qclt_bool_true in Hlt.
           exists n, yy. split; [reflexivity|]. split; [lia|].
           split; [exact En|]. split; [reflexivity|]. split.
           ++ intros i yi Hi Ei. destruct (Nat.eq_dec i n) as [->|Hne].
              ** rewrite En in Ei. injection Ei as <-. apply Qcle_refl.
              ** apply Qclt_le_weak. eapply Qclt_le_trans; [exact Hlt|].
                 apply (Hmin i yi); [lia | exact Ei].
           ++ intros i yi Hi Ei. eapply Qclt_le_trans; [exact Hlt|].
              apply (Hmin i yi); [lia | exact Ei].
        -- apply Qclt_bool_false in Hlt.
           exists b, yb. split; [reflexivity|]. split; [lia|].
           split; [exact Eb|]. split; [reflexivity|]. split; [|exact Hfirst].
           intros i yi Hi Ei. destruct (Nat.eq_dec i n) as [->|Hne].
           ++ rewrite En in Ei. injection Ei as <-. exact Hlt.
           ++ apply (Hmin i yi); [lia | exact Ei].
      * exists b, yb. split; [reflexivity|]. split; [lia|].
        split; [exact Eb|]. split; [reflexivity|]. split; [|exact Hfirst].
        intros i yi Hi Ei. destruct (Nat.eq_dec i n) as [->|Hne].
        ++ rewrite En in Ei. discriminate.
        ++ apply (Hmin i yi); [lia | exact Ei].
    + destruct IH as (-> & Hnone).
      unfold nearest_body. destruct (nth n (yList g) None) as [yy|] eqn:En.
      * cbn [snd lt_inf]. exists n, yy. split; [reflexivity|]. split; [lia|].
        split; [exact En|]. split; [reflexivity|]. split.
        -- intros i yi Hi Ei. destruct (Nat.eq_dec i n) as [->|Hne].
           ++ rewrite En in Ei. injection Ei as <-. apply Qcle_refl.
           ++ rewrite Hnone in Ei by lia. discriminate.
        -- intros i yi Hi Ei. rewrite Hnone in Ei by lia. discriminate.
      * split; [reflexivity|]. intros i Hi. destruct (Nat.eq_dec i n) as [->|Hne].
        -- exact En.
        -- apply Hnone. lia.
Qed.

(** X14.  [_nearestRung] gives rung 1 when no rung has a height, and
    otherwise the rung whose height is closest to the given one: no rung is
    closer, and every rung below it on the list is strictly farther, so of
    two rungs at the same gap the lower index is returned. *)
Theorem nearest_rung_minimises_height_gap (g : Grid) (py : Qc) :
  (_nearestRung g py = 1%nat /\ forall i yi, ~ rung_at g i yi) \/
  (exists b yb,
     _nearestRung g py = S b /\ rung_at g b yb /\
     (forall i yi, rung_at g i yi -> Qcabs (yb - py) <= Qcabs (yi - py)) /\
     (forall i yi, (i < b)%nat -> rung_at g i yi ->
                   Qcabs (yb - py) < Qcabs (yi - py))).
Proof.
  unfold _nearestRung. pose proof (nearest_loop_spec g py (count g)) as H.
  destruct (fold_left (nearest_body g py) (seq 0 (count g)) (1%nat, None))
    as [r [d|]].
  - right. destruct H as (b & yb & -> & Hb & Eb & -> & Hmin & Hfirst).
    exists b, yb. split; [reflexivity|]. split; [split; assumption|]. split.
    + intros i yi (Hi & Ei). now apply (Hmin i yi).
    + intros i yi Hi (_ & Ei). now apply (Hfirst i yi).
  - left. destruct H as (-> & Hnone). split; [reflexivity|].
    intros i yi (Hi & Ei). rewrite Hnone in Ei by exact Hi. discriminate.
Qed.

(** ** The level and the target of the feedback *)

Lemma lerp_inside (a b f : Qc) :
  0 <= f -> f <= 1 ->
  LiveFeedback._lerp a b f = a + (b - a) * f /\
  Qcmin a b <= a + (b - a) * f /\ a + (b - a) * f <= Qcmax a b.
Proof.
  intros F0 F1. unfold LiveFeedback._lerp.
  rewrite (Qcmin_right 1 f F1), (Qcmax_right 0 f F0).
  split; [reflexivity|].
  unfold Qcmin, Qcmax. destruct (Qcle_bool a b) eqn:E.
  - apply Qcle_bool_iff in E. split; revert F0 F1 E; to_Q; intros; nra.
  - apply Qcle_bool_false in E. split; revert F0 F1 E; to_Q; intros; nra.
Qed.

Lemma setLevel_fields (fb : LiveFeedback.t) (lvl lvls : option Qc)
    (c : option Stored.t) :
  let fb' := LiveFeedback.setLevel fb lvl lvls c in
  let L := Qcmax 1 (LiveFeedback.num_or lvl 1) in
  let N := Qcmax L (LiveFeedback.num_or lvls L) in
  let c' := match c with Some _ => c | None => LiveFeedback.calib fb end in
  let n := LiveFeedback._safeNum (LiveFeedback.rom_field c' Stored.neutralY) 0.78 in
  LiveFeedback.level fb' = L /\ LiveFeedback.levels fb' = N /\
  LiveFeedback.calib fb' = c' /\ LiveFeedback.neutralY fb' = n /\
  LiveFeedback.targetY fb' =
    LiveFeedback._lerp n (reach_goal c') (0.15 + 0.50 * ((L - 1) / Qcmax 1 (N - 1))) /\
  LiveFeedback.phase fb' = LiveFeedback.phase fb /\
  LiveFeedback._upCounter fb' = LiveFeedback._upCounter fb /\
  LiveFeedback._downCounter fb' = LiveFeedback._downCounter fb.
Proof. cbv zeta. repeat split. Qed.



(** X28.  In double precision, an infinite level leaves no target: the fraction
    is [Infinity / Infinity], and the target computed from it is [NaN]. *)
Lemma infinite_level_leaves_no_target :
  PrimFloat.is_nan Unbounded.target = true.
Proof. vm_compute. reflexivity. Qed.

(** ** The display of messages *)

Lemma show_cases (fb : LiveFeedback.t) (c : Said) :
  if displayed fb c
  then LiveFeedback.feedbackElement (show fb c) =
         Some {| LiveFeedback.textContent := fst (fst c);
                 LiveFeedback.className :=
                   ("live-feedback-container " ++ snd (fst c))%string |} /\
       LiveFeedback.currentFeedback (show fb c) = fst (fst c) /\
       LiveFeedback.lastFeedbackTime (show fb c) = snd c /\
       LiveFeedback.lastFeedbackTime fb + 500 <= snd c
  else show fb c = fb.
Proof.
  unfold displayed, show, LiveFeedback.showFeedback.
  destruct (LiveFeedback.feedbackElement fb) as [el|]; [|reflexivity].
  destruct (String.eqb (fst (fst c)) ""); cbn [negb andb]; [reflexivity|].
  destruct (Qclt_bool (snd c - LiveFeedback.lastFeedbackTime fb) 500) eqn:E;
    cbn [negb]; [reflexivity|].
  cbn [LiveFeedback.feedbackElement LiveFeedback.currentFeedback
       LiveFeedback.lastFeedbackTime].
  split; [reflexivity|]. split; [reflexivity|]. split; [reflexivity|].
  apply Qclt_bool_false in E. revert E.
  set (a := snd c). set (b := LiveFeedback.lastFeedbackTime fb).
  clearbody a b. to_Q. intros. lra.
Qed.

Lemma shown_spaced (calls : list Said) (fb : LiveFeedback.t) :
  spaced (LiveFeedback.lastFeedbackTime fb) (map snd (shown fb calls)).
Proof.
  revert fb. induction calls as [|c cs IH]; intros fb; [exact I|].
  cbn [shown]. pose proof (show_cases fb c) as H.
  destruct (displayed fb c).
  - destruct H as (_ & _ & Et & Hle). cbn [app map spaced].
    split; [exact Hle|]. rewrite <- Et. apply IH.
  - rewrite H. cbn [app]. apply IH.
Qed.

(** X16.  The display is rate-limited by the last displayed message, not
    by the clock of the caller: a call passes the guards exactly when the
    element exists, the message is not empty and at least 500 ms have
    passed since the last displayed message; it then writes the message,
    the class with the type, and the time.  A call that does not pass
    changes nothing, whatever its type.  So in any sequence of calls two
    displayed messages are at least 500 ms apart. *)
Theorem displayed_messages_are_500ms_apart
    (fb : LiveFeedback.t) (calls : list Said) :
  spaced (LiveFeedback.lastFeedbackTime fb) (map snd (shown fb calls)) /\
  (forall c, displayed fb c = false -> show fb c = fb) /\
  (forall c, displayed fb c = true ->
     LiveFeedback.feedbackElement (show fb c) =
       Some {| LiveFeedback.textContent := fst (fst c);
               LiveFeedback.className :=
                 ("live-feedback-container " ++ snd (fst c))%string |} /\
     LiveFeedback.currentFeedback (show fb c) = fst (fst c) /\
     LiveFeedback.lastFeedbackTime (show fb c) = snd c) /\
  (forall c, displayed fb c = true <->
     LiveFeedback.feedbackElement fb <> None /\ fst (fst c) <> ""%string /\
     LiveFeedback.lastFeedbackTime fb + 500 <= snd c).
Proof.
  split; [apply shown_spaced|]. split; [|split].
  - intros c E. pose proof (show_cases fb c) as H. rewrite E in H. exact H.
  - intros c E. pose proof (show_cases fb c) as H. rewrite E in H.
    destruct H as (H1 & H2 & H3 & _). repeat split; assumption.
  - intros c. unfold displayed.
    destruct (LiveFeedback.feedbackElement fb) as [el|].
    + destruct (String.eqb (fst (fst c)) "") eqn:Em; cbn [negb andb].
      * apply String.eqb_eq in Em. split; [discriminate|].
        intros (_ & H & _). contradiction.
      * apply String.eqb_neq in Em.
        destruct (Qclt_bool (snd c - LiveFeedback.lastFeedbackTime fb) 500) eqn:E;
          cbn [negb].
        -- apply Qclt_bool_true in E. split; [discriminate|].
           intros (_ & _ & H). exfalso. revert E H.
           set (a := snd c). set (b := LiveFeedback.lastFeedbackTime fb).
           clearbody a b. to_Q. intros. lra.
        -- apply Qclt_bool_false in E. split; [|reflexivity]. intros _.
           split; [discriminate|]. split; [exact Em|]. revert E.
           set (a := snd c). set (b := LiveFeedback.lastFeedbackTime fb).
           clearbody a b. to_Q. intros. lra.
    + split; [discriminate|]. intros (H & _). contradiction.
Qed.

(** ** The joint angle *)

(** X17.  With [Math.atan2] between [-PI] and [PI], the angle of three
    points is a number between 0 and 180 degrees; it does not depend on the
    direction in which the three points are given; and it is [null]
    exactly when one of the points is missing. *)
Theorem joint_angle_is_between_0_and_180
    (atan2 : Qc -> Qc -> Qc) (PI : Qc) (a b c : option Point) :
  0 < PI -> (forall u v, - PI <= atan2 u v /\ atan2 u v <= PI) ->
  LiveFeedback.calculateAngle atan2 PI a b c =
  LiveFeedback.calculateAngle atan2 PI c b a /\
  (forall v, LiveFeedback.calculateAngle atan2 PI a b c = Some v ->
             0 <= v /\ v <= 180) /\
  (LiveFeedback.calculateAngle atan2 PI a b c = None <->
   a = None \/ b = None \/ c = None).
Proof.
  intros HPI Hat. unfold LiveFeedback.calculateAngle.
  destruct a as [a|], b as [b|], c as [c|];
    try (split; [reflexivity|]; split; [discriminate|];
         split; [intros _; auto | reflexivity]).
  destruct (Hat (y c - y b) (x c - x b)) as (C0 & C1).
  destruct (Hat (y a - y b) (x a - x b)) as (A0 & A1).
  set (tc := atan2 (y c - y b) (x c - x b)) in *.
  set (ta := atan2 (y a - y b) (x a - x b)) in *.
  clearbody tc ta. cbv zeta.
  assert (Hne : PI <> 0).
  { intros E. rewrite E in HPI. revert HPI. apply Qcle_not_lt, Qcle_refl. }
  assert (Esym : (ta - tc) * 180 / PI = - ((tc - ta) * 180 / PI))
    by (field; exact Hne).
  rewrite Esym, Qcabs_opp.
  set (q := (tc - ta) * 180 / PI) in *.
  assert (Eq : q * PI = (tc - ta) * 180) by (unfold q; field; exact Hne).
  clearbody q. clear Esym.
  assert (Hq : Qcabs q <= 360).
  { apply Qcabs_Qcle_condition. apply Qc_eq_Qeq in Eq.
    revert Eq HPI C0 C1 A0 A1. to_Q. intros. split; nra. }
  pose proof (Qcabs_nonneg q) as H0.
  set (g := Qcabs q) in *. clearbody g.
  split; [reflexivity|]. split.
  - intros v H. injection H as <-.
    destruct (Qclt_bool 180 g) eqn:E.
    + apply Qclt_bool_true in E. revert E Hq H0. to_Q. intros. split; lra.
    + apply Qclt_bool_false in E. split; assumption.
  - split; [discriminate|]. intros [H|[H|H]]; discriminate.
Qed.

(** A run of X17: the right angle at the origin between the two axes. *)
Lemma joint_angle_is_between_0_and_180_witness :
  0 < coarse_PI /\
  LiveFeedback.calculateAngle coarse_atan2 coarse_PI
    (seen 0 1) (seen 0 0) (seen 1 0) = Some (Q2Qc 90) /\
  0 <= Q2Qc 90 /\ Q2Qc 90 <= 180.
Proof.
  assert (HPI : 0 < coarse_PI) by (unfold Qclt; vm_compute; reflexivity).
  assert (Hat : forall u v, - coarse_PI <= coarse_atan2 u v /\
                            coarse_atan2 u v <= coarse_PI).
  { intros u v. unfold coarse_atan2.
    destruct (Qclt_bool 0 u), (Qclt_bool u 0), (Qclt_bool 0 v), (Qclt_bool v 0);
      split; unfold Qcle; vm_compute; discriminate. }
  assert (E : LiveFeedback.calculateAngle coarse_atan2 coarse_PI
                (seen 0 1) (seen 0 0) (seen 1 0) = Some (Q2Qc 90)).
  { unfold LiveFeedback.calculateAngle, seen, pt. f_equal. qc_eval. }
  destruct (joint_angle_is_between_0_and_180 coarse_atan2 coarse_PI
              (seen 0 1) (seen 0 0) (seen 1 0) HPI Hat) as (_ & H & _).
  split; [exact HPI|]. split; [exact E|]. exact (H _ E).
Defined.

(** ** The reset between two repetitions *)

Lemma height_checks_waitDown (fb : LiveFeedback.t) (lw rw : Point) (now : Qc) :
  LiveFeedback.phase fb = "waitDown"%string ->
  let r := LiveFeedback.height_checks fb lw rw now in
  thresholds (fst r) = thresholds fb /\
  LiveFeedback._upCounter (fst r) = LiveFeedback._upCounter fb /\
  (if down_enough fb lw && down_enough fb rw
   then LiveFeedback._downCounter (fst r) = S (LiveFeedback._downCounter fb) /\
        snd r = (if (LiveFeedback.requireDownFrames fb <=?
                     S (LiveFeedback._downCounter fb))%nat
                 then Some great_reset else None)
   else LiveFeedback._downCounter (fst r) = 0%nat /\
        snd r = Some (lower_message (down_enough fb lw) (down_enough fb rw),
                      "correction"%string)).
Proof.
  intros Hph. unfold LiveFeedback.height_checks. rewrite Hph.
  change (String.eqb "waitDown" "waitDown") with true. cbv iota zeta.
  unfold LiveFeedback.waitDown_branch, lower_message. cbv zeta.
  fold (down_enough fb lw). fold (down_enough fb rw).
  destruct (down_enough fb lw), (down_enough fb rw); cbn [negb andb].
  - change (LiveFeedback.requireDownFrames
              (LiveFeedback.set_downCounter (S (LiveFeedback._downCounter fb)) fb))
      with (LiveFeedback.requireDownFrames fb).
    change (LiveFeedback._downCounter
              (LiveFeedback.set_downCounter (S (LiveFeedback._downCounter fb)) fb))
      with (S (LiveFeedback._downCounter fb)).
    destruct (LiveFeedback.requireDownFrames fb <=? S (LiveFeedback._downCounter fb))%nat.
    + unfold LiveFeedback.say. cbn [fst snd].
      destruct (showFeedback_keeps
                  (LiveFeedback.set_downCounter (S (LiveFeedback._downCounter fb)) fb)
                  "Great reset! Ready for the next rep" "success" now) as (A & B & C).
      rewrite A, B, C. repeat split.
    + cbn [fst snd]. repeat split.
  - unfold LiveFeedback.say. cbn [fst snd].
    destruct (showFeedback_keeps (LiveFeedback.set_downCounter 0 fb)
                "Lower your right arm to reset" "correction" now) as (A & B & C).
    rewrite A, B, C. repeat split.
  - unfold LiveFeedback.say. cbn [fst snd].
    destruct (showFeedback_keeps (LiveFeedback.set_downCounter 0 fb)
                "Lower your left arm to reset" "correction" now) as (A & B & C).
    rewrite A, B, C. repeat split.
  - unfold LiveFeedback.say. cbn [fst snd].
    destruct (showFeedback_keeps (LiveFeedback.set_downCounter 0 fb)
                "Lower both arms to reset" "correction" now) as (A & B & C).
    rewrite A, B, C. repeat split.
Qed.

(** X18.  While the feedback waits for the arms to come down, a frame that
    reaches the height checks counts when both wrists are at or below the
    neutral height plus the buffer, and the reset cue is asked for exactly
    when that makes [requireDownFrames] frames; any other such frame sets
    the down counter to zero and asks for the correction naming the arm
    that is still up.  The target height plays no part, the up counter and
    the thresholds are untouched, and a frame stopped by an earlier check
    leaves the down counter as it is. *)
Theorem reset_cue_needs_run_of_down_frames (atan2 : Qc -> Qc -> Qc) (PI : Qc)
    (fb : LiveFeedback.t) lms now :
  LiveFeedback.phase fb = "waitDown"%string ->
  let r := LiveFeedback.provideShoulderAbductionFeedback atan2 PI fb lms now in
  thresholds (fst r) = thresholds fb /\
  LiveFeedback._upCounter (fst r) = LiveFeedback._upCounter fb /\
  match reaches_height atan2 PI lms with
  | Some (lw, rw) =>
      if down_enough fb lw && down_enough fb rw
      then LiveFeedback._downCounter (fst r) = S (LiveFeedback._downCounter fb) /\
           (snd r = Some great_reset <->
            (LiveFeedback.requireDownFrames fb <= S (LiveFeedback._downCounter fb))%nat) /\
           (snd r = None <->
            (S (LiveFeedback._downCounter fb) < LiveFeedback.requireDownFrames fb)%nat)
      else LiveFeedback._downCounter (fst r) = 0%nat /\
           snd r = Some (lower_message (down_enough fb lw) (down_enough fb rw),
                         "correction"%string)
  | None =>
      LiveFeedback._downCounter (fst r) = LiveFeedback._downCounter fb /\
      snd r <> Some great_reset
  end.
Proof.
  intros Hph. cbv zeta.
  destruct (reaches_height atan2 PI lms) as [[lw rw]|] eqn:Hr.
  - rewrite (provide_reaches atan2 PI fb lms now lw rw Hr).
    destruct (height_checks_waitDown fb lw rw now Hph) as (A & B & C).
    split; [exact A|]. split; [exact B|].
    destruct (down_enough fb lw && down_enough fb rw); [|exact C].
    destruct C as (C1 & C2). split; [exact C1|]. rewrite C2.
    destruct (LiveFeedback.requireDownFrames fb <=? S (LiveFeedback._downCounter fb))%nat
      eqn:E.
    + apply Nat.leb_le in E. split; split; try discriminate; try lia.
      intros _. reflexivity.
    + apply Nat.leb_gt in E. split; split; try discriminate; try lia.
      intros _. reflexivity.
  - destruct (provide_stops atan2 PI fb lms now Hr) as (A & B & C & D).
    split; [exact A|]. split; [exact B|]. split; [exact C|].
    intros H. apply (D _ _ H). reflexivity.
Qed.

(** A run of X18: the eighth frame with both arms down asks for the reset
    cue. *)
Lemma reset_cue_needs_run_of_down_frames_witness :
  LiveFeedback.phase fb_waiting = "waitDown"%string /\
  LiveFeedback._downCounter
    (fst (LiveFeedback.provideShoulderAbductionFeedback no_atan2 no_PI fb_waiting
            (Some arms_down) 1000)) = 8%nat.
Proof.
  assert (Hph : LiveFeedback.phase fb_waiting = "waitDown"%string) by reflexivity.
  split; [exact Hph|].
  pose proof (reset_cue_needs_run_of_down_frames no_atan2 no_PI fb_waiting
                (Some arms_down) 1000 Hph) as H.
  cbv zeta in H. destruct H as (_ & _ & H).
  assert (Hr : exists lw rw,
             reaches_height no_atan2 no_PI (Some arms_down) = Some (lw, rw) /\
             down_enough fb_waiting lw && down_enough fb_waiting rw = true).
  { eexists. eexists. split; vm_compute; reflexivity. }
  destruct Hr as (lw & rw & Hr & Hd). rewrite Hr, Hd in H.
  destruct H as (H & _). exact H.
Defined.

(** ** What the classifiers may do *)

Lemma showFeedback_settings (fb : LiveFeedback.t) (msg ty : string) (now : Qc) :
  settings (LiveFeedback.showFeedback fb msg ty now) = settings fb /\
  counters (LiveFeedback.showFeedback fb msg ty now) = counters fb.
Proof.
  unfold LiveFeedback.showFeedback.
  destruct (LiveFeedback.feedbackElement fb); [|split; reflexivity].
  destruct (String.eqb msg ""); [split; reflexivity|].
  destruct (Qclt_bool _ _); split; reflexivity.
Qed.

Lemma mild_say (fb fb1 : LiveFeedback.t) (msg ty : string) (now : Qc) :
  settings fb1 = settings fb -> severity ty = true ->
  mild fb (LiveFeedback.say fb1 msg ty now).
Proof.
  intros H Hty. unfold mild, LiveFeedback.say. cbn [fst snd].
  destruct (showFeedback_settings fb1 msg ty now) as (A & _).
  split; [congruence | exact Hty].
Qed.

Lemma mild_say_reset (fb : LiveFeedback.t) (msg ty : string) (now : Qc) :
  severity ty = true ->
  mild fb (let '(fb1, c) := LiveFeedback.say fb msg ty now in
           (LiveFeedback.set_upCounter 0 fb1, c)).
Proof.
  intros Hty. unfold mild, LiveFeedback.say. cbn [fst snd].
  destruct (showFeedback_settings fb msg ty now) as (A & _).
  split; [|exact Hty].
  change (settings (LiveFeedback.set_upCounter 0
                      (LiveFeedback.showFeedback fb msg ty now)))
    with (settings (LiveFeedback.showFeedback fb msg ty now)).
  exact A.
Qed.

Lemma mild_none (fb fb1 : LiveFeedback.t) :
  settings fb1 = settings fb -> mild fb (fb1, None).
Proof. intros H. split; [exact H | exact I]. Qed.

Lemma tame_say (fb : LiveFeedback.t) (msg ty : string) (now : Qc) :
  severity ty = true -> tame fb (LiveFeedback.say fb msg ty now).
Proof.
  intros Hty. unfold tame, LiveFeedback.say. cbn [fst snd].
  destruct (showFeedback_settings fb msg ty now) as (A & B).
  split; [exact A|]. split; [exact B | exact Hty].
Qed.

Lemma tame_none (fb : LiveFeedback.t) : tame fb (fb, None).
Proof. repeat split. Qed.

Lemma tame_mild (fb : LiveFeedback.t) r : tame fb r -> mild fb r.
Proof.
  intros (A & _ & C). split; [exact A|]. destruct (snd r); [exact C | exact I].
Qed.

Ltac branches :=
  repeat match goal with
  | |- context [if ?c then _ else _] => destruct c
  | |- context [match ?v with Some _ => _ | None => _ end] => destruct v
  end.

Lemma shoulderAbduction_mild (atan2 : Qc -> Qc -> Qc) (PI : Qc)
    (fb : LiveFeedback.t) lms now :
  mild fb (LiveFeedback.provideShoulderAbductionFeedback atan2 PI fb lms now).
Proof.
  unfold LiveFeedback.provideShoulderAbductionFeedback, LiveFeedback.height_checks,
    LiveFeedback.waitDown_branch, LiveFeedback.up_branch.
  cbv zeta. branches;
    first [ apply mild_say; reflexivity
          | apply mild_say_reset; reflexivity
          | apply mild_none; reflexivity ].
Qed.

Lemma overheadPress_tame (atan2 : Qc -> Qc -> Qc) (PI : Qc)
    (fb : LiveFeedback.t) lms now :
  tame fb (LiveFeedback.provideOverheadPressFeedback atan2 PI fb lms now).
Proof.
  unfold LiveFeedback.provideOverheadPressFeedback. cbv zeta.
  branches; first [apply tame_say; reflexivity | apply tame_none].
Qed.

Lemma forwardReach_tame (fb : LiveFeedback.t) lms now :
  tame fb (LiveFeedback.provideForwardReachFeedback fb lms now).
Proof.
  unfold LiveFeedback.provideForwardReachFeedback. cbv zeta.
  branches; first [apply tame_say; reflexivity | apply tame_none].
Qed.

Lemma miniSquats_tame (atan2 : Qc -> Qc -> Qc) (PI : Qc)
    (fb : LiveFeedback.t) lms now :
  tame fb (LiveFeedback.provideMiniSquatsFeedback atan2 PI fb lms now).
Proof.
  unfold LiveFeedback.provideMiniSquatsFeedback. cbv zeta.
  branches; first [apply tame_say; reflexivity | apply tame_none].
Qed.

Lemma tame_calls_nil (fb : LiveFeedback.t) : tame_calls fb 0 (fb, nil).
Proof.
  unfold tame_calls. cbn [fst snd List.length].
  split; [reflexivity|]. split; [reflexivity|]. split; [constructor|].
  split; [lia | reflexivity].
Qed.

Lemma tame_calls_tell (fb : LiveFeedback.t) (n : nat) (now : nat -> Qc) s
    (msg ty : string) :
  tame_calls fb n s -> severity ty = true ->
  tame_calls fb (S n) (LiveFeedback.tell now s msg ty).
Proof.
  intros (A & B & C & D & _) Hty. unfold tame_calls, LiveFeedback.tell.
  cbn [fst snd].
  destruct (showFeedback_settings (fst s) msg ty (now (List.length (snd s))))
    as (A1 & B1).
  split; [congruence|]. split; [congruence|]. split.
  - apply Forall_app. split; [exact C|]. constructor; [exact Hty | constructor].
  - split.
    + rewrite length_app. cbn [List.length]. lia.
    + intros H. apply app_eq_nil in H. destruct H as (_ & H). discriminate.
Qed.

Lemma tame_calls_weaken (fb : LiveFeedback.t) (n m : nat) s :
  tame_calls fb n s -> (n <= m)%nat -> tame_calls fb m s.
Proof.
  intros (A & B & C & D & E) H. unfold tame_calls.
  repeat split; try assumption. lia.
Qed.

Ltac calls_leaf :=
  eapply tame_calls_weaken;
  [ repeat (apply tame_calls_tell; [|reflexivity]); apply tame_calls_nil
  | lia ].

Lemma marching_tame (atan2 : Qc -> Qc -> Qc) (PI : Qc)
    (fb : LiveFeedback.t) lms (now : nat -> Qc) :
  let r := LiveFeedback.provideMarchingFeedback atan2 PI fb (Some lms) now in
  tame_calls fb 3 (fst r) /\
  (snd r = true -> at_ lms 11 = None \/ at_ lms 12 = None).
Proof.
  unfold LiveFeedback.provideMarchingFeedback. cbv zeta.
  branches; cbn [fst snd]; (split; [calls_leaf|]);
    first [ discriminate | intros _; auto ].
Qed.

Lemma one_call_tame (fb : LiveFeedback.t) r :
  tame fb r ->
  let r3 := LiveFeedback.one_call r in
  tame_calls fb 1 (fst r3) /\ snd r3 = false.
Proof.
  intros (A & B & C). unfold LiveFeedback.one_call, tame_calls. cbn [fst snd].
  split; [|reflexivity]. split; [exact A|]. split; [exact B|].
  destruct (snd r) as [c|].
  - split; [constructor; [exact C | constructor]|].
    split; [cbn [List.length]; lia | discriminate].
  - split; [constructor|]. split; [cbn [List.length]; lia|]. intros _. exact C.
Qed.

Lemma one_call_mild (fb : LiveFeedback.t) r :
  mild fb r ->
  let r3 := LiveFeedback.one_call r in
  settings (fst (fst r3)) = settings fb /\
  Forall (fun c => severity (snd c) = true) (snd (fst r3)) /\
  (List.length (snd (fst r3)) <= 1)%nat /\ snd r3 = false.
Proof.
  intros (A & C). unfold LiveFeedback.one_call. cbn [fst snd].
  split; [exact A|]. destruct (snd r) as [c|].
  - split; [constructor; [exact C | constructor]|].
    split; [cbn [List.length]; lia | reflexivity].
  - split; [constructor|]. split; [cbn [List.length]; lia | reflexivity].
Qed.

(** X19.  What a frame of feedback may do, for every exercise and every
    pose.  It never changes the level, the calibration, the target, the
    neutral height, the phase or any other setting; every message it asks
    for is a warning, a correction or a success; it asks for at most one
    message, except for marching in place, where up to three are asked for
    in one frame; only the shoulder-abduction feedback moves the counters,
    and any other exercise that asks for nothing leaves the object as it
    was; without landmarks or without an exercise nothing happens at all;
    and the only frame that ends by throwing is a marching frame whose
    landmark 11 or 12 is undefined. *)
Theorem feedback_frame_is_tame (atan2 : Qc -> Qc -> Qc) (PI : Qc)
    (fb : LiveFeedback.t) (criteria : option string)
    (landmarks : option Landmarks) (now : nat -> Qc) :
  let r := LiveFeedback.provideFeedback atan2 PI fb criteria landmarks now in
  let fb' := fst (fst r) in
  let calls := snd (fst r) in
  let threw := snd r in
  settings fb' = settings fb /\
  Forall (fun c => severity (snd c) = true) calls /\
  (List.length calls <= 3)%nat /\
  (criteria <> Some "marchingInPlace"%string ->
   (List.length calls <= 1)%nat /\ threw = false) /\
  (criteria <> Some "shoulderAbduction"%string ->
   counters fb' = counters fb /\ (calls = [] -> fb' = fb)) /\
  (threw = true ->
   criteria = Some "marchingInPlace"%string /\
   exists lms, landmarks = Some lms /\ (at_ lms 11 = None \/ at_ lms 12 = None)) /\
  (landmarks = None \/ criteria = None \/ criteria = Some ""%string ->
   r = (fb, [], false)).
Proof.
  assert (Hnothing :
    let r := (fb, @nil LiveFeedback.Call, false) in
    settings (fst (fst r)) = settings fb /\
    Forall (fun c => severity (snd c) = true) (snd (fst r)) /\
    (List.length (snd (fst r)) <= 3)%nat /\
    ((List.length (snd (fst r)) <= 1)%nat /\ snd r = false) /\
    (counters (fst (fst r)) = counters fb /\ (snd (fst r) = [] -> fst (fst r) = fb)) /\
    snd r = false).
  { cbn [fst snd List.length].
    split; [reflexivity|]. split; [constructor|]. split; [lia|].
    split; [split; [lia | reflexivity]|].
    split; [split; reflexivity | reflexivity]. }
  assert (Hone : forall r1, tame fb r1 ->
    let r := LiveFeedback.one_call r1 in
    settings (fst (fst r)) = settings fb /\
    Forall (fun c => severity (snd c) = true) (snd (fst r)) /\
    (List.length (snd (fst r)) <= 3)%nat /\
    ((List.length (snd (fst r)) <= 1)%nat /\ snd r = false) /\
    (counters (fst (fst r)) = counters fb /\ (snd (fst r) = [] -> fst (fst r) = fb)) /\
    snd r = false).
  { intros r1 H. destruct (one_call_tame fb r1 H) as ((A & B & C & D & E) & F).
    cbv zeta. repeat split; try assumption. lia. }
  cbv zeta. unfold LiveFeedback.provideFeedback.
  destruct landmarks as [lms|].
  2:{ destruct Hnothing as (A & B & C & D & E & F).
      repeat split; try apply D; try apply E; try assumption; try discriminate;
        cbn [snd] in *; try discriminate. }
  destruct criteria as [cr|].
  2:{ destruct Hnothing as (A & B & C & D & E & F).
      repeat split; try apply D; try apply E; try assumption; try discriminate;
        cbn [snd] in *; try discriminate. }
  destruct (String.eqb cr "") eqn:E0.
  { destruct Hnothing as (A & B & C & D & E & F).
    repeat split; try apply D; try apply E; try assumption; try discriminate;
      cbn [snd] in *; try discriminate. }
  apply String.eqb_neq in E0.
  assert (Hlast : forall P : Prop,
            Some lms = None \/ Some cr = None \/ Some cr = Some ""%string -> P).
  { intros P [H|[H|H]]; try discriminate. injection H as H. contradiction. }
  destruct (String.eqb cr "shoulderAbduction") eqn:E1.
  { apply String.eqb_eq in E1. subst cr.
    destruct (one_call_mild fb _
                (shoulderAbduction_mild atan2 PI fb (Some lms) (now 0%nat)))
      as (A & B & C & D).
    split; [exact A|]. split; [exact B|]. split; [lia|].
    split; [intros _; split; assumption|].
    split; [intros H; contradiction|].
    split; [rewrite D; discriminate | apply Hlast]. }
  apply String.eqb_neq in E1.
  destruct (String.eqb cr "overheadPress") eqn:E2.
  { apply String.eqb_eq in E2. subst cr.
    destruct (Hone _ (overheadPress_tame atan2 PI fb (Some lms) (now 0%nat)))
      as (A & B & C & D & E & F).
    split; [exact A|]. split; [exact B|]. split; [exact C|].
    split; [intros _; exact D|]. split; [intros _; exact E|].
    split; [rewrite F; discriminate | apply Hlast]. }
  destruct (String.eqb cr "forwardReach") eqn:E3.
  { apply String.eqb_eq in E3. subst cr.
    destruct (Hone _ (forwardReach_tame fb (Some lms) (now 0%nat)))
      as (A & B & C & D & E & F).
    split; [exact A|]. split; [exact B|]. split; [exact C|].
    split; [intros _; exact D|]. split; [intros _; exact E|].
    split; [rewrite F; discriminate | apply Hlast]. }
  destruct (String.eqb cr "miniSquats") eqn:E4.
  { apply String.eqb_eq in E4. subst cr.
    destruct (Hone _ (miniSquats_tame atan2 PI fb (Some lms) (now 0%nat)))
      as (A & B & C & D & E & F).
    split; [exact A|]. split; [exact B|]. split; [exact C|].
    split; [intros _; exact D|]. split; [intros _; exact E|].
    split; [rewrite F; discriminate | apply Hlast]. }
  destruct (String.eqb cr "marchingInPlace") eqn:E5.
  { apply String.eqb_eq in E5. subst cr.
    destruct (marching_tame atan2 PI fb lms now) as ((A & B & C & D & E) & F).
    split; [exact A|]. split; [exact C|]. split; [exact D|].
    split; [intros H; contradiction|].
    split; [intros _; split; assumption|].
    split; [|apply Hlast].
    intros H. split; [reflexivity|]. exists lms. split; [reflexivity|].
    apply F. exact H. }
  apply String.eqb_neq in E5.
  destruct (negb (LiveFeedback.isVisible (at_ lms 11)) ||
            negb (LiveFeedback.isVisible (at_ lms 12))).
  - destruct (Hone _ (tame_say fb "Keep your body visible" "warning" (now 0%nat)
                        eq_refl)) as (A & B & C & D & E & F).
    split; [exact A|]. split; [exact B|]. split; [exact C|].
    split; [intros _; exact D|]. split; [intros _; exact E|].
    split; [rewrite F; discriminate | apply Hlast].
  - destruct Hnothing as (A & B & C & D & E & F).
    split; [exact A|]. split; [exact B|]. split; [exact C|].
    split; [intros _; exact D|]. split; [intros _; exact E|].
    split; [cbn [snd]; discriminate | apply Hlast].
Qed.

(** ** When the other classifiers praise *)

(** X20.  The forward-reach feedback always asks for a message, and it
    praises the reach exactly when both shoulders are visible and level
    (within 0.05) and it is not the case that both wrists are visible with
    neither reaching; so one reaching arm is enough, and a frame with a
    hidden wrist and level shoulders is praised. *)
Theorem forward_reach_praise (fb : LiveFeedback.t) (lms : Landmarks) (now : Qc) :
  let r := LiveFeedback.provideForwardReachFeedback fb (Some lms) now in
  snd r <> None /\
  (snd r = Some good_reach <->
   exists ls rs,
     LiveFeedback.visible (at_ lms 11) = Some ls /\
     LiveFeedback.visible (at_ lms 12) = Some rs /\
     Qcabs (y ls - y rs) <= 0.05 /\
     (forall lw rw,
        LiveFeedback.visible (at_ lms 15) = Some lw ->
        LiveFeedback.visible (at_ lms 16) = Some rw ->
        x lw < x ls - 0.1 \/ x rs + 0.1 < x rw)).
Proof.
  cbv zeta. unfold LiveFeedback.provideForwardReachFeedback. cbv zeta.
  destruct (LiveFeedback.visible (at_ lms 11)) as [ls|].
  2:{ unfold LiveFeedback.say. cbn [snd]. split; [discriminate|].
      split; [discriminate|]. intros (ls & rs & H & _). discriminate. }
  destruct (LiveFeedback.visible (at_ lms 12)) as [rs|].
  2:{ unfold LiveFeedback.say. cbn [snd]. split; [discriminate|].
      split; [discriminate|]. intros (ls' & rs & _ & H & _). discriminate. }
  assert (Hlevel :
    let r := if Qclt_bool 0.05 (Qcabs (y ls - y rs))
             then LiveFeedback.say fb "Keep shoulders level while reaching"
                    "correction" now
             else LiveFeedback.say fb "Good reach! Hold the position" "success" now in
    snd r <> None /\
    (snd r = Some good_reach <-> Qcabs (y ls - y rs) <= 0.05)).
  { cbv zeta. destruct (Qclt_bool 0.05 (Qcabs (y ls - y rs))) eqn:E;
      unfold LiveFeedback.say; cbn [snd]; (split; [discriminate|]).
    - apply Qclt_bool_true in E. split; [discriminate|].
      intros H. exfalso. revert E. now apply Qcle_not_lt.
    - apply Qclt_bool_false in E. split; [intros _; exact E | reflexivity]. }
  cbv zeta in Hlevel. destruct Hlevel as (Hsome & Hiff).
  destruct (LiveFeedback.visible (at_ lms 15)) as [lw|].
  2:{ split; [exact Hsome|]. rewrite Hiff. split.
      - intros H. exists ls, rs. repeat split; try assumption. discriminate.
      - intros (ls' & rs' & E1 & E2 & H & _).
        injection E1 as <-. injection E2 as <-. exact H. }
  destruct (LiveFeedback.visible (at_ lms 16)) as [rw|].
  2:{ split; [exact Hsome|]. rewrite Hiff. split.
      - intros H. exists ls, rs. repeat split; try assumption. discriminate.
      - intros (ls' & rs' & E1 & E2 & H & _).
        injection E1 as <-. injection E2 as <-. exact H. }
  destruct (Qclt_bool (x lw) (x ls - 0.1)) eqn:EL; cbn [negb andb].
  - apply Qclt_bool_true in EL. split; [exact Hsome|]. rewrite Hiff. split.
    + intros H. exists ls, rs. repeat split; try assumption.
      intros lw' rw' E1 E2. injection E1 as <-. left. exact EL.
    + intros (ls' & rs' & E1 & E2 & H & _).
      injection E1 as <-. injection E2 as <-. exact H.
  - apply Qclt_bool_false in EL.
    destruct (Qclt_bool (x rs + 0.1) (x rw)) eqn:ER; cbn [negb].
    + apply Qclt_bool_true in ER. split; [exact Hsome|]. rewrite Hiff. split.
      * intros H. exists ls, rs. repeat split; try assumption.
        intros lw' rw' E1 E2. injection E2 as <-. right. exact ER.
      * intros (ls' & rs' & E1 & E2 & H & _).
        injection E1 as <-. injection E2 as <-. exact H.
    + apply Qclt_bool_false in ER.
      unfold LiveFeedback.say. cbn [snd]. split; [discriminate|].
      split; [discriminate|].
      intros (ls' & rs' & E1 & E2 & _ & H).
      injection E1 as <-. injection E2 as <-.
      destruct (H lw rw eq_refl eq_refl) as [H1|H1]; exfalso; revert H1;
        now apply Qcle_not_lt.
Qed.

Ltac atom c :=
  match c with
  | negb ?a => atom a
  | andb ?a ?b => first [atom a | atom b]
  | orb ?a ?b => first [atom a | atom b]
  | true => fail 1
  | false => fail 1
  | _ => destruct c
  end.

Ltac atoms :=
  repeat (cbn [negb andb orb];
          match goal with
          | |- context [if ?c then _ else _] => atom c
          end).

(** X21.  The overhead-press feedback praises a frame exactly when both
    shoulders are visible, the nose and both wrists are visible with both
    wrists more than 0.1 above the nose, and no visible elbow is bent below
    160 degrees.  With the nose hidden it never praises. *)
Theorem overhead_press_praise (atan2 : Qc -> Qc -> Qc) (PI : Qc)
    (fb : LiveFeedback.t) (lms : Landmarks) (now : Qc) :
  let r := LiveFeedback.provideOverheadPressFeedback atan2 PI fb (Some lms) now in
  snd r = Some hands_up <->
  LiveFeedback.isVisible (at_ lms 11) && LiveFeedback.isVisible (at_ lms 12) &&
  match LiveFeedback.visible (at_ lms 0), LiveFeedback.visible (at_ lms 15),
        LiveFeedback.visible (at_ lms 16) with
  | Some n, Some lw, Some rw =>
      Qclt_bool (y lw) (y n - 0.1) && Qclt_bool (y rw) (y n - 0.1)
  | _, _, _ => false
  end &&
  negb (LiveFeedback.isVisible (at_ lms 13) &&
        LiveFeedback.below
          (LiveFeedback.calculateAngle atan2 PI (at_ lms 11) (at_ lms 13) (at_ lms 15))
          160) &&
  negb (LiveFeedback.isVisible (at_ lms 14) &&
        LiveFeedback.below
          (LiveFeedback.calculateAngle atan2 PI (at_ lms 12) (at_ lms 14) (at_ lms 16))
          160) = true.
Proof.
  cbv zeta. unfold LiveFeedback.provideOverheadPressFeedback, LiveFeedback.visible.
  cbv zeta.
  set (aL := LiveFeedback.below
               (LiveFeedback.calculateAngle atan2 PI (at_ lms 11) (at_ lms 13) (at_ lms 15))
               160).
  set (aR := LiveFeedback.below
               (LiveFeedback.calculateAngle atan2 PI (at_ lms 12) (at_ lms 14) (at_ lms 16))
               160).
  clearbody aL aR.
  destruct (LiveFeedback.isVisible (at_ lms 11));
    [|cbn [negb andb orb]; unfold LiveFeedback.say; cbn [snd];
      split; discriminate].
  destruct (LiveFeedback.isVisible (at_ lms 12));
    [|cbn [negb andb orb]; unfold LiveFeedback.say; cbn [snd];
      split; discriminate].
  cbn [negb andb orb].
  destruct (LiveFeedback.isVisible (at_ lms 13)), (LiveFeedback.isVisible (at_ lms 14)),
    aL, aR;
    cbn [negb andb orb];
    destruct (at_ lms 0) as [n|], (at_ lms 15) as [lw|], (at_ lms 16) as [rw|];
    cbn [LiveFeedback.isVisible];
    atoms; unfold LiveFeedback.say; cbn [snd negb andb orb];
    split; intros H; first [discriminate H | reflexivity | exact H].
Qed.

(** ** Several messages in one frame *)

Lemma shows_first_only_nil (fb : LiveFeedback.t) (now : nat -> Qc) :
  shows_first_only fb now (fb, nil).
Proof. reflexivity. Qed.

Lemma shows_first_only_tell (fb : LiveFeedback.t) (now : nat -> Qc) s
    (msg ty : string) :
  (forall k, now k - now 0%nat < 500) ->
  shows_first_only fb now s ->
  shows_first_only fb now (LiveFeedback.tell now s msg ty).
Proof.
  intros Hclock H. unfold shows_first_only, LiveFeedback.tell in *.
  cbn [fst snd]. destruct (snd s) as [|c0 rest].
  - rewrite H. cbn [app List.length]. intros _. reflexivity.
  - cbn [app]. intros Hd. specialize (H Hd). rewrite H.
    pose proof (show_cases fb (c0, now 0%nat)) as Hc. rewrite Hd in Hc.
    destruct Hc as (_ & _ & Et & _). cbn [snd] in Et.
    set (fb1 := show fb (c0, now 0%nat)) in *. clearbody fb1.
    unfold LiveFeedback.showFeedback.
    destruct (LiveFeedback.feedbackElement fb1); [|reflexivity].
    destruct (String.eqb msg ""); [reflexivity|].
    rewrite Et.
    assert (E : Qclt_bool (now (List.length (c0 :: rest)) - now 0%nat) 500 = true).
    { unfold Qclt_bool. apply negb_true_iff.
      destruct (Qcle_bool 500 (now (List.length (c0 :: rest)) - now 0%nat)) eqn:E;
        [|reflexivity].
      apply Qcle_bool_iff in E. exfalso. revert E. apply Qclt_not_le, Hclock. }
    rewrite E. reflexivity.
Qed.

Lemma timed_from_snoc (now : nat -> Qc) (calls : list LiveFeedback.Call)
    (c : LiveFeedback.Call) (k0 : nat) :
  timed_from now k0 (calls ++ [c]%list) =
  (timed_from now k0 calls ++ [(c, now (k0 + List.length calls)%nat)])%list.
Proof.
  revert k0. induction calls as [|c0 cs IH]; intros k0; cbn [app timed_from List.length].
  - now rewrite Nat.add_0_r.
  - rewrite IH. now rewrite Nat.add_succ_comm.
Qed.

Lemma timed_from_read (now : nat -> Qc) (calls : list LiveFeedback.Call)
    (k0 : nat) (c : Said) :
  In c (timed_from now k0 calls) -> exists k, snd c = now k.
Proof.
  revert k0. induction calls as [|c0 cs IH]; intros k0; cbn [timed_from].
  - intros [].
  - intros [<-|H]; [now exists k0 | exact (IH _ H)].
Qed.

Lemma replays_nil (fb : LiveFeedback.t) (now : nat -> Qc) : replays fb now (fb, nil).
Proof. reflexivity. Qed.

Lemma replays_tell (fb : LiveFeedback.t) (now : nat -> Qc) s (msg ty : string) :
  replays fb now s -> replays fb now (LiveFeedback.tell now s msg ty).
Proof.
  unfold replays, LiveFeedback.tell, timed. cbn [fst snd]. intros H.
  rewrite timed_from_snoc, fold_left_app. cbn [fold_left].
  rewrite <- H. reflexivity.
Qed.

(** No call is displayed within 500 ms of the last displayed message. *)
Lemma shown_quiet (calls : list Said) (fb : LiveFeedback.t) :
  (forall c, In c calls -> snd c - LiveFeedback.lastFeedbackTime fb < 500) ->
  shown fb calls = nil.
Proof.
  induction calls as [|c cs IH]; intros H; [reflexivity|].
  cbn [shown]. pose proof (show_cases fb c) as Hc.
  destruct (displayed fb c).
  - exfalso. destruct Hc as (_ & _ & _ & Hle).
    pose proof (H c (or_introl eq_refl)) as Hlt.
    revert Hle Hlt.
    set (a := snd c). set (b := LiveFeedback.lastFeedbackTime fb).
    clearbody a b. to_Q. intros. lra.
  - rewrite Hc. cbn [app]. apply IH. intros c' Hin. apply H. now right.
Qed.

Lemma shown_at_most_one (calls : list Said) (fb : LiveFeedback.t) :
  (forall c c', In c calls -> In c' calls -> snd c' - snd c < 500) ->
  (List.length (shown fb calls) <= 1)%nat.
Proof.
  induction calls as [|c cs IH]; intros H; [cbn; lia|].
  cbn [shown]. pose proof (show_cases fb c) as Hc.
  destruct (displayed fb c).
  - destruct Hc as (_ & _ & Et & _).
    rewrite shown_quiet; [cbn; lia|].
    intros c' Hin. rewrite Et. apply H; [now left | now right].
  - rewrite Hc. cbn [app]. apply IH.
    intros c1 c2 H1 H2. apply H; now right.
Qed.

(** X22.  A marching frame can ask for several messages, each call reading
    the clock anew, and the object after the frame is the one these calls
    leave in turn.  When the clock moves by less than 500 ms within the
    frame, at most one of them is displayed; and if the first message of
    the frame is displayed, the object after the frame is as that message
    left it, so a praise for a knee lift hides the posture correction that
    follows it. *)
Theorem marching_frame_displays_at_most_one_message
    (atan2 : Qc -> Qc -> Qc) (PI : Qc) (fb : LiveFeedback.t)
    (landmarks : option Landmarks) (now : nat -> Qc) :
  (forall j k, now k - now j < 500) ->
  let r := fst (LiveFeedback.provideMarchingFeedback atan2 PI fb landmarks now) in
  replays fb now r /\
  (List.length (shown fb (timed now (snd r))) <= 1)%nat /\
  shows_first_only fb now r.
Proof.
  intros Hclock r.
  assert (Hfirst : forall k, now k - now 0%nat < 500) by (intros k; apply Hclock).
  split; [|split].
  - unfold r, LiveFeedback.provideMarchingFeedback.
    destruct landmarks as [lms|]; [|apply replays_nil].
    cbv zeta. branches; cbn [fst];
      repeat apply replays_tell; apply replays_nil.
  - apply shown_at_most_one. intros c c' Hc Hc'.
    destruct (timed_from_read _ _ _ _ Hc) as (j & ->).
    destruct (timed_from_read _ _ _ _ Hc') as (k & ->).
    apply Hclock.
  - unfold r, LiveFeedback.provideMarchingFeedback.
    destruct landmarks as [lms|]; [|apply shows_first_only_nil].
    cbv zeta. branches; cbn [fst];
      repeat (apply shows_first_only_tell; [exact Hfirst|]);
      apply shows_first_only_nil.
Qed.

(** A run of X22: the knee lift is praised and displayed, the posture
    correction asked for in the same frame is not. *)
Lemma marching_frame_displays_at_most_one_message_witness :
  (forall j k, still_clock 1000 k - still_clock 1000 j < 500) /\
  snd (fst (LiveFeedback.provideMarchingFeedback coarse_atan2 coarse_PI fb0
              (Some marching_pose) (still_clock 1000))) =
  [("Good left knee lift!"%string, "success"%string);
   ("Stand up straight - align your body"%string, "correction"%string)]%list /\
  le (List.length
        (shown fb0
           (timed (still_clock 1000)
              [("Good left knee lift!"%string, "success"%string);
               ("Stand up straight - align your body"%string, "correction"%string)]%list)))
     1%nat /\
  LiveFeedback.currentFeedback
    (fst (fst (LiveFeedback.provideMarchingFeedback coarse_atan2 coarse_PI fb0
                 (Some marching_pose) (still_clock 1000)))) =
  "Good left knee lift!"%string.
Proof.
  assert (Hclock : forall j k, still_clock 1000 k - still_clock 1000 j < 500).
  { intros j k. unfold still_clock, Qclt. vm_compute. reflexivity. }
  assert (Ecalls :
    snd (fst (LiveFeedback.provideMarchingFeedback coarse_atan2 coarse_PI fb0
                (Some marching_pose) (still_clock 1000))) =
    [("Good left knee lift!"%string, "success"%string);
     ("Stand up straight - align your body"%string, "correction"%string)]%list)
    by (vm_compute; reflexivity).
  split; [exact Hclock|]. split; [exact Ecalls|].
  destruct (marching_frame_displays_at_most_one_message coarse_atan2 coarse_PI fb0
              (Some marching_pose) (still_clock 1000) Hclock) as (_ & Hone & H).
  rewrite Ecalls in Hone. split; [exact Hone|].
  unfold shows_first_only in H. rewrite Ecalls in H.
  rewrite (H ltac:(vm_compute; reflexivity)). reflexivity.
Defined.

(** ** A save that fails *)

(** X23.  The frame on which the step becomes (or is) [done] for a page
    that has not saved yet builds the record of the grid as that frame
    leaves it and writes it under the session key, the local key and the
    compatibility key, in that order, stopping at the first write that
    fails; the page counts as saved whether or not a write succeeded, so a
    failed save is not tried again on later frames: nothing more is stored
    until a reset. *)
Theorem failed_save_is_not_retried
    (p : Page) (now dateNow : Qc) (quota : nat) (lm : Landmarks) (g : Grid)
    (es : list Event) :
  running p = true -> savedOnce p = false ->
  latestLm p = Some lm -> grid p = Some g ->
  step (fst (update g (Some lm) true now)) = Step.done ->
  let p' := mainLoop p now dateNow quota in
  let rec := payload_of (fst (update g (Some lm) true now)) dateNow in
  savedOnce p' = true /\
  stored p' = stored p ++ firstn quota [ (sessionStorage, CALIB_KEY, rec);
                                         (localStorage, CALIB_KEY, rec);
                                         (localStorage, COMPAT_KEY, rec) ] /\
  (resets es = 0%nat -> stored (run_page p' es) = stored p').
Proof.
  intros Hr Hs Hlm Hg Hdone. cbv zeta.
  assert (E : savedOnce (mainLoop p now dateNow quota) = true /\
              stored (mainLoop p now dateNow quota) =
              stored p ++
              firstn quota
                [ (sessionStorage, CALIB_KEY,
                   payload_of (fst (update g (Some lm) true now)) dateNow);
                  (localStorage, CALIB_KEY,
                   payload_of (fst (update g (Some lm) true now)) dateNow);
                  (localStorage, COMPAT_KEY,
                   payload_of (fst (update g (Some lm) true now)) dateNow) ]).
  { unfold mainLoop. rewrite Hr, Hlm, Hg, Hs. cbn [negb].
    revert Hdone. destruct (update g (Some lm) true now) as [g' r]. cbn [fst].
    intros ->. cbn [Step.eqb andb negb]. unfold saveCalibration.
    split; reflexivity. }
  destruct E as (E1 & E2). split; [exact E1|]. split; [exact E2|].
  intros Hres. apply (run_page_saved es _ E1 Hres).
Qed.

(** A run of X23: storage refuses every write on the frame that completes
    the calibration, and the two frames that follow store nothing. *)
Lemma failed_save_is_not_retried_witness :
  running almost_calibrated = true /\ savedOnce almost_calibrated = false /\
  stored (run_page (mainLoop almost_calibrated 12100 1700000000000 0)
            [EFrame 12200 1700000000100 3; EFrame 12300 1700000000200 3]) =
  stored almost_calibrated.
Proof.
  assert (Hr : running almost_calibrated = true) by (vm_compute; reflexivity).
  assert (Hs : savedOnce almost_calibrated = false) by (vm_compute; reflexivity).
  eassert (Hlm : latestLm almost_calibrated = Some _) by (vm_compute; reflexivity).
  eassert (Hg : grid almost_calibrated = Some _) by (vm_compute; reflexivity).
  split; [exact Hr|]. split; [exact Hs|].
  destruct (failed_save_is_not_retried almost_calibrated 12100 1700000000000 0 _ _
              [EFrame 12200 1700000000100 3; EFrame 12300 1700000000200 3]
              Hr Hs Hlm Hg ltac:(vm_compute; reflexivity)) as (_ & E2 & E3).
  rewrite (E3 eq_refl), E2. cbn [firstn]. apply app_nil_r.
Defined.

(** ** Clearing the display *)

(** X24.  [clearFeedback] empties the display and the current message and
    zeroes both counters, keeps every setting, and keeps the time of the
    last displayed message.  So the rate limit goes on after a clear: a
    call is displayed after it exactly when it would have been without it,
    and a call made less than 500 ms after the last displayed message
    leaves the cleared display empty. *)
Theorem clear_keeps_rate_limit (fb : LiveFeedback.t) (c : Said) :
  let fb' := LiveFeedback.clearFeedback fb in
  displayed fb' c = displayed fb c /\
  (snd c - LiveFeedback.lastFeedbackTime fb < 500 -> show fb' c = fb') /\
  counters fb' = (0%nat, 0%nat) /\ settings fb' = settings fb /\
  LiveFeedback.currentFeedback fb' = ""%string /\
  (forall el, LiveFeedback.feedbackElement fb = Some el ->
     LiveFeedback.feedbackElement fb' =
     Some {| LiveFeedback.textContent := "";
             LiveFeedback.className := "live-feedback-container" |}) /\
  (LiveFeedback.feedbackElement fb = None -> LiveFeedback.feedbackElement fb' = None).
Proof.
  cbv zeta.
  assert (Ed : displayed (LiveFeedback.clearFeedback fb) c = displayed fb c).
  { unfold displayed, LiveFeedback.clearFeedback.
    cbn [LiveFeedback.feedbackElement LiveFeedback.lastFeedbackTime].
    destruct (LiveFeedback.feedbackElement fb); reflexivity. }
  split; [exact Ed|]. split.
  - intros Hlt. pose proof (show_cases (LiveFeedback.clearFeedback fb) c) as H.
    rewrite Ed in H. destruct (displayed fb c) eqn:E; [|exact H].
    exfalso. unfold displayed in E.
    destruct (LiveFeedback.feedbackElement fb); [|discriminate].
    apply andb_true_iff in E. destruct E as (_ & E).
    apply negb_true_iff, Qclt_bool_false in E.
    revert Hlt. now apply Qcle_not_lt.
  - unfold LiveFeedback.clearFeedback.
    cbn [LiveFeedback.feedbackElement LiveFeedback.currentFeedback].
    split; [reflexivity|]. split; [reflexivity|]. split; [reflexivity|]. split.
    + intros el ->. reflexivity.
    + intros ->. reflexivity.
Qed.

(** ** From the calibration to the feedback *)

Lemma unit_between (a b q : Qc) :
  unit a -> unit b -> Qcmin a b <= q -> q <= Qcmax a b -> unit q.
Proof.
  intros (A0 & A1) (B0 & B1). unfold Qcmin, Qcmax.
  destruct (Qcle_bool a b); intros H1 H2; split;
    first [ exact (Qcle_trans _ _ _ A0 H1) | exact (Qcle_trans _ _ _ B0 H1)
          | exact (Qcle_trans _ _ _ H2 A1) | exact (Qcle_trans _ _ _ H2 B1) ].
Qed.

(** X25.  End to end: whatever frames a calibration session saw, the
    record it would store, read back by [setLevel] with a level and a
    number of levels that are each a finite number or not a number, gives a
    neutral height and a target height that are on the screen (between 0
    and 1), provided a neutral sample was taken or the configured [yBottom]
    is itself between 0 and 1. *)
Theorem target_from_stored_record_is_on_screen
    (o : Opts) (fs : list Frame) (t : Qc)
    (fb : LiveFeedback.t) (lvl lvls : option Qc) :
  neutralSamples (_rom (run (create o) fs)) <> [] \/ unit (o_yBottom o) ->
  let rec := payload_of (run (create o) fs) t in
  let fb' := LiveFeedback.setLevel fb lvl lvls (read_back rec) in
  unit (LiveFeedback.neutralY fb') /\ unit (LiveFeedback.targetY fb').
Proof.
  intros Hn. cbv zeta.
  pose proof (run_normalized fs (create o) (create_normalized o)) as Hnorm.
  pose proof (run_conf fs (create o)) as Hc.
  set (g := run (create o) fs) in *. clearbody g.
  destruct Hnorm as (_ & _ & HA & HB & HP).
  assert (Un : unit (neutral_of g)).
  { unfold neutral_of. cbv zeta.
    destruct (neutralSamples (_rom g)) as [|q l] eqn:E.
    - destruct Hn as [Hn|Hn]; [contradiction|].
      unfold conf in Hc.
      assert (Ey : yBottom g = yBottom (create o)) by congruence.
      rewrite Ey. exact Hn.
    - apply mean_unit; [discriminate | exact HP]. }
  destruct (setLevel_fields fb lvl lvls (read_back (payload_of g t)))
    as (EL & EN & _ & En & Et & _).
  cbv zeta in EL, EN, En, Et.
  set (fb' := LiveFeedback.setLevel fb lvl lvls (read_back (payload_of g t))) in *.
  clearbody fb'.
  change (LiveFeedback._safeNum
            (LiveFeedback.rom_field
               match read_back (payload_of g t) with
               | Some _ => read_back (payload_of g t)
               | None => LiveFeedback.calib fb
               end Stored.neutralY) 0.78) with (neutral_of g) in En, Et.
  change (reach_goal
            match read_back (payload_of g t) with
            | Some _ => read_back (payload_of g t)
            | None => LiveFeedback.calib fb
            end) with (Qcmin (_minYLeft g) (_minYRight g)) in Et.
  rewrite En, Et. split; [exact Un|].
  set (L := Qcmax 1 (LiveFeedback.num_or lvl 1)).
  set (N := Qcmax L (LiveFeedback.num_or lvls L)).
  assert (HL : 1 <= L) by apply Qcmax_ge_l.
  assert (HN : L <= N) by apply Qcmax_ge_l.
  destruct (ramp_range L N HL HN) as (T0 & T1).
  set (tt := (L - 1) / Qcmax 1 (N - 1)) in *. clearbody tt L N.
  assert (F0 : 0 <= 0.15 + 0.50 * tt) by (clear - T0 T1; revert T0 T1; to_Q; intros; lra).
  assert (F1 : 0.15 + 0.50 * tt <= 1) by (clear - T0 T1; revert T0 T1; to_Q; intros; lra).
  destruct (lerp_inside (neutral_of g) (Qcmin (_minYLeft g) (_minYRight g)) _ F0 F1)
    as (E & B0 & B1).
  rewrite E.
  assert (Ug : unit (Qcmin (_minYLeft g) (_minYRight g))).
  { unfold Qcmin. destruct (Qcle_bool _ _); assumption. }
  exact (unit_between _ _ _ Un Ug B0 B1).
Qed.

(** A run of X25: the grid after six frames on rung 5, read at level 2 of
    3. *)
Lemma target_from_stored_record_is_on_screen_witness :
  neutralSamples (_rom (run (create defaults) six_steady)) <> [] /\
  unit (LiveFeedback.targetY
          (LiveFeedback.setLevel fb0 (Some (Q2Qc 2)) (Some (Q2Qc 3))
             (read_back (payload_of (run (create defaults) six_steady) 0)))).
Proof.
  assert (H : neutralSamples (_rom (run (create defaults) six_steady)) <> [])
    by (vm_compute; discriminate).
  split; [exact H|].
  apply (target_from_stored_record_is_on_screen defaults six_steady 0 fb0
           (Some (Q2Qc 2)) (Some (Q2Qc 3)) (or_introl H)).
Defined.

(** ** No save without steady frames *)

Lemma steadiness_miss (tr : Tracked) :
  falsy_rung (t_active tr) = true ->
  exists g1 s, steadiness tr = Return g1 s /\ _hold g1 = 0 /\
               holdSeconds g1 = holdSeconds (t_grid tr).
Proof.
  intros Hf. unfold steadiness. rewrite Hf. cbv zeta.
  eexists. eexists. split; [reflexivity|]. split; reflexivity.
Qed.

Lemma untracked_hold (g : Grid) lm m now :
  tracked g lm m now = None ->
  let g' := fst (update g lm m now) in
  Status.saved (snd (update g lm m now)) = false /\
  holdSeconds g' = holdSeconds g /\ (_hold g' = 0 \/ _hold g' = _hold g).
Proof.
  unfold tracked, update, upto_hold.
  destruct lm as [l|]; [|repeat split; right; reflexivity].
  destruct (at_ l 15) as [p15|]; [|repeat split; right; reflexivity].
  destruct (at_ l 16) as [p16|]; [|repeat split; right; reflexivity].
  destruct (needsHips g && negb (hipsOK g l)); [repeat split; left; reflexivity|].
  cbv beta zeta. rewrite !vOK_push_neutral.
  destruct (negb (vOK g (Some p15)) || negb (vOK g (Some p16)));
    [repeat split; left; reflexivity | discriminate].
Qed.

(** The hold timer after a frame, and whether the frame saved. *)
Lemma update_hold_cases (g : Grid) lm m now :
  let g' := fst (update g lm m now) in
  let s := snd (update g lm m now) in
  holdSeconds g' = holdSeconds g /\
  ((Status.saved s = false /\ (_hold g' = 0 \/ _hold g' = _hold g)) \/
   (exists tr h1,
      tracked g lm m now = Some tr /\ falsy_rung (t_active tr) = false /\
      h1 = (let same := negb (rung_neq (_candidate g) (t_active tr)) in
            let k0 := if same then _kOn g else 0%nat in
            let h0 := if same then _hold g else 0 in
            let k1 := if speed_le (t_spd tr) (maxSpeedPerSec g) then S k0 else k0 in
            if (kFrames g <=? k1)%nat then h0 + t_dt tr else h0) /\
      if Qcle_bool (holdSeconds g) h1
      then Status.saved s = true /\ _hold g' = 0
      else Status.saved s = false /\ _hold g' = h1)).
Proof.
  cbv zeta.
  assert (Hhs : holdSeconds (fst (update g lm m now)) = holdSeconds g).
  { pose proof (update_conf g lm m now) as H. unfold conf in H. congruence. }
  split; [exact Hhs|].
  destruct (tracked g lm m now) as [tr|] eqn:Ht.
  - pose proof (tracked_kept _ _ _ _ _ Ht) as (Hc & _ & Hk & Hh & Hd & _).
    pose proof (tracked_some _ _ _ _ _ Ht) as Hu.
    destruct (falsy_rung (t_active tr)) eqn:Hf.
    + left. destruct (steadiness_miss tr Hf) as (g1 & s & E & E0 & _).
      pose proof (steadiness_cases tr) as Hs. rewrite E in Hs.
      destruct Hs as (_ & _ & _ & _ & Hsv & _).
      unfold update. rewrite Hu, E. cbn [fst snd].
      split; [exact Hsv | left; exact E0].
    + right. destruct (steadiness_hit tr Hf) as (g1 & E & _ & Eh).
      cbv zeta in Eh.
      assert (Hms : maxSpeedPerSec (t_grid tr) = maxSpeedPerSec g)
        by (unfold conf in Hc; congruence).
      assert (Hkf : kFrames (t_grid tr) = kFrames g)
        by (unfold conf in Hc; congruence).
      rewrite Hk, Hh, Hd, Hms, Hkf in Eh.
      exists tr, (_hold g1). split; [reflexivity|]. split; [exact Hf|].
      split; [exact Eh|].
      pose proof (steadiness_cases tr) as Hs. rewrite E in Hs.
      destruct Hs as (Hc1 & _).
      assert (Hh1 : holdSeconds g1 = holdSeconds g)
        by (unfold conf in Hc, Hc1; congruence).
      unfold update. rewrite Hu, E.
      pose proof (completion_cases g1 (t_side tr)) as Hcomp. cbv zeta in Hcomp.
      rewrite Hh1 in Hcomp.
      unfold completion in *. rewrite Hh1 in *.
      destruct (Qcle_bool (holdSeconds g) (_hold g1)).
      * destruct Hcomp as (Hsv & _). split; [exact Hsv | reflexivity].
      * destruct Hcomp as (Hsv & Hg). split; [exact Hsv|]. cbn [fst]. reflexivity.
  - left. destruct (untracked_hold g lm m now Ht) as (A & _ & B).
    split; assumption.
Qed.

(** The hold timer of a session stays below [holdSeconds]. *)
Lemma run_hold_below (o : Opts) (fs : list Frame) :
  0 < o_holdSeconds o ->
  _hold (run (create o) fs) < holdSeconds (run (create o) fs) /\
  holdSeconds (run (create o) fs) = o_holdSeconds o.
Proof.
  intros Hpos. induction fs as [|f fs IH] using rev_ind.
  - split; [exact Hpos | reflexivity].
  - rewrite run_snoc. unfold step_frame. destruct IH as (IH & Hhs).
    set (g := run (create o) fs) in *. clearbody g.
    destruct (update_hold_cases g (f_lm f) (f_mirror f) (f_now f))
      as (E & [(_ & [H|H]) | (tr & h1 & _ & _ & _ & H)]).
    + rewrite E, H, Hhs. split; [exact Hpos | reflexivity].
    + rewrite E, H. split; [exact IH | exact Hhs].
    + rewrite E. split; [|exact Hhs].
      destruct (Qcle_bool (holdSeconds g) h1) eqn:Eq; destruct H as (_ & H);
        rewrite H.
      * rewrite Hhs. exact Hpos.
      * now apply Qcle_bool_false.
Qed.

(** X26.  No rung is saved on a passing hand.  In a session on a new grid
    with a positive [holdSeconds], a frame saves only if its hand is on a
    rung and the steady-frame count, after this frame, has reached
    [kFrames]: the count before the frame is at least [kFrames - 1], and
    when [kFrames] is at least 2 the rung saved is the one that was already
    the candidate. *)
Theorem save_needs_kFrames_steady_frames
    (o : Opts) (fs : list Frame) lm m now :
  0 < o_holdSeconds o ->
  let g := run (create o) fs in
  Status.saved (snd (update g lm m now)) = true ->
  (kFrames g <= S (_kOn g))%nat /\
  exists tr,
    tracked g lm m now = Some tr /\ falsy_rung (t_active tr) = false /\
    ((2 <= kFrames g)%nat -> t_active tr = _candidate g).
Proof.
  intros Hpos. cbv zeta. intros Hsv.
  destruct (run_hold_below o fs Hpos) as (Hlt & Hhs).
  set (g := run (create o) fs) in *. clearbody g.
  destruct (update_hold_cases g lm m now)
    as (_ & [(E & _) | (tr & h1 & Ht & Hf & Eh & H)]); [congruence|].
  destruct (Qcle_bool (holdSeconds g) h1) eqn:Eq; [|destruct H; congruence].
  apply Qcle_bool_iff in Eq. cbv zeta in Eh.
  assert (Hrn : rung_neq (_candidate g) (t_active tr) = false ->
                t_active tr = _candidate g).
  { destruct (_candidate g) as [a|], (t_active tr) as [b|]; cbn [rung_neq];
      intros Hn; try discriminate Hn; [|reflexivity].
    apply negb_false_iff, Nat.eqb_eq in Hn. now subst. }
  assert (Hpos' : 0 < holdSeconds g) by (rewrite Hhs; exact Hpos).
  destruct (rung_neq (_candidate g) (t_active tr)) eqn:Hneq; cbn [negb] in Eh.
  - (* the rung changed: the count restarts *)
    destruct (speed_le (t_spd tr) (maxSpeedPerSec g)).
    + destruct (kFrames g <=? 1)%nat eqn:Hk.
      * apply Nat.leb_le in Hk. split; [lia|]. exists tr.
        split; [exact Ht|]. split; [exact Hf|]. intros H2. lia.
      * exfalso. subst h1. revert Eq. now apply Qclt_not_le.
    + destruct (kFrames g <=? 0)%nat eqn:Hk.
      * apply Nat.leb_le in Hk. split; [lia|]. exists tr.
        split; [exact Ht|]. split; [exact Hf|]. intros H2. lia.
      * exfalso. subst h1. revert Eq. now apply Qclt_not_le.
  - specialize (Hrn eq_refl).
    destruct (speed_le (t_spd tr) (maxSpeedPerSec g)).
    + destruct (kFrames g <=? S (_kOn g))%nat eqn:Hk.
      * apply Nat.leb_le in Hk. split; [exact Hk|]. exists tr.
        split; [exact Ht|]. split; [exact Hf|]. intros _. exact Hrn.
      * exfalso. subst h1. revert Eq. now apply Qclt_not_le.
    + destruct (kFrames g <=? _kOn g)%nat eqn:Hk.
      * apply Nat.leb_le in Hk. split; [lia|]. exists tr.
        split; [exact Ht|]. split; [exact Hf|]. intros _. exact Hrn.
      * exfalso. subst h1. revert Eq. now apply Qclt_not_le.
Qed.

(** A run of X26: the sixth frame on rung 5, 5.1 s after the fifth, saves
    the left rung with a count of five before it. *)
Lemma save_needs_kFrames_steady_frames_witness :
  0 < o_holdSeconds defaults /\
  Status.saved
    (snd (update (run (create defaults) (firstn 5 calibration_frames))
            (Some on_rung5) true 6500)) = true /\
  (kFrames (run (create defaults) (firstn 5 calibration_frames)) <=
   S (_kOn (run (create defaults) (firstn 5 calibration_frames))))%nat.
Proof.
  assert (Hpos : 0 < o_holdSeconds defaults) by (unfold Qclt; vm_compute; reflexivity).
  assert (Hsv : Status.saved
    (snd (update (run (create defaults) (firstn 5 calibration_frames))
            (Some on_rung5) true 6500)) = true) by (vm_compute; reflexivity).
  split; [exact Hpos|]. split; [exact Hsv|].
  destruct (save_needs_kFrames_steady_frames defaults (firstn 5 calibration_frames)
              (Some on_rung5) true 6500 Hpos Hsv) as (H & _).
  exact H.
Defined.

(** ** The mini squat *)

(** X27.  The mini-squat feedback praises the depth exactly when hips,
    knees and ankles are all visible, both knee angles are numbers other
    than 0, not both above 170 degrees and neither below 140, the knees are
    over the ankles (the two horizontal gaps add up to at most 0.1), and a
    hip is less than 0.1 above or below its knee. *)
Theorem mini_squat_praise (atan2 : Qc -> Qc -> Qc) (PI : Qc)
    (fb : LiveFeedback.t) (lms : Landmarks) (now : Qc) :
  let r := LiveFeedback.provideMiniSquatsFeedback atan2 PI fb (Some lms) now in
  snd r = Some perfect_depth <->
  match LiveFeedback.visible (at_ lms 23), LiveFeedback.visible (at_ lms 24),
        LiveFeedback.visible (at_ lms 25), LiveFeedback.visible (at_ lms 26),
        LiveFeedback.visible (at_ lms 27), LiveFeedback.visible (at_ lms 28) with
  | Some lh, Some rh, Some lk, Some rk, Some la, Some ra =>
      match LiveFeedback.calculateAngle atan2 PI (at_ lms 23) (at_ lms 25) (at_ lms 27),
            LiveFeedback.calculateAngle atan2 PI (at_ lms 24) (at_ lms 26) (at_ lms 28)
      with
      | Some aL, Some aR =>
          negb (Qceq_bool aL 0) && negb (Qceq_bool aR 0) &&
          negb (Qclt_bool 170 aL && Qclt_bool 170 aR) &&
          negb (Qclt_bool aL 140 || Qclt_bool aR 140) &&
          negb (Qclt_bool 0.1 (Qcabs (x lk - x la) + Qcabs (x rk - x ra))) &&
          (Qclt_bool (Qcabs (y lh - y lk)) 0.1 || Qclt_bool (Qcabs (y rh - y rk)) 0.1)
      | _, _ => false
      end
  | _, _, _, _, _, _ => false
  end = true.
Proof.
  cbv zeta. unfold LiveFeedback.provideMiniSquatsFeedback, LiveFeedback.visible.
  cbv zeta.
  set (aL := LiveFeedback.calculateAngle atan2 PI (at_ lms 23) (at_ lms 25) (at_ lms 27)).
  set (aR := LiveFeedback.calculateAngle atan2 PI (at_ lms 24) (at_ lms 26) (at_ lms 28)).
  clearbody aL aR.
  destruct (LiveFeedback.isVisible (at_ lms 23));
    [destruct (at_ lms 23) as [lh|]
    |unfold LiveFeedback.say; cbn [snd]; split; discriminate];
    [|unfold LiveFeedback.say; cbn [snd]; split; discriminate].
  destruct (LiveFeedback.isVisible (at_ lms 24));
    [destruct (at_ lms 24) as [rh|]
    |unfold LiveFeedback.say; cbn [snd]; split; discriminate];
    [|unfold LiveFeedback.say; cbn [snd]; split; discriminate].
  destruct (LiveFeedback.isVisible (at_ lms 25));
    [destruct (at_ lms 25) as [lk|]
    |unfold LiveFeedback.say; cbn [snd]; split; discriminate];
    [|unfold LiveFeedback.say; cbn [snd]; split; discriminate].
  destruct (LiveFeedback.isVisible (at_ lms 26));
    [destruct (at_ lms 26) as [rk|]
    |unfold LiveFeedback.say; cbn [snd]; split; discriminate];
    [|unfold LiveFeedback.say; cbn [snd]; split; discriminate].
  destruct (LiveFeedback.isVisible (at_ lms 27));
    [destruct (at_ lms 27) as [la|]
    |unfold LiveFeedback.say; cbn [snd]; split; discriminate];
    [|unfold LiveFeedback.say; cbn [snd]; split; discriminate].
  destruct (LiveFeedback.isVisible (at_ lms 28));
    [destruct (at_ lms 28) as [ra|]
    |unfold LiveFeedback.say; cbn [snd]; split; discriminate];
    [|unfold LiveFeedback.say; cbn [snd]; split; discriminate].
  destruct aL as [aL|], aR as [aR|];
    unfold LiveFeedback.no_angle, LiveFeedback.above, LiveFeedback.less;
    cbn [negb andb orb];
    try (split; discriminate).
  - destruct (Qceq_bool aL 0), (Qceq_bool aR 0); cbn [negb andb orb];
      try (split; discriminate).
    atoms; unfold LiveFeedback.say; cbn [snd negb andb orb];
      split; intros H; first [discriminate H | reflexivity | exact H].
  - destruct (Qceq_bool aL 0); cbn [negb andb orb]; split; discriminate.
Qed.

(** ** The completion of a hold *)

(** On a tracked frame with the hand on a rung, the frame saves exactly when
    the hold it leaves has reached [holdSeconds]. *)
Lemma update_saves_on_hit (g : Grid) lm m now tr :
  tracked g lm m now = Some tr -> falsy_rung (t_active tr) = false ->
  let a := t_active tr in
  let k1 := if speed_le (t_spd tr) (maxSpeedPerSec g)
            then S (count_before g a) else count_before g a in
  Status.saved (snd (update g lm m now)) =
  Qcle_bool (holdSeconds g)
    (if (kFrames g <=? k1)%nat then hold_after g a now else timer_before g a).
Proof.
  intros Ht Hf. cbv zeta.
  pose proof (tracked_kept _ _ _ _ _ Ht) as (Hc & _ & Hk & Hh & Hd & _).
  pose proof (tracked_some _ _ _ _ _ Ht) as Hu.
  destruct (steadiness_hit tr Hf) as (g1 & E & _ & Eh).
  cbv zeta in Eh.
  assert (Hms : maxSpeedPerSec (t_grid tr) = maxSpeedPerSec g)
    by (unfold conf in Hc; congruence).
  assert (Hkf : kFrames (t_grid tr) = kFrames g)
    by (unfold conf in Hc; congruence).
  rewrite Hk, Hh, Hd, Hms, Hkf, (tracked_dt _ _ _ _ _ Ht) in Eh.
  pose proof (steadiness_cases tr) as Hs. rewrite E in Hs.
  destruct Hs as (Hc1 & _).
  assert (Hh1 : holdSeconds g1 = holdSeconds g)
    by (unfold conf in Hc, Hc1; congruence).
  unfold update. rewrite Hu, E.
  pose proof (completion_cases g1 (t_side tr)) as Hcomp. cbv zeta in Hcomp.
  rewrite Hh1 in Hcomp.
  assert (Eh' : _hold g1 =
                if (kFrames g <=?
                    (if speed_le (t_spd tr) (maxSpeedPerSec g)
                     then S (count_before g (t_active tr))
                     else count_before g (t_active tr)))%nat
                then hold_after g (t_active tr) now
                else timer_before g (t_active tr)).
  { rewrite Eh. unfold hold_after, timer_before, count_before.
    destruct (rung_neq (_candidate g) (t_active tr)); reflexivity. }
  rewrite <- Eh'.
  destruct (Qcle_bool (holdSeconds g) (_hold g1));
    destruct Hcomp as (Hsv & _); exact Hsv.
Qed.

(** C1.  In every session state and for every frame, [update] saves the
    candidate rung of the active hand exactly when the accumulated hold time
    of the frame has reached [holdSeconds]: a save in step [left] moves the
    step to [right], a save in step [right] (or [done]) leaves it at [done],
    a frame without a save leaves the step and both saved rungs as they
    were, and over any sequence of updates the step never moves backwards,
    [done] being final.  A frame saves only when it is tracked and leaves
    the hand on a rung [a].  On such a frame, with [holdSeconds] at least
    the margin [tol], a timer that is not negative and a clock that has not
    gone backwards: when the steady-frame count that the frame starts from
    has reached [kFrames], the frame saves if the hold it leaves,
    [hold_after], is above [holdSeconds] by more than the margin, and does
    not save if it is below by more than that; and when the count cannot
    reach [kFrames] on this frame, the frame does not save if the timer is
    below [holdSeconds] by more than the margin. *)
Theorem update_saves_iff_hold_reached (g : Grid) :
  (forall lm m now,
     let g' := fst (update g lm m now) in
     let s := snd (update g lm m now) in
     let a := active_of (step g) g' in
     (Status.saved s = true <->
        exists h, accumulated g lm m now = Some h /\ holdSeconds g <= h) /\
     (Status.saved s = true ->
        match step g with
        | Step.left =>
            step g' = Step.right /\ leftSaved g' = leftActive g' /\
            leftSaved g' <> None /\ rightSaved g' = rightSaved g
        | _ =>
            step g' = Step.done /\ rightSaved g' = rightActive g' /\
            rightSaved g' <> None /\ leftSaved g' = leftSaved g
        end) /\
     (Status.saved s = false ->
        step g' = step g /\ leftSaved g' = leftSaved g /\
        rightSaved g' = rightSaved g) /\
     (Status.saved s = true ->
        tracked g lm m now <> None /\ falsy_rung a = false) /\
     (tracked g lm m now <> None -> falsy_rung a = false ->
      tol <= holdSeconds g -> 0 <= _hold g -> 0 <= elapsed g now ->
      ((kFrames g <= count_before g a)%nat ->
       (holdSeconds g * (1 + tol) <= hold_after g a now ->
        Status.saved s = true) /\
       (hold_after g a now * (1 + tol) <= holdSeconds g ->
        Status.saved s = false)) /\
      ((S (count_before g a) < kFrames g)%nat ->
       timer_before g a * (1 + tol) <= holdSeconds g ->
       Status.saved s = false))) /\
  (forall fs,
     (Step.rank (step g) <= Step.rank (step (run g fs)))%nat /\
     (step g = Step.right -> step (run g fs) <> Step.left) /\
     (step g = Step.done -> step (run g fs) = Step.done)).
Proof.
  split.
  - intros lm m now g' s a. subst g' s.
    split; [|split; [|split; [|split]]].
    + destruct (update_step_cases g lm m now)
        as [(Hsv & Hs & Hl & Hr & Hno)|(Hsv & Hex & Hm)].
      * split; [congruence|]. intros (h & Hh & Hle). exfalso. exact (Hno h Hh Hle).
      * split; [intros _; exact Hex|intros _; exact Hsv].
    + destruct (update_step_cases g lm m now)
        as [(Hsv & Hs & Hl & Hr & Hno)|(Hsv & Hex & Hm)];
        [congruence | intros _; exact Hm].
    + destruct (update_step_cases g lm m now)
        as [(Hsv & Hs & Hl & Hr & Hno)|(Hsv & Hex & Hm)];
        [intros _; repeat split; assumption | congruence].
    + intros Hsv.
      destruct (update_hold_cases g lm m now)
        as (_ & [(E & _) | (tr & h1 & Ht & Hf & _ & _)]); [congruence|].
      split; [congruence|].
      unfold a. rewrite (tracked_active _ _ _ _ _ Ht). exact Hf.
    + intros Htr Hf Hhs Hh He.
      destruct (tracked g lm m now) as [tr|] eqn:Ht; [clear Htr|congruence].
      pose proof (tracked_active _ _ _ _ _ Ht) as Ha. fold a in Ha.
      rewrite Ha in Hf.
      pose proof (update_saves_on_hit _ _ _ _ _ Ht Hf) as Hsv.
      cbv zeta in Hsv. rewrite <- Ha in Hsv. rewrite Hsv. clear Hsv.
      pose proof tol_pos as Htol.
      assert (Ht0 : 0 <= timer_before g a).
      { unfold timer_before. destruct (rung_neq (_candidate g) a);
          [apply Qcle_refl | exact Hh]. }
      unfold hold_after.
      set (k0 := count_before g a). set (h0 := timer_before g a) in *.
      set (hs := holdSeconds g) in *. set (e := elapsed g now) in *.
      clearbody k0 h0 hs e. clear - Hhs He Htol Ht0.
      split.
      * intros Hk.
        assert (Ek : (kFrames g <=?
                      (if speed_le (t_spd tr) (maxSpeedPerSec g)
                       then S k0 else k0))%nat = true).
        { apply Nat.leb_le. destruct (speed_le _ _); lia. }
        rewrite Ek. split; intros H.
        -- apply Qcle_bool_iff. revert Hhs Htol H. to_Q. intros. nra.
        -- destruct (Qcle_bool hs (h0 + e)) eqn:E; [|reflexivity].
           apply Qcle_bool_iff in E. exfalso.
           revert Hhs Htol Ht0 He H E. to_Q. intros. nra.
      * intros Hk H.
        assert (Ek : (kFrames g <=?
                      (if speed_le (t_spd tr) (maxSpeedPerSec g)
                       then S k0 else k0))%nat = false).
        { apply Nat.leb_gt. destruct (speed_le _ _); lia. }
        rewrite Ek.
        destruct (Qcle_bool hs h0) eqn:E; [|reflexivity].
        apply Qcle_bool_iff in E. exfalso.
        revert Hhs Htol Ht0 H E. to_Q. intros. nra.
  - intros fs. pose proof (run_rank fs g) as H.
    split; [exact H|]. split; intros Hg; rewrite Hg in H; simpl in H;
      destruct (step (run g fs)); simpl in H; try lia; try discriminate; reflexivity.
Qed.

(** A run of C1's theorem: after six steady frames on rung 5, the count has
    reached [kFrames]; the frame 5 s later leaves a hold of 5.1 s, saves
    rung 5 for the left hand and moves the step to [right]. *)
Lemma update_saves_iff_hold_reached_witness :
  step held6 = Step.left /\
  hold_after held6 (Some 5%nat) 6500 = 5.1 /\
  Status.saved (snd (update held6 (Some on_rung5) true 6500)) = true /\
  step (fst (update held6 (Some on_rung5) true 6500)) = Step.right /\
  leftSaved (fst (update held6 (Some on_rung5) true 6500)) = Some 5%nat.
Proof.
  assert (Hh : hold_after held6 (Some 5%nat) 6500 = 5.1) by qc_eval.
  split; [reflexivity|]. split; [exact Hh|].
  destruct (proj1 (update_saves_iff_hold_reached held6) (Some on_rung5) true 6500)
    as (_ & Hstep & _ & _ & Hhit).
  assert (Ha : active_of (step held6)
                 (fst (update held6 (Some on_rung5) true 6500)) = Some 5%nat)
    by (vm_compute; reflexivity).
  rewrite Ha in Hhit.
  destruct Hhit as ((Hyes & _) & _).
  - vm_compute. discriminate.
  - reflexivity.
  - unfold Qcle. vm_compute. discriminate.
  - unfold Qcle. vm_compute. discriminate.
  - unfold Qcle. vm_compute. discriminate.
  - vm_compute. lia.
  - assert (Hsv : Status.saved (snd (update held6 (Some on_rung5) true 6500)) = true).
    { apply Hyes. rewrite Hh. unfold Qcle. vm_compute. discriminate. }
    split; [exact Hsv|].
    specialize (Hstep Hsv). change (step held6) with Step.left in Hstep.
    destruct Hstep as (Hs & Hl & _).
    split; [exact Hs|]. rewrite Hl. vm_compute. reflexivity.
Defined.

(** ** Steady frames *)

(** The speed of a tracked frame, from the state before the frame. *)
Lemma tracked_speed_of (g : Grid) l m now tr p15 p16 :
  tracked g (Some l) m now = Some tr ->
  at_ l 15 = Some p15 -> at_ l 16 = Some p16 ->
  t_spd tr =
  speed (hand_point (step g) g) (wrist (step g) m p15 p16) (elapsed g now).
Proof.
  intros Ht E15 E16.
  rewrite (tracked_speed _ _ _ _ _ _ _ Ht E15 E16), (tracked_dt _ _ _ _ _ Ht).
  unfold hand_point, wrist. destruct (Step.eqb (step g) Step.left); reflexivity.
Qed.

Lemma speed_le_moved (p w : Point) (dt m : Qc) :
  0 < dt ->
  speed_le (speed (Some p) w dt) m =
  Qcle_bool 0 (moved2 p w) && Qcle_bool 0 (m * dt) &&
  Qcle_bool (moved2 p w) (m * dt * (m * dt)).
Proof.
  intros Hdt. unfold speed.
  destruct (Qclt_bool 0 dt) eqn:E.
  - reflexivity.
  - apply Qclt_bool_false in E. exfalso.
    revert Hdt E. to_Q. intros. lra.
Qed.

Lemma speed_le_still (prev : option Point) (w : Point) (dt m : Qc) :
  prev = None \/ dt <= 0 ->
  speed_le (speed prev w dt) m = Qcle_bool 0 m.
Proof.
  intros H. unfold speed. destruct prev as [p|]; [|reflexivity].
  destruct H as [H|H]; [discriminate|].
  destruct (Qclt_bool 0 dt) eqn:E; [|reflexivity].
  apply Qclt_bool_true in E. exfalso. revert H E. to_Q. intros. lra.
Qed.

(** C2, as amended.  On a frame that is tracked and hits a rung, the
    steady-frame count restarts from zero only when the rung differs from
    the candidate; a steady frame (speed at most [maxSpeedPerSec]) adds one
    to it and an unsteady frame leaves it as it is; the hold timer gains the
    elapsed time of the frame exactly when the count, after this frame, has
    reached [kFrames].  The speed is that of the hand being calibrated, from
    its previous smoothed point to its current unsmoothed point over the
    time since the previous tracked frame, and zero when there is no
    previous point or no time has passed: the frame is steady when the
    distance moved is below [maxSpeedPerSec] times the elapsed time by the
    margin [tol] or more, and unsteady when it is above by more than that. *)
Theorem hold_accrues_once_count_reached (g : Grid) lm m now tr :
  tracked g lm m now = Some tr ->
  falsy_rung (t_active tr) = false ->
  let same := negb (rung_neq (_candidate g) (t_active tr)) in
  let k0 := if same then _kOn g else 0%nat in
  let h0 := if same then _hold g else 0 in
  let steady := speed_le (t_spd tr) (maxSpeedPerSec g) in
  let k1 := if steady then S k0 else k0 in
  let h1 := if (kFrames g <=? k1)%nat then h0 + t_dt tr else h0 in
  (exists g1 side,
     upto_hold g lm m now = Next g1 side /\ _kOn g1 = k1 /\ _hold g1 = h1) /\
  accumulated g lm m now = Some h1 /\
  (Status.saved (snd (update g lm m now)) = false ->
   _kOn (fst (update g lm m now)) = k1 /\ _hold (fst (update g lm m now)) = h1) /\
  t_active tr = active_of (step g) (fst (update g lm m now)) /\
  t_dt tr = elapsed g now /\
  (hand_point (step g) g = None \/ elapsed g now <= 0 ->
   steady = Qcle_bool 0 (maxSpeedPerSec g)) /\
  (forall l p15 p16 p,
     lm = Some l -> at_ l 15 = Some p15 -> at_ l 16 = Some p16 ->
     hand_point (step g) g = Some p -> in_unit_square p ->
     tol <= elapsed g now ->
     let lim := maxSpeedPerSec g * elapsed g now in
     let moved := moved2 p (wrist (step g) m p15 p16) in
     (tol <= lim -> moved <= (lim - tol) * (lim - tol) -> steady = true) /\
     (lim + tol < 0 \/ (lim + tol) * (lim + tol) < moved -> steady = false)).
Proof.
  intros Ht Hf same k0 h0 steady k1 h1.
  pose proof (tracked_kept _ _ _ _ _ Ht) as (Hc & _ & Hk & Hh & Hd & _).
  destruct (steadiness_hit tr Hf) as (g1 & E & Ek & Eh).
  cbv zeta in Ek, Eh.
  assert (Hms : maxSpeedPerSec (t_grid tr) = maxSpeedPerSec g)
    by (unfold conf in Hc; congruence).
  assert (Hkf : kFrames (t_grid tr) = kFrames g)
    by (unfold conf in Hc; congruence).
  rewrite Hk, Hd, Hms in Ek. rewrite Hk, Hh, Hd, Hms, Hkf in Eh.
  change (_kOn g1 = k1) in Ek. change (_hold g1 = h1) in Eh.
  pose proof (tracked_some _ _ _ _ _ Ht) as Hu. rewrite E in Hu.
  split; [exists g1, (t_side tr); auto|].
  split; [unfold accumulated; rewrite Hu; congruence|].
  split.
  { unfold update. rewrite Hu. intros Hn.
    pose proof (completion_cases g1 (t_side tr)) as Hcomp.
    cbv zeta in Hcomp.
    destruct (Qcle_bool (holdSeconds g1) (_hold g1)); destruct Hcomp as (Hsv & Hrest).
    - congruence.
    - rewrite Hrest. auto. }
  split; [symmetry; exact (tracked_active _ _ _ _ _ Ht)|].
  split; [exact (tracked_dt _ _ _ _ _ Ht)|].
  destruct (tracked_wrists _ _ _ _ _ Ht) as (l & p15 & p16 & -> & E15 & E16).
  pose proof (tracked_speed_of _ _ _ _ _ _ _ Ht E15 E16) as Hspd.
  unfold steady. rewrite Hspd.
  split.
  - intros H. now apply speed_le_still.
  - intros l' q15 q16 p Hl F15 F16 Hp _ Hdt.
    injection Hl as <-. rewrite E15 in F15. rewrite E16 in F16.
    injection F15 as <-. injection F16 as <-. rewrite Hp.
    set (lim := maxSpeedPerSec g * elapsed g now).
    set (moved := moved2 p (wrist (step g) m p15 p16)).
    pose proof tol_pos as Htol.
    assert (Hpos : 0 < elapsed g now).
    { revert Htol Hdt. to_Q. intros. lra. }
    rewrite (speed_le_moved _ _ _ _ Hpos). fold lim. fold moved.
    clear - Htol.
    assert (Hm : Qcle_bool 0 moved = true).
    { apply Qcle_bool_iff. apply sq_nonneg. }
    rewrite Hm. cbn [andb]. clearbody lim moved. apply Qcle_bool_iff in Hm.
    split.
    + intros H1 H2.
      apply andb_true_iff. split; apply Qcle_bool_iff.
      * revert Htol H1. to_Q. intros. lra.
      * revert Htol H1 H2. to_Q. intros. nra.
    + intros H.
      destruct (Qcle_bool 0 lim) eqn:E1; [|reflexivity]. cbn [andb].
      destruct (Qcle_bool moved (lim * lim)) eqn:E2; [|reflexivity].
      apply Qcle_bool_iff in E1. apply Qcle_bool_iff in E2. exfalso.
      destruct H as [H|H]; revert Htol E1 E2 H; to_Q; intros; nra.
Qed.

(** C2 as first stated fails: after six steady frames on rung 5, a frame in
    which the left hand moves faster than [maxSpeedPerSec] over the same
    rung does not send the steady-frame count back to zero, and the hold
    timer gains the 0.1 s of that very frame. *)
Lemma unsteady_frame_keeps_count_and_accrues :
  exists tr,
    tracked held6 (Some jerk5) true 1600 = Some tr /\
    t_active tr = _candidate held6 /\
    speed_le (t_spd tr) (maxSpeedPerSec held6) = false /\
    _kOn held6 = 6%nat /\ _hold held6 = 0.1 /\
    _kOn (fst (update held6 (Some jerk5) true 1600)) = 6%nat /\
    _hold (fst (update held6 (Some jerk5) true 1600)) = 0.2.
Proof.
  eexists. split; [vm_compute; reflexivity|].
  split; [vm_compute; reflexivity|].
  split; [vm_compute; reflexivity|].
  split; [vm_compute; reflexivity|].
  split; [qc_eval|].
  split; [vm_compute; reflexivity|qc_eval].
Qed.


(** Two runs of C2's theorem after six steady frames on rung 5.  A seventh
    frame that moves the hand by nothing in 0.1 s is steady and gains its
    0.1 s; a seventh frame that moves the hand by 0.07 in 0.1 s, above the
    0.06 that [maxSpeedPerSec] allows, is not steady. *)
Lemma hold_accrues_once_count_reached_witness :
  (exists tr,
     tracked held6 (Some on_rung5) true 1600 = Some tr /\
     falsy_rung (t_active tr) = false /\
     speed_le (t_spd tr) (maxSpeedPerSec held6) = true /\
     accumulated held6 (Some on_rung5) true 1600 = Some (Q2Qc 0.2)) /\
  (exists tr,
     tracked held6 (Some jerk5) true 1600 = Some tr /\
     falsy_rung (t_active tr) = false /\
     speed_le (t_spd tr) (maxSpeedPerSec held6) = false).
Proof.
  eassert (Hp : hand_point (step held6) held6 = Some _) by (vm_compute; reflexivity).
  split.
  - destruct (tracked held6 (Some on_rung5) true 1600) as [tr|] eqn:Ht;
      [|exfalso; revert Ht; vm_compute; discriminate].
    exists tr. split; [reflexivity|].
    assert (Hf : falsy_rung (t_active tr) = false).
    { revert Ht. vm_compute. intros H; injection H as <-. reflexivity. }
    split; [exact Hf|].
    destruct (hold_accrues_once_count_reached held6 (Some on_rung5) true 1600 tr Ht Hf)
      as (_ & Hacc & _ & _ & _ & _ & Hst).
    eassert (H15 : at_ on_rung5 15 = Some _) by (vm_compute; reflexivity).
    eassert (H16 : at_ on_rung5 16 = Some _) by (vm_compute; reflexivity).
    destruct (Hst on_rung5 _ _ _ eq_refl H15 H16 Hp) as (Hyes & _).
    + split; split; unfold Qcle; vm_compute; discriminate.
    + unfold Qcle. vm_compute. discriminate.
    + assert (Hs : speed_le (t_spd tr) (maxSpeedPerSec held6) = true).
      { apply Hyes; unfold Qcle; vm_compute; discriminate. }
      split; [exact Hs|].
      rewrite Hacc. f_equal.
      revert Ht. vm_compute. intros H; injection H as <-. qc_eval.
  - destruct (tracked held6 (Some jerk5) true 1600) as [tr|] eqn:Ht;
      [|exfalso; revert Ht; vm_compute; discriminate].
    exists tr. split; [reflexivity|].
    assert (Hf : falsy_rung (t_active tr) = false).
    { revert Ht. vm_compute. intros H; injection H as <-. reflexivity. }
    split; [exact Hf|].
    destruct (hold_accrues_once_count_reached held6 (Some jerk5) true 1600 tr Ht Hf)
      as (_ & _ & _ & _ & _ & _ & Hst).
    eassert (H15 : at_ jerk5 15 = Some _) by (vm_compute; reflexivity).
    eassert (H16 : at_ jerk5 16 = Some _) by (vm_compute; reflexivity).
    destruct (Hst jerk5 _ _ _ eq_refl H15 H16 Hp) as (_ & Hno).
    + split; split; unfold Qcle; vm_compute; discriminate.
    + unfold Qcle. vm_compute. discriminate.
    + apply Hno. right. unfold Qclt. vm_compute. reflexivity.
Defined.

(** ** The hit test, with a margin *)








